(** * Security dashboard: the in-memory data-processing engine

    A shallow embedding of the record normalizer (utils/dataLoader.ts), the
    metrics aggregator, the filter engine and the sort engine
    (utils/dataProcessor.ts), the sort worker (workers/sortWorker.ts) and the
    comparison list of the main dashboard
    (components/Dashboard/MainDashboard.tsx), followed by the properties the
    specification states about them. Around them: the hook that talks to
    the sort worker (hooks/useSortWorker.ts), the colour and level helpers
    (utils/severityUtils.ts, utils/cvssUtils.ts) and the two charts that
    read the metrics and the KAI status (SeverityDistribution,
    AIManualComparisonChart), with the properties their code shows.

    Modelling conventions.
    - A JavaScript string is a [string] of code units below 256: a character
      of a [string] is the character of ISO 8859-1 with that code, so that
      the character with code 233 is e with acute accent and the one with
      code 223 the sharp s. Texts with code units from 256 on are outside
      the model. [toLowerCase] is the lower-casing of ECMAScript on these
      texts; [toUpperCase] is its upper-casing, sharp s to SS included, on
      all of them but the micro sign (181) and y with diaeresis (255), whose
      upper-case forms lie above 255: the statements that depend on
      [toUpperCase] leave these two out.
    - A JavaScript number is a rational: the numbers of a JSON document are
      finite, and the sign of a difference of two of them is the sign of the
      exact difference.
    - An object used as a dictionary ([SEVERITY_ORDER], the accumulator of
      [groupBySeverity], the frequency map) is a [gmap] of its own entries
      on top of the properties every object inherits from
      [Object.prototype], which [in] and a property read find as well.
    - A [VulnerabilityData] follows the TypeScript interface: [id],
      [package], [severity] and [kaiStatus] are strings, the other declared
      fields are optional, and the index signature admits further
      properties of any value. Where the code reads a record that a parsed
      JSON document can hold but the interface excludes (an array element
      that is [null], a severity that is missing or no string), the
      function is given on the parsed objects as well. *)

From Stdlib Require Import ZArith QArith String Ascii List Permutation Sorted.
From Stdlib Require Import DecimalString DecimalNat Lqa.
From stdpp Require Import base gmap strings list.

Local Open Scope string_scope.
Local Open Scope list_scope.
Local Open Scope nat_scope.

(** ** JavaScript strings *)

Definition between (lo hi : nat) (c : ascii) : bool :=
  let n := nat_of_ascii c in (lo <=? n) && (n <=? hi).

(** The upper-case letters: A to Z, and A with grave to thorn but for the
    multiplication sign (215). *)
Definition is_upper (c : ascii) : bool :=
  between 65 90 c || between 192 214 c || between 216 222 c.

(** The lower-case letters whose upper-case form is one character below
    256: a to z, and a with grave to thorn but for the division sign (247). *)
Definition is_lower (c : ascii) : bool :=
  between 97 122 c || between 224 246 c || between 248 254 c.

Definition lower_char (c : ascii) : ascii :=
  if is_upper c then ascii_of_nat (nat_of_ascii c + 32) else c.

Definition upper_char (c : ascii) : ascii :=
  if is_lower c then ascii_of_nat (nat_of_ascii c - 32) else c.

(** The sharp s, whose upper-case form is the two letters SS. *)
Definition sharp_s : ascii := "223"%char.

(** The micro sign and y with diaeresis: their upper-case forms are not
    characters of a [string]. *)
Definition upper_beyond (c : ascii) : bool :=
  (nat_of_ascii c =? 181) || (nat_of_ascii c =? 255).

(** [String.prototype.toLowerCase] *)
Fixpoint toLowerCase (s : string) : string :=
  match s with
  | EmptyString => EmptyString
  | String c s' => String (lower_char c) (toLowerCase s')
  end.

(** [String.prototype.toUpperCase], on texts without a character that is
    [upper_beyond]. *)
Fixpoint toUpperCase (s : string) : string :=
  match s with
  | EmptyString => EmptyString
  | String c s' =>
      if Ascii.eqb c sharp_s then String "S" (String "S" (toUpperCase s'))
      else String (upper_char c) (toUpperCase s')
  end.

(** No character of the text is [upper_beyond]. *)
Definition upper_within (s : string) : bool :=
  forallb (fun c => negb (upper_beyond c)) (list_ascii_of_string s).

(** [s.charAt(0)]: the first character as a string, the empty string when
    there is none. *)
Definition charAt0 (s : string) : string :=
  match s with
  | EmptyString => EmptyString
  | String c _ => String c EmptyString
  end.

(** [s.slice(1)] *)
Definition slice1 (s : string) : string :=
  match s with
  | EmptyString => EmptyString
  | String _ s' => s'
  end.

(** [s.includes(t)]: [t] occurs in [s] as a substring. *)
Fixpoint includes (s t : string) : bool :=
  String.prefix t s ||
  match s with
  | EmptyString => false
  | String _ s' => includes s' t
  end.

(** The truth value of a string: only the empty string is falsy. *)
Definition truthy_string (s : string) : bool :=
  match s with
  | EmptyString => false
  | String _ _ => true
  end.

(** ** JavaScript values *)

(** The values a property can hold. Arrays and objects are opaque
    references: the code under study only asks for their [typeof]. *)
Inductive value : Type :=
| VUndefined
| VNull
| VBool (b : bool)
| VNumber (n : Q)
| VString (s : string)
| VArray (items : list string)
| VObject (ref : positive).

Definition is_nullish (v : value) : bool :=
  match v with
  | VUndefined | VNull => true
  | _ => false
  end.

(** Truthiness, as [||], [?:] and [if] test it. *)
Definition truthy (v : value) : bool :=
  match v with
  | VUndefined | VNull => false
  | VBool b => b
  | VNumber n => negb (Qeq_bool n 0)
  | VString s => truthy_string s
  | VArray _ | VObject _ => true
  end.

(** A call that returns, or throws a [TypeError]. *)
Inductive result (A : Type) : Type :=
| Ok (a : A)
| TypeError.
Arguments Ok {A} a.
Arguments TypeError {A}.

(** [item.key] on an object of a parsed JSON document, for a key that no
    object inherits: [undefined] when the property is absent. *)
Definition prop (item : gmap string value) (key : string) : value :=
  default VUndefined (item !! key).

(** ** Plain objects *)

(** The property names every plain object inherits from [Object.prototype]:
    eleven functions and the accessor [__proto__]. *)
Definition Object_prototype_keys : list string :=
  ["constructor"; "__defineGetter__"; "__defineSetter__"; "hasOwnProperty";
   "__lookupGetter__"; "__lookupSetter__"; "isPrototypeOf";
   "propertyIsEnumerable"; "toString"; "valueOf"; "__proto__"; "toLocaleString"].

Definition inherited (key : string) : bool :=
  existsb (String.eqb key) Object_prototype_keys.

(** What a plain object that counts holds under a key of its own: a count;
    [NaN], what [++] makes of a function; or a text, what [+ 1] makes of
    one. *)
Inductive counter : Type :=
| Count (n : nat)
| NaN
| Text.

(** [key in o] *)
Definition has_property (o : gmap string counter) (key : string) : bool :=
  match o !! key with
  | Some _ => true
  | None => inherited key
  end.

(** [o[key]++]. The number of a function, of an object, of a text that is
    no numeral and of [undefined] is [NaN]; the assignment makes [key] a
    property of [o] itself, but for [__proto__], whose setter ignores a
    number. *)
Definition increment (o : gmap string counter) (key : string) : gmap string counter :=
  match o !! key with
  | Some (Count n) => <[key := Count (S n)]> o
  | Some _ => <[key := NaN]> o
  | None => if String.eqb key "__proto__" then o else <[key := NaN]> o
  end.

(** [o[key] = (o[key] || 0) + 1]. A count goes up by one and [NaN], falsy,
    gives 1; a function, an object and a text are truthy and [+ 1] appends
    to their text; the setter of [__proto__] ignores a text. *)
Definition add_one (o : gmap string counter) (key : string) : gmap string counter :=
  match o !! key with
  | Some (Count n) => <[key := Count (n + 1)]> o
  | Some NaN => <[key := Count 1]> o
  | Some Text => <[key := Text]> o
  | None =>
      if inherited key then
        if String.eqb key "__proto__" then o else <[key := Text]> o
      else <[key := Count 1]> o
  end.

(** [o[key] || 0], read as a count: a count, and 0 for [NaN] and for a
    missing key that is not inherited. *)
Definition count_or_zero (o : gmap string counter) (key : string) : option nat :=
  match o !! key with
  | Some (Count n) => Some n
  | Some NaN => Some 0
  | Some Text => None
  | None => if inherited key then None else Some 0
  end.

(** The sum of two counts, where both are counts. *)
Definition add_counts (a b : option nat) : option nat :=
  match a, b with
  | Some x, Some y => Some (x + y)
  | _, _ => None
  end.

(** ** The record type (types/vulnerability.types.ts, as the worker and the
    architecture notes restate it) *)

(** The field [id] is the record's identifier: below, [map id l] is the list
    of the identifiers of [l]. *)
Record VulnerabilityData : Type := mkVulnerability {
  id : string;
  package : string;
  severity : string;
  cvss : option Q;
  cve : option string;
  description : option string;
  version : option string;
  kaiStatus : string;
  riskFactors : option (list string);
  timestamp : option string;
  extra : gmap string value
}.



Record KaiStatusBreakdown : Type := mkKaiStatusBreakdown {
  invalid_norisk : nat;
  ai_invalid_norisk : nat;
  other : nat
}.

Record VulnerabilityMetrics : Type := mkMetrics {
  total : nat;
  severityDistribution : gmap string counter;
  riskFactorsFrequency : gmap string counter;
  kaiStatusBreakdown : KaiStatusBreakdown
}.

(** [arr.includes(x)] on an array of strings. *)
Definition array_includes (arr : list string) (x : string) : bool :=
  existsb (String.eqb x) arr.

(** ** Optional chaining and defaults *)

(** [field?.toLowerCase()] *)
Definition optional_toLowerCase (field : option string) : option string :=
  option_map toLowerCase field.

(** [s || ''] for an optional string: [undefined] and the empty string both
    give the empty string. *)
Definition or_empty (s : option string) : string :=
  match s with
  | Some s => if truthy_string s then s else ""
  | None => ""
  end.

(** [n || 0] for an optional number. *)
Definition or_zero (n : option Q) : Q :=
  match n with
  | Some n => if Qeq_bool n 0 then 0%Q else n
  | None => 0%Q
  end.

(** [field?.toLowerCase().includes(term)]; [undefined] is falsy. *)
Definition optional_includes (field : option string) (term : string) : bool :=
  match optional_toLowerCase field with
  | Some s => includes s term
  | None => false
  end.

(** ** Property access [a[field]] *)

Definition of_optional_string (o : option string) : value :=
  match o with
  | Some s => VString s
  | None => VUndefined
  end.

(** What a read finds on the prototype chain: a function or, for
    [__proto__], the prototype; to the code under study either is a value
    that is neither nullish nor a string nor a number. *)
Definition inherited_value : value := VObject 1%positive.

Definition get_field (a : VulnerabilityData) (field : string) : value :=
  if String.eqb field "id" then VString (id a)
  else if String.eqb field "package" then VString (package a)
  else if String.eqb field "severity" then VString (severity a)
  else if String.eqb field "cvss" then
    match cvss a with Some n => VNumber n | None => VUndefined end
  else if String.eqb field "cve" then of_optional_string (cve a)
  else if String.eqb field "description" then of_optional_string (description a)
  else if String.eqb field "version" then of_optional_string (version a)
  else if String.eqb field "kaiStatus" then VString (kaiStatus a)
  else if String.eqb field "riskFactors" then
    match riskFactors a with Some l => VArray l | None => VUndefined end
  else if String.eqb field "timestamp" then of_optional_string (timestamp a)
  else
    match extra a !! field with
    | Some v => v
    | None => if inherited field then inherited_value else VUndefined
    end.

(** ** [Array.prototype.sort] *)

(** The sort is a stable insertion sort: the elements are taken from left
    to right, and each is placed before the first element of the sorted
    prefix that the comparator puts strictly after it. The comparator is
    called as [comparefn new old]; only the sign of its result is used.
    With a consistent comparator ECMAScript fixes the result, the stable
    sorted order, and it is the list computed here. *)
Section ArraySort.
Context {A : Type}.
Variable comparefn : A -> A -> Q.

Definition is_negative (v : Q) : bool :=
  match (v ?= 0)%Q with
  | Lt => true
  | _ => false
  end.

Fixpoint sort_insert (x : A) (sorted : list A) : list A :=
  match sorted with
  | [] => [x]
  | y :: rest =>
      if is_negative (comparefn x y) then x :: y :: rest
      else y :: sort_insert x rest
  end.

Definition array_sort (l : list A) : list A :=
  fold_left (fun sorted x => sort_insert x sorted) l [].
End ArraySort.

(** Other engines sort with other algorithms. What they share is that an
    element ends up directly before another only on the strength of a call
    of the comparator: [comparefn x y <= 0], or [comparefn y x >= 0]. *)
Definition is_positive (v : Q) : bool :=
  match (v ?= 0)%Q with
  | Gt => true
  | _ => false
  end.

Definition permits {A : Type} (comparefn : A -> A -> Q) (x y : A) : Prop :=
  is_positive (comparefn x y) = false \/ is_negative (comparefn y x) = false.

Fixpoint permitted_order {A : Type} (comparefn : A -> A -> Q) (l : list A) : Prop :=
  match l with
  | x :: rest =>
      match rest with
      | y :: _ => permits comparefn x y
      | [] => True
      end
      /\ permitted_order comparefn rest
  | [] => True
  end.

(** The list is a run of ordinary elements followed by a run of [last]
    ones. *)
Definition last_at_end {A : Type} (last : A -> bool) (l : list A) : Prop :=
  exists front back,
    l = front ++ back
    /\ Forall (fun x => last x = false) front
    /\ Forall (fun x => last x = true) back.

Inductive direction : Type := asc | desc.

(** [direction === 'asc' ? a - b : b - a], as the sort takes it: the
    difference with something that is no number is [NaN], which the sort
    takes as [+0]. *)
Definition difference (direction : direction) (a b : option Q) : Q :=
  match a, b with
  | Some x, Some y => match direction with asc => x - y | desc => y - x end
  | _, _ => 0
  end.

(** [a.riskFactors?.length || 0] *)
Definition riskFactorsCount (a : VulnerabilityData) : Q :=
  or_zero (option_map (fun l => inject_Z (Z.of_nat (length l))) (riskFactors a)).

(** [aStr < bStr] on strings: lexicographic on the character codes. *)
Definition string_lt (s t : string) : bool := String.ltb s t.

Module Filters.
Record t : Type := mk {
  searchTerm : option string;
  severities : option (list string);
  riskFactors : option (list string);
  excludeKaiStatus : option (list string)
}.
End Filters.

(** ** Severities, whatever the case *)

(** Case-insensitive equality of two strings. *)
Definition same_ignoring_case (s t : string) : Prop :=
  toLowerCase s = toLowerCase t.

#[global] Instance same_ignoring_case_dec s t : Decision (same_ignoring_case s t) :=
  decide (toLowerCase s = toLowerCase t).

(** The four canonical severity levels ([SEVERITIES]). *)
Definition SEVERITIES : list string := ["Critical"; "High"; "Medium"; "Low"].

(** A record has a recognized severity when it matches one of the four
    levels, whatever the case. *)
Definition recognized_severity (d : VulnerabilityData) : Prop :=
  exists level, In level SEVERITIES /\ same_ignoring_case (severity d) level.

(** The number of records whose severity is a given level, whatever the
    case. *)
Definition count_severity (level : string) (data : list VulnerabilityData) : nat :=
  length (filter (fun d => same_ignoring_case (severity d) level) data).

(** ** utils/dataProcessor.ts *)

Module DataProcessor.

(** The object [{ critical: c, high: h, medium: m, low: l }]. *)
Definition buckets (c h m l : nat) : gmap string counter :=
  <["critical" := Count c]>
    (<["high" := Count h]> (<["medium" := Count m]> (<["low" := Count l]> ∅))).

(** The initial accumulator [{ critical: 0, high: 0, medium: 0, low: 0 }]. *)
Definition severity_buckets : gmap string counter := buckets 0 0 0 0.

(** The body of the reducer of [groupBySeverity], from the lower-cased
    severity on: [if (severity in acc) acc[severity]++]. *)
Definition count_level (acc : gmap string counter) (severity : string)
  : gmap string counter :=
  if has_property acc severity then increment acc severity else acc.

(** [groupBySeverity], on records of the interface: one pass of [reduce]. *)
Definition groupBySeverity (data : list VulnerabilityData) : gmap string counter :=
  fold_left (fun acc item => count_level acc (toLowerCase (severity item)))
    data severity_buckets.

(** What the accumulator holds after some records: the four buckets, and
    [constructor: NaN] once a severity has spelled that word. *)
Definition distribution (constructor : bool) (c h m l : nat) : gmap string counter :=
  if constructor then <["constructor" := NaN]> (buckets c h m l) else buckets c h m l.

Definition spells_constructor (data : list VulnerabilityData) : bool :=
  existsb (fun d => String.eqb (toLowerCase (severity d)) "constructor") data.




(** The [riskFactors] of a record of a parsed document: an array of labels;
    an object, by its own keys, the legacy format; or a value that is falsy
    or no object. *)
Inductive risk_factors : Type :=
| Labels (factors : list string)
| Legacy (keys : list string)
| Neither.

(** The body of the [forEach] of [calculateRiskFrequency]:
    [frequencyMap[factor] = (frequencyMap[factor] || 0) + 1] for every label
    of the array, or for every key of the object. *)
Definition count_factors (frequencyMap : gmap string counter) (item : risk_factors)
  : gmap string counter :=
  match item with
  | Labels factors => fold_left add_one factors frequencyMap
  | Legacy keys => fold_left add_one keys frequencyMap
  | Neither => frequencyMap
  end.

(** [calculateRiskFrequency], on the [riskFactors] of the records of a
    parsed document. *)
Definition calculateRiskFrequency_parsed (data : list risk_factors) : gmap string counter :=
  fold_left count_factors data ∅.

(** The [riskFactors] of a record of the interface: an array, or absent. *)
Definition factors_of (item : VulnerabilityData) : risk_factors :=
  match riskFactors item with
  | Some factors => Labels factors
  | None => Neither
  end.

(** [calculateRiskFrequency] *)
Definition calculateRiskFrequency (data : list VulnerabilityData) : gmap string counter :=
  calculateRiskFrequency_parsed (map factors_of data).

(** [processVulnerabilityData] *)
Definition processVulnerabilityData (data : list VulnerabilityData) : VulnerabilityMetrics :=
  {| total := length data;
     severityDistribution := groupBySeverity data;
     riskFactorsFrequency := calculateRiskFrequency data;
     kaiStatusBreakdown :=
       {| invalid_norisk :=
            length (List.filter (fun d => String.eqb (kaiStatus d) "invalid - norisk") data);
          ai_invalid_norisk :=
            length (List.filter (fun d => String.eqb (kaiStatus d) "ai-invalid-norisk") data);
          other :=
            length (List.filter
                      (fun d => negb (array_includes
                                        ["invalid - norisk"; "ai-invalid-norisk"]
                                        (kaiStatus d)))
                      data) |} |}.

(** [filterByKaiStatus] *)
Definition filterByKaiStatus (data : list VulnerabilityData) (excludeStatus : list string)
  : list VulnerabilityData :=
  List.filter (fun item => negb (array_includes excludeStatus (kaiStatus item))) data.

(** The callback of [searchVulnerabilities]: the term occurs in one of the
    five searched fields. *)
Definition search_match (term : string) (item : VulnerabilityData) : bool :=
  optional_includes (Some (package item)) term
  || optional_includes (Some (severity item)) term
  || optional_includes (Some (kaiStatus item)) term
  || optional_includes (cve item) term
  || optional_includes (description item) term.

(** [searchVulnerabilities] *)
Definition searchVulnerabilities (data : list VulnerabilityData) (searchTerm : string)
  : list VulnerabilityData :=
  if negb (truthy_string searchTerm) then data
  else
    let term := toLowerCase searchTerm in
    List.filter (search_match term) data.

(** The callbacks of the three [filter] calls of [filterVulnerabilities]. *)
Definition severity_match (severitySet : gset string) (item : VulnerabilityData) : bool :=
  bool_decide (or_empty (optional_toLowerCase (Some (severity item))) ∈ severitySet).

Definition riskFactor_match (riskFactorSet : gset string) (item : VulnerabilityData) : bool :=
  match riskFactors item with
  | None => false
  | Some [] => false
  | Some factors => existsb (fun factor => bool_decide (factor ∈ riskFactorSet)) factors
  end.

Definition kaiStatus_match (excludeSet : gset string) (item : VulnerabilityData) : bool :=
  negb (bool_decide (kaiStatus item ∈ excludeSet)).

(** [x && x.length > 0] for an optional array. *)
Definition nonempty_array (x : option (list string)) : option (list string) :=
  match x with
  | Some (y :: l) => Some (y :: l)
  | _ => None
  end.

(** [filterVulnerabilities]: the four criteria, applied in this order. *)
Definition filterVulnerabilities (data : list VulnerabilityData) (filters : Filters.t)
  : list VulnerabilityData :=
  let filtered := data in
  let filtered :=
    match Filters.searchTerm filters with
    | Some term =>
        if truthy_string term then searchVulnerabilities filtered term else filtered
    | None => filtered
    end in
  let filtered :=
    match nonempty_array (Filters.severities filters) with
    | Some severities =>
        let severitySet : gset string := list_to_set (map toLowerCase severities) in
        List.filter (severity_match severitySet) filtered
    | None => filtered
    end in
  let filtered :=
    match nonempty_array (Filters.riskFactors filters) with
    | Some requested =>
        let riskFactorSet : gset string := list_to_set requested in
        List.filter (riskFactor_match riskFactorSet) filtered
    | None => filtered
    end in
  let filtered :=
    match nonempty_array (Filters.excludeKaiStatus filters) with
    | Some excluded =>
        let excludeSet : gset string := list_to_set excluded in
        List.filter (kaiStatus_match excludeSet) filtered
    | None => filtered
    end in
  filtered.

(** What each criterion asks of a record; an absent or empty criterion asks
    nothing. *)
Definition search_criterion (filters : Filters.t) (item : VulnerabilityData) : bool :=
  match Filters.searchTerm filters with
  | Some term =>
      if truthy_string term then search_match (toLowerCase term) item else true
  | None => true
  end.

Definition severity_criterion (filters : Filters.t) (item : VulnerabilityData) : bool :=
  match nonempty_array (Filters.severities filters) with
  | Some severities => severity_match (list_to_set (map toLowerCase severities)) item
  | None => true
  end.

Definition riskFactor_criterion (filters : Filters.t) (item : VulnerabilityData) : bool :=
  match nonempty_array (Filters.riskFactors filters) with
  | Some requested => riskFactor_match (list_to_set requested) item
  | None => true
  end.

Definition kaiStatus_criterion (filters : Filters.t) (item : VulnerabilityData) : bool :=
  match nonempty_array (Filters.excludeKaiStatus filters) with
  | Some excluded => kaiStatus_match (list_to_set excluded) item
  | None => true
  end.

(** A criterion is active when it is present and not empty. *)
Definition active_term (term : option string) : bool :=
  match term with
  | Some term => truthy_string term
  | None => false
  end.

Definition active_set (x : option (list string)) : bool :=
  match nonempty_array x with
  | Some _ => true
  | None => false
  end.

(** [adds_criterion f f']: [f'] is [f] with one criterion that was not
    active in [f] set to a non-empty value. *)
Inductive adds_criterion : Filters.t -> Filters.t -> Prop :=
| adds_searchTerm f term :
    active_term (Filters.searchTerm f) = false ->
    truthy_string term = true ->
    adds_criterion f
      (Filters.mk (Some term) (Filters.severities f) (Filters.riskFactors f)
         (Filters.excludeKaiStatus f))
| adds_severities f x l :
    active_set (Filters.severities f) = false ->
    adds_criterion f
      (Filters.mk (Filters.searchTerm f) (Some (x :: l)) (Filters.riskFactors f)
         (Filters.excludeKaiStatus f))
| adds_riskFactors f x l :
    active_set (Filters.riskFactors f) = false ->
    adds_criterion f
      (Filters.mk (Filters.searchTerm f) (Filters.severities f) (Some (x :: l))
         (Filters.excludeKaiStatus f))
| adds_excludeKaiStatus f x l :
    active_set (Filters.excludeKaiStatus f) = false ->
    adds_criterion f
      (Filters.mk (Filters.searchTerm f) (Filters.severities f) (Filters.riskFactors f)
         (Some (x :: l))).

(** The criteria [f] with the risk-factor criterion replaced. *)
Definition with_riskFactors (f : Filters.t) (requested : option (list string)) : Filters.t :=
  Filters.mk (Filters.searchTerm f) (Filters.severities f) requested
    (Filters.excludeKaiStatus f).

(** The record has at least one risk-factor label. *)
Definition has_label (item : VulnerabilityData) : Prop :=
  exists labels, riskFactors item = Some labels /\ labels <> [].

(** The record has at least one risk-factor label that is not the empty
    string. *)
Definition has_nonempty_label (item : VulnerabilityData) : Prop :=
  exists labels label,
    riskFactors item = Some labels /\ In label labels /\ label <> "".

(** One of the record's labels is, character for character, a requested
    one. *)
Definition has_requested_label (requested : list string) (item : VulnerabilityData) : Prop :=
  exists labels label,
    riskFactors item = Some labels /\ In label labels /\ In label requested.

(** A record whose only label is the empty string, and a request for the
    empty label. *)
Definition empty_label_record : VulnerabilityData :=
  mkVulnerability "vuln-0" "openssl" "High" None None None None "needs-review"
    (Some [""]) None ∅.

Definition empty_label_request : Filters.t :=
  Filters.mk None None (Some [""]) None.

(** A request for the High and Critical severities, on top of no criterion. *)
Definition no_criterion : Filters.t := Filters.mk None None None None.

Definition severe_only : Filters.t :=
  Filters.mk None (Some ["Critical"; "High"]) None None.

(** [SEVERITY_ORDER] (constants/severity.ts), its own entries. *)
Definition SEVERITY_ORDER : gmap string Q :=
  <["critical" := 4%Q]> (<["high" := 3%Q]> (<["medium" := 2%Q]> (<["low" := 1%Q]> ∅))).

(** [SEVERITY_ORDER[sev?.toLowerCase() || ''] || 0]: the number of the
    table, 0 for a key that is not found, and no number when the key is
    found on the prototype chain, where a function or an object, truthy,
    is read. *)
Definition severity_rank (sev : option string) : option Q :=
  let key := or_empty (optional_toLowerCase sev) in
  match SEVERITY_ORDER !! key with
  | Some n => Some (or_zero (Some n))
  | None => if inherited key then None else Some 0%Q
  end.

(** The comparator handed to [sort]. *)
Definition compare_records (field : string) (direction : direction)
    (a b : VulnerabilityData) : Q :=
  if String.eqb field "riskFactorsCount" then
    let aCount := riskFactorsCount a in
    let bCount := riskFactorsCount b in
    match direction with asc => aCount - bCount | desc => bCount - aCount end
  else if String.eqb field "severity" then
    let aSeverity := severity_rank (Some (severity a)) in
    let bSeverity := severity_rank (Some (severity b)) in
    difference direction aSeverity bSeverity
  else
    let aVal := get_field a field in
    let bVal := get_field b field in
    if is_nullish aVal then 1
    else if is_nullish bVal then -1
    else
      match aVal, bVal with
      | VString aS, VString bS =>
          let aStr := toLowerCase aS in
          let bStr := toLowerCase bS in
          if string_lt aStr bStr then match direction with asc => -1 | desc => 1 end
          else if string_lt bStr aStr then match direction with asc => 1 | desc => -1 end
          else 0
      | VNumber x, VNumber y =>
          match direction with asc => x - y | desc => y - x end
      | _, _ => 0
      end.

(** [sortVulnerabilities]: [[...data].sort(comparator)], as a value. *)
Definition sortVulnerabilities (data : list VulnerabilityData) (field : string)
    (direction : direction) : list VulnerabilityData :=
  array_sort (compare_records field direction) data.

(** The severity of the record does not name, in any case, a property
    that [SEVERITY_ORDER] inherits: the lookup gives a number. *)
Definition plain_severity (a : VulnerabilityData) : Prop :=
  inherited (toLowerCase (severity a)) = false.

(** The rank a record with a plain severity is sorted by when the field is
    ['severity']: 4, 3, 2, 1 for the four levels and 0 otherwise. For the
    other records, whose lookup gives no number, it is 0 as well. *)
Definition rank (a : VulnerabilityData) : Q :=
  default 0%Q (severity_rank (Some (severity a))).

(** The sort field of a record is [null] or [undefined]. *)
Definition missing (field : string) (a : VulnerabilityData) : bool :=
  is_nullish (get_field a field).

(** A record of scenario A, [{id, severity, cvss}], completed with a package
    and a status. *)
Definition scenario_record (i sev : string) (score : Q) (pkg kai : string)
  : VulnerabilityData :=
  mkVulnerability i pkg sev (Some score) None None None kai None None ∅.

(** The input of scenario A. *)
Definition scenario_A (pkg kai : string) : list VulnerabilityData :=
  [scenario_record "1" "high" 7.5 pkg kai;
   scenario_record "2" "critical" 9.8 pkg kai;
   scenario_record "3" "low" 2.0 pkg kai].

(** Three records, the second with a severity that spells a property every
    object inherits. *)
Definition inherited_key_sample : list VulnerabilityData :=
  [scenario_record "1" "critical" 9.8 "openssl" "needs-review";
   scenario_record "2" "Constructor" 5.0 "zlib" "needs-review";
   scenario_record "3" "low" 2.0 "curl" "needs-review"].

(** Three records, the first without a CVSS score. *)
Definition unscored_first : list VulnerabilityData :=
  [mkVulnerability "a" "zlib" "Low" None None None None "needs-review" None None ∅;
   scenario_record "b" "High" 7.5 "openssl" "needs-review";
   scenario_record "c" "Medium" 5.0 "curl" "invalid - norisk"].

End DataProcessor.

(** ** workers/sortWorker.ts *)

Module SortWorker.

(** The worker's own copy of the severity table. *)
Definition SEVERITY_ORDER : gmap string Q :=
  <["critical" := 4%Q]> (<["high" := 3%Q]> (<["medium" := 2%Q]> (<["low" := 1%Q]> ∅))).

Definition severity_rank (sev : option string) : option Q :=
  let key := or_empty (optional_toLowerCase sev) in
  match SEVERITY_ORDER !! key with
  | Some n => Some (or_zero (Some n))
  | None => if inherited key then None else Some 0%Q
  end.

(** The worker's own copy of the comparator. *)
Definition compare_records (field : string) (direction : direction)
    (a b : VulnerabilityData) : Q :=
  if String.eqb field "riskFactorsCount" then
    let aCount := riskFactorsCount a in
    let bCount := riskFactorsCount b in
    match direction with asc => aCount - bCount | desc => bCount - aCount end
  else if String.eqb field "severity" then
    let aSeverity := severity_rank (Some (severity a)) in
    let bSeverity := severity_rank (Some (severity b)) in
    difference direction aSeverity bSeverity
  else
    let aVal := get_field a field in
    let bVal := get_field b field in
    if is_nullish aVal then 1
    else if is_nullish bVal then -1
    else
      match aVal, bVal with
      | VString aS, VString bS =>
          let aStr := toLowerCase aS in
          let bStr := toLowerCase bS in
          if string_lt aStr bStr then match direction with asc => -1 | desc => 1 end
          else if string_lt bStr aStr then match direction with asc => 1 | desc => -1 end
          else 0
      | VNumber x, VNumber y =>
          match direction with asc => x - y | desc => y - x end
      | _, _ => 0
      end.

Definition sortVulnerabilities (data : list VulnerabilityData) (field : string)
    (direction : direction) : list VulnerabilityData :=
  array_sort (compare_records field direction) data.

End SortWorker.

(** ** The array store: [sort] and [filter] on references *)

(** Arrays are mutable objects. A store maps a reference to the contents of
    the array it names; [Array.prototype.sort] overwrites the contents of
    its receiver, while the spread [[...a]] and [Array.prototype.filter]
    allocate. *)
Module Store.

Abbreviation store := (gmap positive (list VulnerabilityData)).

Definition M (A : Type) : Type := store -> A * store.

Definition ret {A : Type} (a : A) : M A := fun h => (a, h).

Definition bind {A B : Type} (m : M A) (k : A -> M B) : M B :=
  fun h => let '(a, h') := m h in k a h'.

Notation "x <- m ;; k" := (bind m (fun x => k))
  (at level 100, m at next level, right associativity).

(** The contents of an array. *)
Definition contents (r : positive) : M (list VulnerabilityData) :=
  fun h => (default [] (h !! r), h).

(** A new array with the given contents. *)
Definition alloc (l : list VulnerabilityData) : M positive :=
  fun h => let r := fresh (dom h) in (r, <[r := l]> h).

(** [[...a]] *)
Definition spread (a : positive) : M positive :=
  l <- contents a ;; alloc l.

(** [a.sort(comparefn)]: sorts [a] in place and returns [a]. *)
Definition sort (a : positive) (comparefn : VulnerabilityData -> VulnerabilityData -> Q)
  : M positive :=
  fun h => (a, <[a := array_sort comparefn (default [] (h !! a))]> h).

(** [a.filter(callback)]: a new array. *)
Definition filter (a : positive) (callback : VulnerabilityData -> bool) : M positive :=
  l <- contents a ;; alloc (List.filter callback l).

(** [sortVulnerabilities]: [return [...data].sort(comparator)]. *)
Definition sortVulnerabilities (data : positive) (field : string) (direction : direction)
  : M positive :=
  copy <- spread data ;;
  sort copy (DataProcessor.compare_records field direction).

(** [searchVulnerabilities]: [if (!searchTerm) return data]. *)
Definition searchVulnerabilities (data : positive) (searchTerm : string) : M positive :=
  if negb (truthy_string searchTerm) then ret data
  else filter data (DataProcessor.search_match (toLowerCase searchTerm)).

(** [filterVulnerabilities]: [let filtered = data], then one reassignment
    per active criterion. *)
Definition filterVulnerabilities (data : positive) (filters : Filters.t) : M positive :=
  filtered <-
    match Filters.searchTerm filters with
    | Some term =>
        if truthy_string term then searchVulnerabilities data term else ret data
    | None => ret data
    end ;;
  filtered <-
    match DataProcessor.nonempty_array (Filters.severities filters) with
    | Some severities =>
        filter filtered
          (DataProcessor.severity_match (list_to_set (map toLowerCase severities)))
    | None => ret filtered
    end ;;
  filtered <-
    match DataProcessor.nonempty_array (Filters.riskFactors filters) with
    | Some requested =>
        filter filtered (DataProcessor.riskFactor_match (list_to_set requested))
    | None => ret filtered
    end ;;
  match DataProcessor.nonempty_array (Filters.excludeKaiStatus filters) with
  | Some excluded =>
      filter filtered (DataProcessor.kaiStatus_match (list_to_set excluded))
  | None => ret filtered
  end.

(** Whether a criterion of the filters object is active: the condition of
    one of the four [if] statements holds. *)
Definition given {X : Type} (criterion : option X) : bool :=
  match criterion with
  | Some _ => true
  | None => false
  end.

Definition active (filters : Filters.t) : bool :=
  match Filters.searchTerm filters with
  | Some term => truthy_string term
  | None => false
  end
  || given (DataProcessor.nonempty_array (Filters.severities filters))
  || given (DataProcessor.nonempty_array (Filters.riskFactors filters))
  || given (DataProcessor.nonempty_array (Filters.excludeKaiStatus filters)).

(** What a stage returns is the argument of the function as long as no
    criterion was active, and an array that did not exist before the call
    from the first active criterion on. *)
Definition returned (h0 : store) (data : positive) (seen : bool)
    (r : positive * store) : Prop :=
  if seen then h0 !! r.1 = None else r.1 = data /\ r.2 = h0.

(** A store with one array. *)
Definition one_array : store := {[1%positive := DataProcessor.unscored_first]}.

End Store.

(** ** utils/dataLoader.ts: the per-record normalization *)

(** The loader works on parsed JSON of type [any]. An element of the array
    is an object, a finite map from property names to values; or [null];
    or another value: a number, a boolean, a string or an array, given by
    the properties a spread copies from it (none from a number or a
    boolean, the characters of a string and the items of an array under
    their indices), on which [id] and [severity] read [undefined]. *)
Module DataLoader.

Inductive element : Type :=
| ENull
| EObject (props : gmap string value)
| EOther (own : gmap string value).

(** [s.charAt(0).toUpperCase() + s.slice(1).toLowerCase()] *)
Definition titleCase (s : string) : string :=
  (toUpperCase (charAt0 s) ++ toLowerCase (slice1 s))%string.

(** The decimal digits of an index, as the template literal prints it. *)
Definition index_string (index : nat) : string :=
  NilEmpty.string_of_uint (Nat.to_uint index).

(** [item.id || `vuln-${index}`] *)
Definition normalized_id (item : gmap string value) (index : nat) : value :=
  if truthy (prop item "id") then prop item "id"
  else VString ("vuln-" ++ index_string index)%string.

(** [item.severity ? titleCase(item.severity) : item.severity]; a truthy
    value that is not a string has no [charAt] method. *)
Definition normalized_severity (item : gmap string value) : result value :=
  if truthy (prop item "severity") then
    match prop item "severity" with
    | VString s => Ok (VString (titleCase s))
    | _ => TypeError
    end
  else Ok (prop item "severity").

(** [{ ...item, id: ..., severity: ... }] for an object. *)
Definition normalize_object (item : gmap string value) (index : nat)
  : result (gmap string value) :=
  match normalized_severity item with
  | Ok sev => Ok (<["severity" := sev]> (<["id" := normalized_id item index]> item))
  | TypeError => TypeError
  end.

(** [item.key] on an element, for a key that nothing inherits:
    [undefined] on a value that is no object. *)
Definition element_prop (item : element) (key : string) : value :=
  match item with
  | EObject props => prop props key
  | _ => VUndefined
  end.

(** The callback of the [map]. The spread of [null] is empty, but [item.id]
    throws on it. *)
Definition normalize_item (item : element) (index : nat) : result (gmap string value) :=
  match item with
  | ENull => TypeError
  | EObject props => normalize_object props index
  | EOther own =>
      Ok (<["severity" := VUndefined]>
            (<["id" := VString ("vuln-" ++ index_string index)%string]> own))
  end.

(** [data.map((item, index) => ...)], from a starting index. *)
Fixpoint map_from (index : nat) (data : list element)
  : result (list (gmap string value)) :=
  match data with
  | [] => Ok []
  | item :: rest =>
      match normalize_item item index with
      | Ok item' =>
          match map_from (S index) rest with
          | Ok rest' => Ok (item' :: rest')
          | TypeError => TypeError
          end
      | TypeError => TypeError
      end
  end.

(** [processedData] of [loadVulnerabilityData], for data that is already a
    flat array. *)
Definition processedData (data : list element) : result (list (gmap string value)) :=
  map_from 0 data.

(** The upper-case form of the first character of the text, if it has one,
    is one character of the model: the character is neither the sharp s
    nor [upper_beyond]. *)
Definition single_capital (s : string) : bool :=
  match s with
  | EmptyString => true
  | String c _ => negb (Ascii.eqb c sharp_s) && negb (upper_beyond c)
  end.







End DataLoader.

(** ** components/Dashboard/MainDashboard.tsx: the comparison list *)

Module MainDashboard.

(** [handleAddToComparison] *)
Definition handleAddToComparison (comparisonList : list VulnerabilityData)
    (item : VulnerabilityData) : list VulnerabilityData :=
  match find (fun v => String.eqb (id v) (id item)) comparisonList with
  | Some _ => comparisonList
  | None => comparisonList ++ [item]
  end.

(** [handleRemoveFromComparison] *)
Definition handleRemoveFromComparison (comparisonList : list VulnerabilityData)
    (id0 : string) : list VulnerabilityData :=
  List.filter (fun v => negb (String.eqb (id v) id0)) comparisonList.

(** [handleClearComparison] *)
Definition handleClearComparison (comparisonList : list VulnerabilityData)
  : list VulnerabilityData := [].

(** The user's actions on the comparison list. *)
Inductive action : Type :=
| AddToComparison (item : VulnerabilityData)
| RemoveFromComparison (id0 : string)
| ClearComparison.

Definition handle (comparisonList : list VulnerabilityData) (a : action)
  : list VulnerabilityData :=
  match a with
  | AddToComparison item => handleAddToComparison comparisonList item
  | RemoveFromComparison id0 => handleRemoveFromComparison comparisonList id0
  | ClearComparison => handleClearComparison comparisonList
  end.

(** The list after a sequence of actions, from [useState([])]. *)
Definition run (actions : list action) : list VulnerabilityData :=
  fold_left handle actions [].

End MainDashboard.

(** ** components/VulnerabilityList/VirtualizedTable.tsx: the compare icon *)

Module VirtualizedTable.

(** [comparisonList?.some(v => v.id === item.id)]; the list is an optional
    property of the table. *)
Definition isInComparison (comparisonList : option (list VulnerabilityData))
    (item : VulnerabilityData) : bool :=
  match comparisonList with
  | Some l => existsb (fun v => String.eqb (id v) (id item)) l
  | None => false
  end.

End VirtualizedTable.

(** ** The messages between the sort hook and the sort worker *)

(** What the hook posts to the worker, and what the worker posts back; a
    message of another [type] carries nothing the code reads but, for a
    reply, the request id. *)
Inductive worker_message : Type :=
| SORT (data : list VulnerabilityData) (field : string) (direction : direction)
       (requestId : nat)
| other_message (type : string).

Inductive worker_reply : Type :=
| SORT_COMPLETE (data : list VulnerabilityData) (requestId : nat)
| SORT_ERROR (error : string) (requestId : nat)
| other_reply (type : string) (requestId : nat).

Definition reply_requestId (reply : worker_reply) : nat :=
  match reply with
  | SORT_COMPLETE _ requestId => requestId
  | SORT_ERROR _ requestId => requestId
  | other_reply _ requestId => requestId
  end.

(** [self.onmessage] of workers/sortWorker.ts: the replies it posts. The
    sort of the model raises no exception, so the [catch] branch posts
    nothing. *)
Definition worker_onmessage (message : worker_message) : list worker_reply :=
  match message with
  | SORT data field direction requestId =>
      [SORT_COMPLETE (SortWorker.sortVulnerabilities data field direction) requestId]
  | other_message _ => []
  end.

(** ** hooks/useSortWorker.ts *)

Module useSortWorker.

Record SortRequest : Type := mkRequest {
  data : list VulnerabilityData;
  field : string;
  direction : direction
}.

Record SortResult : Type := mkResult {
  result_data : list VulnerabilityData;
  error : option string
}.

Section Hook.
(** The [resolve] functions of the promises [sortData] returns. *)
Context {callback : Type}.

(** A [Map] from request ids to callbacks, in insertion order. *)
Definition map_get (requestId : nat) (m : list (nat * callback)) : option callback :=
  snd <$> find (fun entry => Nat.eqb (fst entry) requestId) m.

Fixpoint map_set (requestId : nat) (c : callback) (m : list (nat * callback))
  : list (nat * callback) :=
  match m with
  | [] => [(requestId, c)]
  | entry :: rest =>
      if Nat.eqb (fst entry) requestId then (requestId, c) :: rest
      else entry :: map_set requestId c rest
  end.

Definition map_delete (requestId : nat) (m : list (nat * callback))
  : list (nat * callback) :=
  List.filter (fun entry => negb (Nat.eqb (fst entry) requestId)) m.

(** The three refs of the hook; [workerRef] tells whether a worker is
    attached. *)
Record refs : Type := mkRefs {
  workerRef : bool;
  requestIdRef : nat;
  pendingRequestsRef : list (nat * callback)
}.

(** What a handler does besides updating the refs. *)
Inductive effect : Type :=
| called (c : callback) (result : SortResult)
| posted (message : worker_message).

(** The refs of a first render, and the effect that creates the worker. *)
Definition initial : refs := mkRefs false 0 [].

Definition mount (r : refs) : refs :=
  mkRefs true (requestIdRef r) (pendingRequestsRef r).

(** [workerRef.current.onmessage] *)
Definition onmessage (r : refs) (reply : worker_reply) : refs * list effect :=
  match map_get (reply_requestId reply) (pendingRequestsRef r) with
  | None => (r, [])
  | Some c =>
      (mkRefs (workerRef r) (requestIdRef r)
         (map_delete (reply_requestId reply) (pendingRequestsRef r)),
       match reply with
       | SORT_COMPLETE sorted _ => [called c (mkResult sorted None)]
       | SORT_ERROR message _ => [called c (mkResult [] (Some message))]
       | other_reply _ _ => []
       end)
  end.

(** [workerRef.current.onerror] *)
Definition onerror (r : refs) (message : string) : refs * list effect :=
  (mkRefs (workerRef r) (requestIdRef r) [],
   map (fun entry =>
          called (snd entry) (mkResult [] (Some ("Worker error: " ++ message)%string)))
     (pendingRequestsRef r)).

(** The cleanup of the effect, on unmount. *)
Definition cleanup (r : refs) : refs := mkRefs false (requestIdRef r) [].

(** [sortData]: the executor of the promise, given its [resolve]. *)
Definition sortData (r : refs) (request : SortRequest) (resolve : callback)
  : refs * list effect :=
  if negb (workerRef r) then
    (r, [called resolve (mkResult (data request) (Some "Worker not initialized"))])
  else
    let requestId := S (requestIdRef r) in
    (mkRefs (workerRef r) requestId (map_set requestId resolve (pendingRequestsRef r)),
     [posted (SORT (data request) (field request) (direction request) requestId)]).

(** What can happen to a hook. *)
Inductive event : Type :=
| mounted
| requested (request : SortRequest) (resolve : callback)
| replied (reply : worker_reply)
| failed (message : string)
| unmounted.

Definition handle (r : refs) (e : event) : refs :=
  match e with
  | mounted => mount r
  | requested request resolve => fst (sortData r request resolve)
  | replied reply => fst (onmessage r reply)
  | failed message => fst (onerror r message)
  | unmounted => cleanup r
  end.

Definition run (events : list event) : refs := fold_left handle events initial.

(** The new refs of a handler together with what it did. *)
Definition react (r : refs) (e : event) : refs * list effect :=
  match e with
  | mounted => (mount r, [])
  | requested request resolve => sortData r request resolve
  | replied reply => onmessage r reply
  | failed message => onerror r message
  | unmounted => (cleanup r, [])
  end.

(** Everything the hook did over a history, in order. *)
Fixpoint trace_from (r : refs) (events : list event) : list effect :=
  match events with
  | [] => []
  | e :: rest => snd (react r e) ++ trace_from (fst (react r e)) rest
  end.

Definition trace (events : list event) : list effect := trace_from initial events.

Definition is_call (x : effect) : bool :=
  match x with
  | called _ _ => true
  | posted _ => false
  end.

Definition is_request (e : event) : bool :=
  match e with
  | requested _ _ => true
  | _ => false
  end.

(** The events that drop no pending request unanswered: all but the unmount
    and a reply of a type the hook does not know. *)
Definition keeps_requests (e : event) : bool :=
  match e with
  | unmounted => false
  | replied (other_reply _ _) => false
  | _ => true
  end.

(** The ids of the pending requests are pairwise distinct and none exceeds
    the counter. *)
Definition well_formed (r : refs) : Prop :=
  List.NoDup (map fst (pendingRequestsRef r))
  /\ Forall (fun entry => fst entry <= requestIdRef r) (pendingRequestsRef r).
End Hook.
Arguments refs : clear implicits.
Arguments effect : clear implicits.
Arguments event : clear implicits.

End useSortWorker.

(** ** Sort keys *)

(** What a record is ordered by: a number or a lower-cased text; no key when
    the sort field is missing. *)
Inductive sort_key : Type :=
| KNumber (n : Q)
| KText (s : string).

Definition key_of (field : string) (a : VulnerabilityData) : option sort_key :=
  if String.eqb field "riskFactorsCount" then Some (KNumber (riskFactorsCount a))
  else if String.eqb field "severity" then Some (KNumber (DataProcessor.rank a))
  else
    match get_field a field with
    | VNumber n => Some (KNumber n)
    | VString s => Some (KText (toLowerCase s))
    | _ => None
    end.

Definition sort_key_le (k1 k2 : sort_key) : Prop :=
  match k1, k2 with
  | KNumber x, KNumber y => (x <= y)%Q
  | KText s, KText t => String.leb s t = true
  | KNumber _, KText _ => True
  | KText _, KNumber _ => False
  end.

(** [key_le d k1 k2]: in direction [d] a record with key [k1] may stand
    before one with key [k2]. A missing key is last in both directions. *)
Definition key_le (d : direction) (k1 k2 : option sort_key) : Prop :=
  match k1, k2 with
  | _, None => True
  | None, Some _ => False
  | Some x, Some y =>
      match d with
      | asc => sort_key_le x y
      | desc => sort_key_le y x
      end
  end.

Definition may_precede (field : string) (d : direction) (a b : VulnerabilityData) : Prop :=
  key_le d (key_of field a) (key_of field b).

(** The two synthetic sort fields and the declared fields that hold a string
    or a number. *)
Definition sortable_fields : list string :=
  ["severity"; "riskFactorsCount"; "id"; "package"; "kaiStatus"; "cvss"; "cve";
   "description"; "version"; "timestamp"].

(** A value that is a text or missing; a value that is a number or
    missing. *)
Definition text_or_missing (v : value) : Prop :=
  match v with
  | VString _ | VUndefined | VNull => True
  | _ => False
  end.

Definition number_or_missing (v : value) : Prop :=
  match v with
  | VNumber _ | VUndefined | VNull => True
  | _ => False
  end.

(** The values of the field that are present are comparable: all of them
    are texts, or all of them are numbers. *)
Definition uniform (field : string) (data : list VulnerabilityData) : Prop :=
  Forall (fun a => text_or_missing (get_field a field)) data
  \/ Forall (fun a => number_or_missing (get_field a field)) data.

(** The comparator reads a number for the record: when the field is
    ['severity'], the severity is plain. *)
Definition ranked (field : string) (a : VulnerabilityData) : Prop :=
  field = "severity" -> DataProcessor.plain_severity a.

(** The record has a value to be sorted by. *)
Definition valued (field : string) (a : VulnerabilityData) : Prop :=
  key_of field a <> None.

(** The number of risk-factor labels of a record, none when the array is
    absent. *)
Definition label_count (a : VulnerabilityData) : nat :=
  match riskFactors a with
  | Some labels => length labels
  | None => 0
  end.

(** ** Notions for the statements about metrics, search and filters *)

(** Every risk-factor label of a dataset, record after record. *)
Definition all_labels (data : list VulnerabilityData) : list string :=
  concat (map (fun d => default [] (riskFactors d)) data).

(** The labels of the records of a parsed document: the elements of the
    arrays and the keys of the objects. *)
Definition labels_of (data : list DataProcessor.risk_factors) : list string :=
  concat (map (fun r => match r with
                        | DataProcessor.Labels factors => factors
                        | DataProcessor.Legacy keys => keys
                        | DataProcessor.Neither => []
                        end) data).

(** [t] occurs in [s]: some text before it, some text after it. *)
Definition occurs_in (t s : string) : Prop :=
  exists before after, s = (before ++ t ++ after)%string.

(** The term occurs, whatever the case, in one of the five searched fields
    of the record. *)
Definition mentions (term : string) (item : VulnerabilityData) : Prop :=
  exists text,
    (text = package item \/ text = severity item \/ text = kaiStatus item
     \/ cve item = Some text \/ description item = Some text)
    /\ occurs_in (toLowerCase term) (toLowerCase text).

(** What the four criteria ask of a record, in words. *)
Definition meets (filters : Filters.t) (item : VulnerabilityData) : Prop :=
  (forall term, Filters.searchTerm filters = Some term -> term <> "" ->
                mentions term item)
  /\ (forall levels, Filters.severities filters = Some levels -> levels <> [] ->
                     exists level, In level levels
                                   /\ same_ignoring_case (severity item) level)
  /\ (forall requested, Filters.riskFactors filters = Some requested ->
                        requested <> [] ->
                        exists labels label,
                          riskFactors item = Some labels
                          /\ In label labels /\ In label requested)
  /\ (forall excluded, Filters.excludeKaiStatus filters = Some excluded ->
                       ~ In (kaiStatus item) excluded).

(** ** Colours (utils/severityUtils.ts, utils/cvssUtils.ts) *)

Module SeverityUtils.

(** [getSeverityColorName]: the switch on [severity.toLowerCase()]. *)
Definition getSeverityColorName (severity : string) : string :=
  let level := toLowerCase severity in
  if String.eqb level "critical" then "error"
  else if String.eqb level "high" then "warning"
  else if String.eqb level "medium" then "info"
  else if String.eqb level "low" then "success"
  else "default".

(** [getSeverityColorHex] *)
Definition getSeverityColorHex (severity : string) : string :=
  let level := toLowerCase severity in
  if String.eqb level "critical" then "#d32f2f"
  else if String.eqb level "high" then "#f57c00"
  else if String.eqb level "medium" then "#0288d1"
  else if String.eqb level "low" then "#388e3c"
  else "#757575".

End SeverityUtils.

Module CvssUtils.

(** [getCvssColor]; [cvss >= bound] is [Qle_bool bound cvss]. *)
Definition getCvssColor (cvss : option Q) : string :=
  match cvss with
  | None => "#666"
  | Some cvss =>
      if Qle_bool 9 cvss then "#d32f2f"
      else if Qle_bool 7 cvss then "#f57c00"
      else if Qle_bool 4 cvss then "#fbc02d"
      else "#388e3c"
  end.

(** [getCvssSeverityLevel]; [cvss > 0] is the negation of [cvss <= 0]. *)
Definition getCvssSeverityLevel (cvss : option Q) : string :=
  match cvss with
  | None => "Unknown"
  | Some cvss =>
      if Qle_bool 9 cvss then "Critical"
      else if Qle_bool 7 cvss then "High"
      else if Qle_bool 4 cvss then "Medium"
      else if negb (Qle_bool cvss 0) then "Low"
      else "None"
  end.

End CvssUtils.

(** What the last step of the loader does to the severity of a record:
    [item.severity ? titleCase(item.severity) : item.severity], the other
    properties as they are. *)
Definition with_normalized_severity (a : VulnerabilityData) : VulnerabilityData :=
  mkVulnerability (id a) (package a)
    (if truthy_string (severity a) then DataLoader.titleCase (severity a) else severity a)
    (cvss a) (cve a) (description a) (version a) (kaiStatus a) (riskFactors a)
    (timestamp a) (extra a).

(** ** Charts (components/Visualizations/SeverityDistribution.tsx and the
    AI against manual analysis chart) *)

Module SeverityDistribution.

Record slice : Type := mkSlice {
  name : string;
  value : option counter;
  color : string
}.

(** [item.value > 0]; neither a missing value nor [NaN] nor a text, whose
    number is [NaN], is above zero. *)
Definition shown (item : slice) : bool :=
  match value item with
  | Some (Count n) => 0 <? n
  | _ => false
  end.

(** [chartData] *)
Definition chartData (metrics : option VulnerabilityMetrics) : list slice :=
  match metrics with
  | None => []
  | Some metrics =>
      let severityDistribution := severityDistribution metrics in
      List.filter shown
        [mkSlice "Critical" (severityDistribution !! "critical") "#f44336";
         mkSlice "High" (severityDistribution !! "high") "#ff9800";
         mkSlice "Medium" (severityDistribution !! "medium") "#ffeb3b";
         mkSlice "Low" (severityDistribution !! "low") "#4caf50"]
  end.

End SeverityDistribution.

Module AIManualComparisonChart.

Record AnalysisStats : Type := mkStats {
  aiTotal : nat;
  manualTotal : nat;
  aiNoRisk : nat;
  manualNoRisk : nat;
  aiSeverityBreakdown : gmap string counter;
  manualSeverityBreakdown : gmap string counter
}.

(** [item.kaiStatus?.toLowerCase().startsWith('ai-')] *)
Definition isAI (item : VulnerabilityData) : bool :=
  String.prefix "ai-" (toLowerCase (kaiStatus item)).

(** The status mentions ['norisk'] or ['invalid']. *)
Definition noRisk (item : VulnerabilityData) : bool :=
  includes (toLowerCase (kaiStatus item)) "norisk"
  || includes (toLowerCase (kaiStatus item)) "invalid".

(** [breakdown[severity] = (breakdown[severity] || 0) + 1] *)
Definition count_up (breakdown : gmap string counter) (severity : string)
  : gmap string counter :=
  add_one breakdown severity.

(** [{ Critical: 0, High: 0, Medium: 0, Low: 0 }] *)
Definition empty_breakdown : gmap string counter :=
  <["Critical" := Count 0]>
    (<["High" := Count 0]> (<["Medium" := Count 0]> (<["Low" := Count 0]> ∅))).

Definition initial : AnalysisStats := mkStats 0 0 0 0 empty_breakdown empty_breakdown.

(** The body of the [forEach]. *)
Definition step (stats : AnalysisStats) (item : VulnerabilityData) : AnalysisStats :=
  if isAI item then
    mkStats (S (aiTotal stats)) (manualTotal stats)
      (if noRisk item then S (aiNoRisk stats) else aiNoRisk stats)
      (manualNoRisk stats)
      (count_up (aiSeverityBreakdown stats) (severity item))
      (manualSeverityBreakdown stats)
  else
    mkStats (aiTotal stats) (S (manualTotal stats))
      (aiNoRisk stats)
      (if noRisk item then S (manualNoRisk stats) else manualNoRisk stats)
      (aiSeverityBreakdown stats)
      (count_up (manualSeverityBreakdown stats) (severity item)).

(** [analysisStats] *)
Definition analysisStats (data : list VulnerabilityData) : AnalysisStats :=
  fold_left step data initial.

(** [severityComparisonData]: one row per level, with the AI and the manual
    count, [breakdown[severity] || 0]; no count where the breakdown holds a
    text. *)
Definition severityComparisonData (stats : AnalysisStats)
  : list (string * option nat * option nat) :=
  map (fun severity =>
         (severity,
          count_or_zero (aiSeverityBreakdown stats) severity,
          count_or_zero (manualSeverityBreakdown stats) severity))
    ["Critical"; "High"; "Medium"; "Low"].

End AIManualComparisonChart.

(** * Properties *)

(** ** Lists and filters *)

Lemma filter_length_le {A : Type} (p : A -> bool) (l : list A) :
  length (List.filter p l) <= length l.
Proof.
  induction l as [|x l IH]; simpl; [lia|].
  destruct (p x); simpl; lia.
Qed.

Lemma filter_length_mono {A : Type} (p q : A -> bool) (l : list A) :
  (forall x, p x = true -> q x = true) ->
  length (List.filter p l) <= length (List.filter q l).
Proof.
  intros Hpq. induction l as [|x l IH]; simpl; [lia|].
  destruct (p x) eqn:Hp.
  - rewrite (Hpq x Hp). simpl. lia.
  - destruct (q x); simpl; lia.
Qed.

Lemma filter_filter {A : Type} (p q : A -> bool) (l : list A) :
  List.filter p (List.filter q l) = List.filter (fun x => q x && p x) l.
Proof.
  induction l as [|x l IH]; simpl; [reflexivity|].
  destruct (q x); simpl; [destruct (p x)|]; rewrite IH; reflexivity.
Qed.

Lemma filter_true {A : Type} (l : list A) :
  List.filter (fun _ => true) l = l.
Proof. induction l as [|x l IH]; simpl; congruence. Qed.

Lemma filter_count_occ (key : string) (l : list VulnerabilityData)
    (f : VulnerabilityData -> string) :
  length (List.filter (fun d => String.eqb (f d) key) l)
  = count_occ string_dec (map f l) key.
Proof.
  induction l as [|x l IH]; simpl; [reflexivity|].
  destruct (String.eqb_spec (f x) key) as [Heq|Hne];
    destruct (string_dec (f x) key); try congruence; simpl; lia.
Qed.

(** ** The metrics aggregator *)

Section Metrics.
Import DataProcessor.

(** Splitting a list three ways by two distinct keys. *)
Lemma three_way_split (l : list VulnerabilityData) :
  length (List.filter (fun d => String.eqb (kaiStatus d) "invalid - norisk") l)
  + length (List.filter (fun d => String.eqb (kaiStatus d) "ai-invalid-norisk") l)
  + length (List.filter
              (fun d => negb (array_includes
                                ["invalid - norisk"; "ai-invalid-norisk"]
                                (kaiStatus d))) l)
  = length l.
Proof.
  induction l as [|x l IH]; simpl; [reflexivity|].
  unfold array_includes; simpl.
  destruct (String.eqb_spec (kaiStatus x) "invalid - norisk") as [H1|H1];
    destruct (String.eqb_spec (kaiStatus x) "ai-invalid-norisk") as [H2|H2];
    simpl in *; try lia.
  rewrite H1 in H2. discriminate.
Qed.

Lemma other_bucket (l : list VulnerabilityData) :
  List.filter
    (fun d => negb (array_includes ["invalid - norisk"; "ai-invalid-norisk"]
                      (kaiStatus d))) l
  = filter (fun d => kaiStatus d <> "invalid - norisk"
                     /\ kaiStatus d <> "ai-invalid-norisk") l.
Proof.
  induction l as [|x l IH]; [reflexivity|].
  simpl. rewrite filter_cons. rewrite <- IH. unfold array_includes. simpl.
  destruct (String.eqb_spec (kaiStatus x) "invalid - norisk") as [H1|H1];
    destruct (String.eqb_spec (kaiStatus x) "ai-invalid-norisk") as [H2|H2];
    simpl; case_decide; try reflexivity; tauto.
Qed.
End Metrics.

(** C1. For every dataset the three KAI buckets of [processVulnerabilityData]
    add up to [total], the number of records: the two named buckets count the
    records whose [kaiStatus] is exactly ['invalid - norisk'], respectively
    ['ai-invalid-norisk'], and [other] counts all the remaining records. *)
Theorem kaiStatusBreakdown_partition (data : list VulnerabilityData) :
  let m := DataProcessor.processVulnerabilityData data in
  let k := kaiStatusBreakdown m in
  invalid_norisk k + ai_invalid_norisk k + other k = total m
  /\ total m = length data
  /\ invalid_norisk k = count_occ string_dec (map kaiStatus data) "invalid - norisk"
  /\ ai_invalid_norisk k = count_occ string_dec (map kaiStatus data) "ai-invalid-norisk"
  /\ other k = length (filter (fun d => kaiStatus d <> "invalid - norisk"
                                        /\ kaiStatus d <> "ai-invalid-norisk") data).
Proof.
  cbn zeta. unfold DataProcessor.processVulnerabilityData.
  cbn [kaiStatusBreakdown total invalid_norisk ai_invalid_norisk other].
  split; [apply three_way_split|].
  split; [reflexivity|].
  split; [apply filter_count_occ|].
  split; [apply filter_count_occ|].
  rewrite other_bucket. reflexivity.
Qed.

(** ** Lower-cased texts *)

Section LowerCase.

Lemma lower_char_not_upper (c : ascii) : is_upper (lower_char c) = false.
Proof. destruct c as [[] [] [] [] [] [] [] []]; reflexivity. Qed.

Lemma toLowerCase_no_upper (s : string) :
  forallb (fun c => negb (is_upper c)) (list_ascii_of_string (toLowerCase s)) = true.
Proof.
  induction s as [|c s IH]; [reflexivity|].
  cbn [toLowerCase list_ascii_of_string forallb].
  rewrite lower_char_not_upper, IH. reflexivity.
Qed.

(** Of the names every object inherits, a lower-cased text can only spell
    the two without a capital. *)
Lemma lowered_inherited (s : string) :
  inherited (toLowerCase s) = true ->
  toLowerCase s = "constructor" \/ toLowerCase s = "__proto__".
Proof.
  pose proof (toLowerCase_no_upper s) as Hlow. revert Hlow.
  generalize (toLowerCase s). intros k Hlow.
  unfold inherited, Object_prototype_keys. cbn [existsb].
  rewrite !orb_true_iff, !String.eqb_eq.
  intros [H|[H|[H|[H|[H|[H|[H|[H|[H|[H|[H|[H|H]]]]]]]]]]]]; try discriminate H;
    subst k; try discriminate Hlow; auto.
Qed.
End LowerCase.

Section SeverityDistribution.
Import DataProcessor.

Lemma count_severity_cons level d data :
  count_severity level (d :: data)
  = (if decide (same_ignoring_case (severity d) level) then 1 else 0)
    + count_severity level data.
Proof.
  unfold count_severity. rewrite filter_cons.
  case_decide; reflexivity.
Qed.

Lemma distribution_lookup b c h m l :
  distribution b c h m l !! "critical" = Some (Count c)
  /\ distribution b c h m l !! "high" = Some (Count h)
  /\ distribution b c h m l !! "medium" = Some (Count m)
  /\ distribution b c h m l !! "low" = Some (Count l).
Proof. destruct b; repeat split. Qed.


(** One step of the [reduce] on a lower-cased severity [sev]: the bucket it
    spells, if any, goes up by one; [constructor], which the accumulator
    inherits, becomes a property with the value [NaN]; [__proto__] and every
    other text change nothing. *)
Lemma count_level_step b c h m l (sev : string) :
  (inherited sev = true -> sev = "constructor" \/ sev = "__proto__") ->
  count_level (distribution b c h m l) sev
  = distribution (b || String.eqb sev "constructor")
      ((if decide (sev = "critical") then 1 else 0) + c)
      ((if decide (sev = "high") then 1 else 0) + h)
      ((if decide (sev = "medium") then 1 else 0) + m)
      ((if decide (sev = "low") then 1 else 0) + l).
Proof.
  intros Hinh.
  destruct (decide (sev = "critical")) as [->|HC]; [destruct b; reflexivity|].
  destruct (decide (sev = "high")) as [->|HH]; [destruct b; reflexivity|].
  destruct (decide (sev = "medium")) as [->|HM]; [destruct b; reflexivity|].
  destruct (decide (sev = "low")) as [->|HL]; [destruct b; reflexivity|].
  destruct (String.eqb_spec sev "constructor") as [->|HK].
  { destruct b; cbn [orb]; [|reflexivity].
    unfold count_level, has_property, increment, distribution.
    rewrite lookup_insert_eq. apply insert_insert_eq. }
  rewrite orb_false_r. cbn [plus].
  assert (Hnone : distribution b c h m l !! sev = None).
  { unfold distribution, buckets. destruct b;
      rewrite ?lookup_insert_ne by congruence; apply lookup_empty. }
  unfold count_level, has_property, increment. rewrite Hnone.
  destruct (inherited sev) eqn:Hi; [|reflexivity].
  destruct (Hinh eq_refl) as [->| ->]; [congruence|reflexivity].
Qed.

Lemma lowered_level (s level : string) :
  (if decide (toLowerCase s = toLowerCase level) then 1 else 0)
  = if decide (same_ignoring_case s level) then 1 else 0.
Proof. unfold same_ignoring_case. reflexivity. Qed.

Lemma groupBySeverity_fold data : forall b c h m l,
  fold_left (fun acc item => count_level acc (toLowerCase (severity item)))
    data (distribution b c h m l)
  = distribution (b || spells_constructor data)
      (count_severity "Critical" data + c) (count_severity "High" data + h)
      (count_severity "Medium" data + m) (count_severity "Low" data + l).
Proof.
  induction data as [|d data IH]; intros b c h m l.
  - cbn. rewrite orb_false_r. reflexivity.
  - cbn [fold_left]. rewrite count_level_step by apply lowered_inherited.
    rewrite IH, !count_severity_cons. cbn [spells_constructor existsb].
    rewrite orb_assoc.
    change (decide (toLowerCase (severity d) = "critical"))
      with (decide (same_ignoring_case (severity d) "Critical")).
    change (decide (toLowerCase (severity d) = "high"))
      with (decide (same_ignoring_case (severity d) "High")).
    change (decide (toLowerCase (severity d) = "medium"))
      with (decide (same_ignoring_case (severity d) "Medium")).
    change (decide (toLowerCase (severity d) = "low"))
      with (decide (same_ignoring_case (severity d) "Low")).
    f_equal; first [reflexivity|repeat destruct (decide _); lia].
Qed.

Lemma groupBySeverity_counts data :
  groupBySeverity data
  = distribution (spells_constructor data)
      (count_severity "Critical" data) (count_severity "High" data)
      (count_severity "Medium" data) (count_severity "Low" data).
Proof.
  unfold groupBySeverity, severity_buckets.
  change (buckets 0 0 0 0) with (distribution false 0 0 0 0).
  rewrite groupBySeverity_fold. cbn [orb]. f_equal; lia.
Qed.

Lemma recognized_iff d :
  recognized_severity d <->
  same_ignoring_case (severity d) "Critical" \/ same_ignoring_case (severity d) "High"
  \/ same_ignoring_case (severity d) "Medium" \/ same_ignoring_case (severity d) "Low".
Proof.
  unfold recognized_severity, SEVERITIES. split.
  - intros (level & Hin & Heq). simpl in Hin.
    destruct Hin as [<-|[<-|[<-|[<-|[]]]]]; tauto.
  - intros [H|[H|[H|H]]]; eexists; (split; [|exact H]); simpl; tauto.
Qed.



End SeverityDistribution.



(** ** The filter engine *)

Section FilterEngine.
Import DataProcessor.

(** The four stages together keep the records that meet every criterion,
    in their original order. *)
Lemma filterVulnerabilities_spec data filters :
  filterVulnerabilities data filters
  = List.filter
      (fun item => search_criterion filters item && severity_criterion filters item
                   && riskFactor_criterion filters item
                   && kaiStatus_criterion filters item)
      data.
Proof.
  unfold filterVulnerabilities, search_criterion, severity_criterion,
    riskFactor_criterion, kaiStatus_criterion, searchVulnerabilities.
  cbn zeta.
  set (s1 := match Filters.searchTerm filters with
             | Some term =>
                 if truthy_string term
                 then if negb (truthy_string term) then data
                      else List.filter (search_match (toLowerCase term)) data
                 else data
             | None => data
             end).
  assert (H1 : s1 = List.filter
                      (fun item => match Filters.searchTerm filters with
                                   | Some term =>
                                       if truthy_string term
                                       then search_match (toLowerCase term) item
                                       else true
                                   | None => true
                                   end) data).
  { subst s1. destruct (Filters.searchTerm filters) as [term|];
      [destruct (truthy_string term)|]; simpl; rewrite ?filter_true; reflexivity. }
  rewrite H1. clear H1 s1.
  destruct (nonempty_array (Filters.severities filters)) as [sevs|];
    destruct (nonempty_array (Filters.riskFactors filters)) as [rfs|];
    destruct (nonempty_array (Filters.excludeKaiStatus filters)) as [ex|];
    rewrite ?filter_filter; apply filter_ext; intros item;
    rewrite ?andb_true_r, ?andb_assoc; reflexivity.
Qed.

Lemma nonempty_array_cons x l : nonempty_array (Some (x :: l)) = Some (x :: l).
Proof. reflexivity. Qed.

(** A record that meets the criteria with one more criterion met them
    without it. *)
Lemma adds_criterion_implies f f' item :
  adds_criterion f f' ->
  search_criterion f' item && severity_criterion f' item
    && riskFactor_criterion f' item && kaiStatus_criterion f' item = true ->
  search_criterion f item && severity_criterion f item
    && riskFactor_criterion f item && kaiStatus_criterion f item = true.
Proof.
  intros Hadd. rewrite !andb_true_iff.
  destruct Hadd as [f term Hoff Hon | f x l Hoff | f x l Hoff | f x l Hoff];
    unfold search_criterion, severity_criterion, riskFactor_criterion,
      kaiStatus_criterion, active_term, active_set in *; cbn in *.
  - destruct (Filters.searchTerm f) as [t|]; [rewrite Hoff|]; tauto.
  - destruct (nonempty_array (Filters.severities f)); [discriminate|]. tauto.
  - destruct (nonempty_array (Filters.riskFactors f)); [discriminate|]. tauto.
  - destruct (nonempty_array (Filters.excludeKaiStatus f)); [discriminate|]. tauto.
Qed.

Lemma riskFactor_match_iff requested item :
  riskFactor_match (list_to_set requested) item = true
  <-> has_label item /\ has_requested_label requested item.
Proof.
  unfold riskFactor_match, has_label, has_requested_label.
  destruct (riskFactors item) as [[|x labels]|].
  - split; [discriminate|]. intros [(? & [= <-] & Hne) _]. congruence.
  - rewrite existsb_exists. split.
    + intros (label & Hin & Hset).
      apply bool_decide_eq_true in Hset.
      apply elem_of_list_to_set, list_elem_of_In in Hset.
      split; [eexists; split; [reflexivity|discriminate]|].
      exists (x :: labels), label. auto.
    + intros [_ (labels' & label & [= <-] & Hin & Hreq)].
      exists label. split; [exact Hin|].
      apply bool_decide_eq_true, elem_of_list_to_set, list_elem_of_In. exact Hreq.
  - split; [discriminate|]. intros [(? & [=] & _) _].
Qed.
End FilterEngine.

(** C5. For every record sequence and every criteria object the output of
    [filterVulnerabilities] is no longer than the input, and setting one more
    criterion, one that was absent or empty, to a non-empty value never makes
    the output longer. *)
Theorem filter_monotone (data : list VulnerabilityData) (f : Filters.t) :
  length (DataProcessor.filterVulnerabilities data f) <= length data
  /\ forall f', DataProcessor.adds_criterion f f' ->
       length (DataProcessor.filterVulnerabilities data f')
       <= length (DataProcessor.filterVulnerabilities data f).
Proof.
  split.
  - rewrite filterVulnerabilities_spec. apply filter_length_le.
  - intros f' Hadd. rewrite !filterVulnerabilities_spec.
    apply filter_length_mono. intros item. apply adds_criterion_implies. exact Hadd.
Qed.

Lemma filter_monotone_witness :
  DataProcessor.adds_criterion DataProcessor.no_criterion DataProcessor.severe_only
  /\ length (DataProcessor.filterVulnerabilities
               DataProcessor.unscored_first DataProcessor.severe_only)
     <= length (DataProcessor.filterVulnerabilities
                  DataProcessor.unscored_first DataProcessor.no_criterion).
Proof.
  assert (H : DataProcessor.adds_criterion
                DataProcessor.no_criterion DataProcessor.severe_only).
  { apply (DataProcessor.adds_severities DataProcessor.no_criterion "Critical" ["High"]).
    reflexivity. }
  split; [exact H|].
  apply (proj2 (filter_monotone DataProcessor.unscored_first DataProcessor.no_criterion)).
  exact H.
Defined.

(** C6, as stated, fails: a record whose only label is the empty string
    passes a request for the empty label, yet it has no non-empty label, so
    passing is not equivalent to having a non-empty label and a requested
    one. *)
Lemma riskFactor_nonempty_label_counterexample :
  DataProcessor.nonempty_array (Filters.riskFactors DataProcessor.empty_label_request)
  = Some [""]
  /\ DataProcessor.filterVulnerabilities
       [DataProcessor.empty_label_record] DataProcessor.empty_label_request
     = [DataProcessor.empty_label_record]
  /\ ~ DataProcessor.has_nonempty_label DataProcessor.empty_label_record
  /\ ~ (In DataProcessor.empty_label_record
          (DataProcessor.filterVulnerabilities
             [DataProcessor.empty_label_record] DataProcessor.empty_label_request)
        <-> DataProcessor.has_nonempty_label DataProcessor.empty_label_record
            /\ DataProcessor.has_requested_label [""] DataProcessor.empty_label_record).
Proof.
  assert (Hno : ~ DataProcessor.has_nonempty_label DataProcessor.empty_label_record).
  { intros (labels & label & [= <-] & [<-|[]] & Hne). congruence. }
  split; [reflexivity|]. split; [reflexivity|]. split; [exact Hno|].
  intros [Hpass _]. apply Hno, Hpass. left. reflexivity.
Qed.

(** C6, amended. When the requested set is not empty, a record passes the
    risk-factor criterion, whatever the other criteria, if and only if its
    [riskFactors] is a non-empty array and at least one of its labels, the
    empty string included, is in the requested set under exact string match;
    a record whose [riskFactors] is absent or empty never passes; and an
    empty requested set leaves the result as it is without the criterion. *)
Theorem riskFactor_membership (data : list VulnerabilityData) (f : Filters.t)
    (requested : list string) (item : VulnerabilityData) :
  requested <> [] ->
  (In item (DataProcessor.filterVulnerabilities data
              (DataProcessor.with_riskFactors f (Some requested)))
   <-> In item (DataProcessor.filterVulnerabilities data
                  (DataProcessor.with_riskFactors f None))
       /\ DataProcessor.has_label item
       /\ DataProcessor.has_requested_label requested item)
  /\ (riskFactors item = None \/ riskFactors item = Some [] ->
      ~ In item (DataProcessor.filterVulnerabilities data
                   (DataProcessor.with_riskFactors f (Some requested))))
  /\ DataProcessor.filterVulnerabilities data (DataProcessor.with_riskFactors f (Some []))
     = DataProcessor.filterVulnerabilities data (DataProcessor.with_riskFactors f None).
Proof.
  intros Hne.
  assert (Hiff :
    In item (DataProcessor.filterVulnerabilities data
               (DataProcessor.with_riskFactors f (Some requested)))
    <-> In item (DataProcessor.filterVulnerabilities data
                   (DataProcessor.with_riskFactors f None))
        /\ DataProcessor.has_label item
        /\ DataProcessor.has_requested_label requested item).
  { rewrite !filterVulnerabilities_spec, !filter_In, !andb_true_iff.
    rewrite <- riskFactor_match_iff.
    unfold DataProcessor.search_criterion, DataProcessor.severity_criterion,
      DataProcessor.riskFactor_criterion, DataProcessor.kaiStatus_criterion,
      DataProcessor.with_riskFactors.
    cbn [Filters.searchTerm Filters.severities Filters.riskFactors
           Filters.excludeKaiStatus].
    destruct requested as [|x l]; [congruence|].
    rewrite nonempty_array_cons. cbn [DataProcessor.nonempty_array]. tauto. }
  split; [exact Hiff|]. split; [|reflexivity].
  intros Hnone Hin. apply Hiff in Hin as (_ & (labels & Hsome & Hlabels) & _).
  destruct Hnone as [Hnone|Hnone]; congruence.
Qed.

Lemma riskFactor_membership_witness :
  [""] <> []
  /\ (In DataProcessor.empty_label_record
        (DataProcessor.filterVulnerabilities [DataProcessor.empty_label_record]
           (DataProcessor.with_riskFactors DataProcessor.empty_label_request (Some [""])))
      <-> In DataProcessor.empty_label_record
            (DataProcessor.filterVulnerabilities [DataProcessor.empty_label_record]
               (DataProcessor.with_riskFactors DataProcessor.empty_label_request None))
          /\ DataProcessor.has_label DataProcessor.empty_label_record
          /\ DataProcessor.has_requested_label [""] DataProcessor.empty_label_record).
Proof.
  assert (H : [""] <> ([] : list string)) by discriminate.
  split; [exact H|].
  exact (proj1 (riskFactor_membership [DataProcessor.empty_label_record]
                  DataProcessor.empty_label_request [""]
                  DataProcessor.empty_label_record H)).
Defined.

(** ** The sort *)

Section ArraySortFacts.
Context {A : Type}.
Variable comparefn : A -> A -> Q.

Lemma is_negative_lt (v : Q) : is_negative v = true <-> (v < 0)%Q.
Proof.
  unfold is_negative. rewrite Qlt_alt.
  destruct (v ?= 0)%Q; split; congruence.
Qed.

Lemma sort_insert_perm (x : A) (l : list A) :
  Permutation (x :: l) (sort_insert comparefn x l).
Proof.
  induction l as [|y l IH]; simpl; [reflexivity|].
  destruct (is_negative (comparefn x y)); [reflexivity|].
  rewrite perm_swap. apply perm_skip, IH.
Qed.

Lemma sort_fold_perm (l : list A) : forall sorted,
  Permutation (sorted ++ l)
    (fold_left (fun sorted x => sort_insert comparefn x sorted) l sorted).
Proof.
  induction l as [|x l IH]; intros sorted; simpl.
  - rewrite app_nil_r. reflexivity.
  - rewrite <- IH. rewrite <- sort_insert_perm.
    rewrite <- Permutation_middle. reflexivity.
Qed.

Lemma array_sort_perm (l : list A) : Permutation l (array_sort comparefn l).
Proof. unfold array_sort. rewrite <- sort_fold_perm. reflexivity. Qed.

(** An invariant of the sorted prefix is an invariant of the result. *)
Lemma array_sort_invariant (I : list A -> Prop) :
  I [] ->
  (forall x sorted, I sorted -> I (sort_insert comparefn x sorted)) ->
  forall l, I (array_sort comparefn l).
Proof.
  intros Hnil Hstep l. unfold array_sort.
  generalize (@nil A) Hnil. induction l as [|x l IH]; intros sorted Hs; simpl.
  - exact Hs.
  - apply IH, Hstep, Hs.
Qed.

(** *** Lists with the [last] elements at the end *)

Section Last.
Variable last : A -> bool.

(** Positions: every [last] element stands after every ordinary one. *)
Lemma last_at_end_positions (l : list A) (i j : nat) (a b : A) :
  last_at_end last l ->
  l !! i = Some a -> l !! j = Some b ->
  last a = true -> last b = false -> j < i.
Proof.
  intros (front & back & -> & Hfront & Hback) Hi Hj Ha Hb.
  rewrite Forall_forall in Hfront, Hback.
  destruct (decide (i < length front)) as [Hlt|Hge].
  - rewrite lookup_app_l in Hi by exact Hlt.
    apply list_elem_of_lookup_2, Hfront in Hi. congruence.
  - destruct (decide (j < length front)) as [Hlt'|Hge']; [lia|].
    rewrite lookup_app_r in Hj by lia.
    apply list_elem_of_lookup_2, Hback in Hj. congruence.
Qed.
End Last.

(** *** Any order the comparator permits *)

Lemma is_negative_not_positive (v : Q) : is_negative v = true -> is_positive v = false.
Proof. unfold is_negative, is_positive. destruct (v ?= 0)%Q; congruence. Qed.

Lemma sort_insert_permitted (x : A) (l : list A) :
  permitted_order comparefn l -> permitted_order comparefn (sort_insert comparefn x l).
Proof.
  induction l as [|y rest IH]; intros Hl; [simpl; auto|].
  cbn [sort_insert]. destruct (is_negative (comparefn x y)) eqn:Hxy.
  - split; [|exact Hl]. left. apply is_negative_not_positive, Hxy.
  - destruct Hl as [Hy Hrest]. split; [|apply IH, Hrest].
    destruct rest as [|z rest]; [right; exact Hxy|].
    cbn [sort_insert]. destruct (is_negative (comparefn x z)); [right; exact Hxy|exact Hy].
Qed.

Lemma array_sort_permitted (l : list A) : permitted_order comparefn (array_sort comparefn l).
Proof.
  apply array_sort_invariant; [exact I|].
  intros x sorted. apply sort_insert_permitted.
Qed.

(** Where the comparator follows a transitive relation on the elements at
    hand, an order it permits is sorted by that relation. *)
Lemma permitted_sorted (le : A -> A -> Prop) (P : A -> Prop) :
  (forall x y z, le x y -> le y z -> le x z) ->
  (forall x y, P x -> P y -> permits comparefn x y -> le x y) ->
  forall l, Forall P l -> permitted_order comparefn l -> StronglySorted le l.
Proof.
  intros Htrans Hle l. induction l as [|x rest IH]; intros HP Hl; [constructor|].
  apply Forall_cons in HP as [Hx HP]. destruct Hl as [Hxy Hrest].
  specialize (IH HP Hrest). constructor; [exact IH|].
  destruct rest as [|y rest]; [constructor|].
  pose proof (Forall_inv HP) as Hy.
  pose proof (Hle x y Hx Hy Hxy) as Hxy'.
  constructor; [exact Hxy'|].
  apply StronglySorted_inv in IH as [_ Hall].
  eapply Forall_impl; [exact Hall|]. intros z Hz. eapply Htrans; eassumption.
Qed.

Section PermittedLast.
Variable last : A -> bool.
Hypothesis never_before :
  forall x y, last x = true -> last y = false -> ~ permits comparefn x y.

(** Whatever the algorithm, an order the comparator permits has the [last]
    elements at the end. *)
Lemma permitted_last_at_end (l : list A) :
  permitted_order comparefn l -> last_at_end last l.
Proof.
  induction l as [|x rest IH]; intros Hl.
  - exists [], []. repeat split; constructor.
  - destruct Hl as [Hx Hrest].
    destruct (IH Hrest) as (front & back & -> & Hfront & Hback).
    destruct (last x) eqn:Hlast.
    + destruct front as [|y front].
      * exists [], (x :: back). repeat split; constructor; assumption.
      * exfalso. apply Forall_cons in Hfront as [Hy _].
        exact (never_before x y Hlast Hy Hx).
    + exists (x :: front), back. repeat split; [constructor|]; assumption.
Qed.
End PermittedLast.

(** *** A comparator that follows a total preorder *)

Section Ordered.
Variable le : A -> A -> Prop.
Hypothesis le_total : forall x y, le x y \/ le y x.
Hypothesis le_trans : forall x y z, le x y -> le y z -> le x z.
Hypothesis comparefn_le :
  forall x y, is_negative (comparefn x y) = false <-> le y x.

Lemma sort_insert_sorted (x : A) (l : list A) :
  StronglySorted le l -> StronglySorted le (sort_insert comparefn x l).
Proof.
  intros Hl. induction Hl as [|y l Hl IH Hy]; simpl.
  - repeat constructor.
  - destruct (is_negative (comparefn x y)) eqn:Hneg.
    + assert (Hxy : le x y).
      { destruct (le_total x y) as [H|H]; [exact H|].
        apply comparefn_le in H. congruence. }
      constructor; [constructor; assumption|].
      constructor; [exact Hxy|].
      eapply Forall_impl; [exact Hy|]. intros z Hz. eapply le_trans; eassumption.
    + apply comparefn_le in Hneg.
      constructor; [exact IH|].
      eapply Permutation_Forall; [apply sort_insert_perm|].
      constructor; assumption.
Qed.

Lemma array_sort_sorted (l : list A) : StronglySorted le (array_sort comparefn l).
Proof.
  apply array_sort_invariant; [constructor|].
  intros x sorted. apply sort_insert_sorted.
Qed.
End Ordered.
End ArraySortFacts.

(** ** The sort engine *)

Section SortEngine.
Import DataProcessor.

Lemma Qcompare_difference (x y : Q) :
  (y - x ?= 0)%Q = CompOpp (x - y ?= 0)%Q.
Proof.
  destruct (Qcompare_spec (x - y) 0) as [H|H|H];
    destruct (Qcompare_spec (y - x) 0) as [H'|H'|H']; simpl;
    try reflexivity; exfalso; lra.
Qed.

Lemma is_negative_difference (x y : Q) :
  is_negative (x - y) = false <-> (y <= x)%Q.
Proof.
  destruct (is_negative (x - y)) eqn:Hneg.
  - apply is_negative_lt in Hneg. split; [discriminate|]. intros H. exfalso. lra.
  - split; [|reflexivity]. intros _.
    destruct (Qlt_le_dec (x - y) 0) as [H|H]; [|lra].
    apply is_negative_lt in H. congruence.
Qed.

Lemma is_positive_difference (x y : Q) :
  is_positive (x - y) = false <-> (x <= y)%Q.
Proof.
  unfold is_positive. destruct (Qcompare_spec (x - y) 0) as [H|H|H];
    split; intros; try reflexivity; try discriminate; lra.
Qed.

Variable field : string.
Hypothesis not_severity : field <> "severity".
Hypothesis not_riskFactorsCount : field <> "riskFactorsCount".

(** For an ordinary field the comparator reads the two values. *)
Lemma compare_records_ordinary (d : direction) (a b : VulnerabilityData) :
  compare_records field d a b
  = if is_nullish (get_field a field) then 1%Q
    else if is_nullish (get_field b field) then (-1)%Q
    else
      match get_field a field, get_field b field with
      | VString aS, VString bS =>
          if string_lt (toLowerCase aS) (toLowerCase bS)
          then match d with asc => (-1)%Q | desc => 1%Q end
          else if string_lt (toLowerCase bS) (toLowerCase aS)
               then match d with asc => 1%Q | desc => (-1)%Q end
               else 0%Q
      | VNumber x, VNumber y =>
          match d with asc => (x - y)%Q | desc => (y - x)%Q end
      | _, _ => 0%Q
      end.
Proof.
  unfold compare_records.
  destruct (String.eqb_spec field "riskFactorsCount") as [H|_]; [contradiction|].
  destruct (String.eqb_spec field "severity") as [H|_]; [contradiction|].
  reflexivity.
Qed.

Lemma compare_missing_left d a b :
  missing field a = true -> compare_records field d a b = 1%Q.
Proof.
  unfold missing. intros H. rewrite compare_records_ordinary, H. reflexivity.
Qed.

Lemma compare_missing_right d a b :
  missing field a = false -> missing field b = true ->
  compare_records field d a b = (-1)%Q.
Proof.
  unfold missing. intros Ha Hb. rewrite compare_records_ordinary, Ha, Hb. reflexivity.
Qed.

(** With both values present, the two directions give opposite signs. *)
Lemma compare_direction a b :
  missing field a = false -> missing field b = false ->
  (compare_records field desc a b ?= 0)%Q
  = CompOpp (compare_records field asc a b ?= 0)%Q.
Proof.
  unfold missing. intros Ha Hb. rewrite !compare_records_ordinary, Ha, Hb.
  destruct (get_field a field) as [| |ba|x|aS|la|ra];
    destruct (get_field b field) as [| |bb|y|bS|lb|rb]; try reflexivity.
  - apply Qcompare_difference.
  - destruct (string_lt (toLowerCase aS) (toLowerCase bS)); [reflexivity|].
    destruct (string_lt (toLowerCase bS) (toLowerCase aS)); reflexivity.
Qed.

(** The placement of the missing values does not depend on the sorting
    algorithm: it holds of every order the comparator permits. *)
Lemma permitted_missing_last d (out : list VulnerabilityData) :
  permitted_order (compare_records field d) out -> last_at_end (missing field) out.
Proof.
  apply permitted_last_at_end. intros x y Hx Hy [H|H].
  - rewrite (compare_missing_left d x y Hx) in H. discriminate.
  - rewrite (compare_missing_right d y x Hy Hx) in H. discriminate.
Qed.

Lemma sort_missing_last d data :
  last_at_end (missing field) (sortVulnerabilities data field d).
Proof. apply (permitted_missing_last d), array_sort_permitted. Qed.
End SortEngine.

(** ** The order of strings *)

Lemma ascii_compare_N (a b : ascii) :
  Ascii.compare a b = (N_of_ascii a ?= N_of_ascii b)%N.
Proof. reflexivity. Qed.

Lemma ascii_compare_eq (a b : ascii) : Ascii.compare a b = Eq -> a = b.
Proof.
  rewrite ascii_compare_N. intros H. apply N.compare_eq in H.
  rewrite <- (ascii_N_embedding a), <- (ascii_N_embedding b), H. reflexivity.
Qed.

Lemma string_leb_trans (s1 : string) : forall s2 s3,
  String.leb s1 s2 = true -> String.leb s2 s3 = true -> String.leb s1 s3 = true.
Proof.
  unfold String.leb.
  induction s1 as [|a s1 IH]; intros [|b s2] [|c s3]; simpl; try congruence.
  intros H12 H23.
  destruct (Ascii.compare a b) eqn:Hab; try discriminate;
    destruct (Ascii.compare b c) eqn:Hbc; try discriminate.
  - apply ascii_compare_eq in Hab, Hbc. subst.
    assert (Hcc : Ascii.compare c c = Eq) by (rewrite ascii_compare_N; apply N.compare_refl).
    rewrite Hcc. apply (IH s2 s3); assumption.
  - apply ascii_compare_eq in Hab. subst. rewrite Hbc. reflexivity.
  - apply ascii_compare_eq in Hbc. subst. rewrite Hab. reflexivity.
  - rewrite ascii_compare_N in Hab, Hbc. rewrite ascii_compare_N.
    apply N.compare_lt_iff in Hab. apply N.compare_lt_iff in Hbc.
    assert (Hac : (N_of_ascii a ?= N_of_ascii c)%N = Lt).
    { apply N.compare_lt_iff. eapply N.lt_trans; eassumption. }
    rewrite Hac. reflexivity.
Qed.

Lemma string_lt_leb (s t : string) : string_lt s t = false <-> String.leb t s = true.
Proof.
  unfold string_lt, String.ltb, String.leb.
  rewrite (String.compare_antisym t s).
  destruct (String.compare s t); simpl; split; congruence.
Qed.

Lemma string_lt_leb_true (s t : string) : string_lt s t = true -> String.leb s t = true.
Proof.
  unfold string_lt, String.ltb, String.leb. destruct (String.compare s t); congruence.
Qed.

(** ** The order of the sort keys *)

Section SortKeys.
Import DataProcessor.

Lemma sort_key_le_total (k1 k2 : sort_key) : sort_key_le k1 k2 \/ sort_key_le k2 k1.
Proof.
  destruct k1 as [x|s], k2 as [y|t]; simpl; auto.
  - destruct (Qlt_le_dec y x); [right|left]; lra.
  - apply String.leb_total.
Qed.

Lemma sort_key_le_trans (k1 k2 k3 : sort_key) :
  sort_key_le k1 k2 -> sort_key_le k2 k3 -> sort_key_le k1 k3.
Proof.
  destruct k1 as [x|s], k2 as [y|t], k3 as [z|u]; simpl; try tauto.
  - apply Qle_trans.
  - apply string_leb_trans.
Qed.

Lemma key_le_total (d : direction) (k1 k2 : option sort_key) :
  key_le d k1 k2 \/ key_le d k2 k1.
Proof.
  destruct k1 as [x|], k2 as [y|]; simpl; auto.
  destruct d; [apply sort_key_le_total|].
  destruct (sort_key_le_total x y); auto.
Qed.

Lemma key_le_trans (d : direction) (k1 k2 k3 : option sort_key) :
  key_le d k1 k2 -> key_le d k2 k3 -> key_le d k1 k3.
Proof.
  destruct k1 as [x|], k2 as [y|], k3 as [z|]; simpl; try tauto.
  destruct d; [apply sort_key_le_trans|].
  intros H1 H2. eapply sort_key_le_trans; eassumption.
Qed.

Lemma may_precede_total field d a b : may_precede field d a b \/ may_precede field d b a.
Proof. apply key_le_total. Qed.

Lemma may_precede_trans field d a b c :
  may_precede field d a b -> may_precede field d b c -> may_precede field d a c.
Proof. apply key_le_trans. Qed.

Variable field : string.
Hypothesis not_severity : field <> "severity".
Hypothesis not_riskFactorsCount : field <> "riskFactorsCount".

Lemma key_of_ordinary (a : VulnerabilityData) :
  key_of field a
  = match get_field a field with
    | VNumber n => Some (KNumber n)
    | VString s => Some (KText (toLowerCase s))
    | _ => None
    end.
Proof.
  unfold key_of.
  destruct (String.eqb_spec field "riskFactorsCount") as [|_]; [contradiction|].
  destruct (String.eqb_spec field "severity") as [|_]; [contradiction|].
  reflexivity.
Qed.

(** Two values of one kind, text or number, either of which may be
    missing: the comparator is negative exactly when the first record has
    to come first. *)
Lemma ordinary_compare_spec (d : direction) (x y : VulnerabilityData) :
  (text_or_missing (get_field x field) /\ text_or_missing (get_field y field))
  \/ (number_or_missing (get_field x field) /\ number_or_missing (get_field y field)) ->
  is_negative (compare_records field d x y) = false <-> may_precede field d y x.
Proof.
  unfold may_precede. rewrite !key_of_ordinary.
  rewrite (compare_records_ordinary field not_severity not_riskFactorsCount).
  intros [[Hu Hv]|[Hu Hv]];
    destruct (get_field x field) as [| |bu|p|s|lu|ru]; try contradiction;
    destruct (get_field y field) as [| |bv|q|t|lv|rv]; try contradiction;
    cbn [is_nullish key_le sort_key_le]; try (split; [tauto|reflexivity]);
    try (split; [discriminate|tauto]).
  - destruct (string_lt (toLowerCase s) (toLowerCase t)) eqn:Hst.
    + pose proof (string_lt_leb_true _ _ Hst) as Hle.
      destruct d.
      * change (is_negative (-1)) with true.
        split; [discriminate|]. intros Hts. apply string_lt_leb in Hts. congruence.
      * change (is_negative 1) with false. split; [intros _; exact Hle|reflexivity].
    + pose proof (proj1 (string_lt_leb _ _) Hst) as Hle.
      destruct (string_lt (toLowerCase t) (toLowerCase s)) eqn:Hts.
      * destruct d.
        -- change (is_negative 1) with false. split; [intros _; exact Hle|reflexivity].
        -- change (is_negative (-1)) with true.
           split; [discriminate|]. intros Hst'. apply string_lt_leb in Hst'. congruence.
      * pose proof (proj1 (string_lt_leb _ _) Hts) as Hle'.
        change (is_negative 0) with false.
        destruct d; (split; [intros _; assumption|reflexivity]).
  - destruct d; apply is_negative_difference.
Qed.

(** The comparator does not contradict itself on two values of one kind:
    when it does not ask for the second record first, it does not ask,
    called the other way round, for anything else. *)
Lemma ordinary_compare_antisym (d : direction) (x y : VulnerabilityData) :
  (text_or_missing (get_field x field) /\ text_or_missing (get_field y field))
  \/ (number_or_missing (get_field x field) /\ number_or_missing (get_field y field)) ->
  is_positive (compare_records field d x y) = false ->
  is_negative (compare_records field d y x) = false.
Proof.
  rewrite !(compare_records_ordinary field not_severity not_riskFactorsCount).
  intros [[Hu Hv]|[Hu Hv]];
    destruct (get_field x field) as [| |bu|p|s|lu|ru]; try contradiction;
    destruct (get_field y field) as [| |bv|q|t|lv|rv]; try contradiction;
    cbn [is_nullish]; try (intros _; reflexivity); try discriminate.
  - destruct (string_lt (toLowerCase s) (toLowerCase t)) eqn:Hst;
      destruct (string_lt (toLowerCase t) (toLowerCase s)) eqn:Hts;
      destruct d; try (intros _; reflexivity); try discriminate;
      pose proof (proj2 (string_lt_leb _ _) (string_lt_leb_true _ _ Hst)) as H;
      congruence.
  - destruct d; rewrite is_positive_difference, is_negative_difference; tauto.
Qed.

(** What the comparator permits of two records with values of one kind. *)
Lemma ordinary_permits (d : direction) (x y : VulnerabilityData) :
  (text_or_missing (get_field x field) /\ text_or_missing (get_field y field))
  \/ (number_or_missing (get_field x field) /\ number_or_missing (get_field y field)) ->
  permits (compare_records field d) x y -> may_precede field d x y.
Proof.
  intros Hkind [H|H].
  - apply ordinary_compare_spec; [tauto|].
    apply ordinary_compare_antisym; assumption.
  - apply ordinary_compare_spec; [tauto|exact H].
Qed.

(** With comparable values, every order the comparator permits is sorted. *)
Lemma permitted_uniform_sorted (d : direction) (out : list VulnerabilityData) :
  uniform field out ->
  permitted_order (compare_records field d) out ->
  StronglySorted (may_precede field d) out.
Proof.
  intros [Hkind|Hkind]; (eapply permitted_sorted; [| |exact Hkind]);
    try (intros x y z; apply may_precede_trans);
    intros x y Hx Hy; apply ordinary_permits; tauto.
Qed.
End SortKeys.

(** In a sorted list an element that may not stand after another stands
    before it. *)
Lemma sorted_positions {A : Type} (le : A -> A -> Prop) (l : list A) :
  (forall x, le x x) ->
  StronglySorted le l ->
  forall i j a b, l !! i = Some a -> l !! j = Some b -> ~ le b a -> i < j.
Proof.
  intros Hrefl Hl. induction Hl as [|x l Hl IH Hx]; intros i j a b Hi Hj Hba.
  - rewrite lookup_nil in Hi. discriminate.
  - destruct i as [|i], j as [|j]; cbn in Hi, Hj.
    + injection Hi as ->. injection Hj as ->. exfalso. apply Hba, Hrefl.
    + lia.
    + injection Hj as ->. apply list_elem_of_lookup_2 in Hi.
      rewrite Forall_forall in Hx. exfalso. apply Hba, Hx, Hi.
    + apply -> Nat.succ_lt_mono. eapply IH; eassumption.
Qed.

(** C3. For every record sequence, every sort field other than ['severity']
    and ['riskFactorsCount'], and both directions, the output of
    [sortVulnerabilities] holds the records of the input, and every record
    whose sort-field value is [null] or [undefined] stands after every record
    whose value is present. With both values present the two directions give
    the comparator opposite signs, and a record may stand before another in
    one direction exactly when it may stand after it in the other; with a
    value missing the direction is not consulted. Where the values present
    are comparable, all texts or all numbers, the output is in order: for
    ['asc'] a lower number, or a text whose lower-cased form comes first,
    stands before; for ['desc'] it stands after. *)
Theorem sort_nulls_last (data : list VulnerabilityData) (field : string) (d : direction) :
  field <> "severity" -> field <> "riskFactorsCount" ->
  let out := DataProcessor.sortVulnerabilities data field d in
  Permutation data out
  /\ (forall i j a b,
        out !! i = Some a -> out !! j = Some b ->
        DataProcessor.missing field a = true ->
        DataProcessor.missing field b = false ->
        j < i)
  /\ (forall a b,
        DataProcessor.missing field a = false ->
        DataProcessor.missing field b = false ->
        (DataProcessor.compare_records field desc a b ?= 0)%Q
        = CompOpp (DataProcessor.compare_records field asc a b ?= 0)%Q)
  /\ (forall a b,
        DataProcessor.missing field a = true \/ DataProcessor.missing field b = true ->
        DataProcessor.compare_records field desc a b
        = DataProcessor.compare_records field asc a b)
  /\ (forall a b,
        valued field a -> valued field b ->
        may_precede field asc a b <-> may_precede field desc b a)
  /\ (uniform field data ->
      StronglySorted (may_precede field d) out
      /\ forall i j a b,
           out !! i = Some a -> out !! j = Some b ->
           ~ may_precede field d b a -> i < j).
Proof.
  intros Hsev Hcount out. split; [apply array_sort_perm|].
  split.
  { intros i j a b Hi Hj Ha Hb.
    eapply last_at_end_positions; [|exact Hi|exact Hj|exact Ha|exact Hb].
    apply sort_missing_last; assumption. }
  split.
  { intros a b. apply compare_direction; assumption. }
  split.
  { intros a b Hmissing.
    destruct (DataProcessor.missing field a) eqn:Ha.
    - rewrite !compare_missing_left; auto.
    - destruct Hmissing as [H|Hb]; [discriminate|].
      rewrite !compare_missing_right; auto. }
  split.
  { intros a b Ha Hb. unfold valued, may_precede in *.
    destruct (key_of field a) as [ka|]; [|contradiction].
    destruct (key_of field b) as [kb|]; [|contradiction].
    reflexivity. }
  intros Huniform.
  assert (Hsorted : StronglySorted (may_precede field d) out).
  { apply permitted_uniform_sorted; try assumption; [|apply array_sort_permitted].
    destruct Huniform as [H|H]; [left|right];
      (eapply Permutation_Forall; [apply array_sort_perm|exact H]). }
  split; [exact Hsorted|].
  apply sorted_positions; [|exact Hsorted].
  intros x. destruct (may_precede_total field d x x); assumption.
Qed.

Lemma sort_nulls_last_witness :
  "cvss" <> "severity" /\ "cvss" <> "riskFactorsCount"
  /\ uniform "cvss" DataProcessor.unscored_first
  /\ map id (DataProcessor.sortVulnerabilities DataProcessor.unscored_first "cvss" desc)
     = ["b"; "c"; "a"]
  /\ StronglySorted (may_precede "cvss" desc)
       (DataProcessor.sortVulnerabilities DataProcessor.unscored_first "cvss" desc).
Proof.
  assert (H1 : "cvss" <> "severity") by discriminate.
  assert (H2 : "cvss" <> "riskFactorsCount") by discriminate.
  assert (H3 : uniform "cvss" DataProcessor.unscored_first)
    by (right; repeat constructor).
  split; [exact H1|]. split; [exact H2|]. split; [exact H3|]. split; [reflexivity|].
  exact (proj1 (proj2 (proj2 (proj2 (proj2 (proj2
           (sort_nulls_last DataProcessor.unscored_first "cvss" desc H1 H2))))) H3)).
Defined.

Section SeverityOrder.
Import DataProcessor.

Lemma severity_rank_level (s : string) :
  (same_ignoring_case s "Critical" -> severity_rank (Some s) = Some 4%Q)
  /\ (same_ignoring_case s "High" -> severity_rank (Some s) = Some 3%Q)
  /\ (same_ignoring_case s "Medium" -> severity_rank (Some s) = Some 2%Q)
  /\ (same_ignoring_case s "Low" -> severity_rank (Some s) = Some 1%Q).
Proof.
  unfold same_ignoring_case, severity_rank, optional_toLowerCase. cbn [option_map].
  repeat split; intros ->; reflexivity.
Qed.

Lemma or_empty_Some (s : string) : or_empty (Some s) = s.
Proof. destruct s; reflexivity. Qed.

Lemma SEVERITY_ORDER_unknown (s : string) :
  ~ (exists level, In level SEVERITIES /\ same_ignoring_case s level) ->
  SEVERITY_ORDER !! toLowerCase s = None.
Proof.
  intros Hunknown.
  assert (H : forall level, In level SEVERITIES -> toLowerCase level <> toLowerCase s).
  { intros level Hin Heq. apply Hunknown. exists level.
    split; [exact Hin|]. symmetry. exact Heq. }
  pose proof (H "Critical" ltac:(simpl; auto)) as HC.
  pose proof (H "High" ltac:(simpl; auto)) as HH.
  pose proof (H "Medium" ltac:(simpl; auto)) as HM.
  pose proof (H "Low" ltac:(simpl; auto)) as HL.
  change (toLowerCase "Critical") with "critical" in HC.
  change (toLowerCase "High") with "high" in HH.
  change (toLowerCase "Medium") with "medium" in HM.
  change (toLowerCase "Low") with "low" in HL.
  unfold SEVERITY_ORDER. rewrite !lookup_insert, lookup_empty.
  repeat case_decide; try reflexivity; contradiction.
Qed.

(** A text that is no level and no inherited name has rank 0. *)
Lemma severity_rank_unknown (s : string) :
  ~ (exists level, In level SEVERITIES /\ same_ignoring_case s level) ->
  inherited (toLowerCase s) = false ->
  severity_rank (Some s) = Some 0%Q.
Proof.
  intros Hunknown Hplain.
  unfold severity_rank, optional_toLowerCase. cbn [option_map]. cbn zeta.
  rewrite or_empty_Some, (SEVERITY_ORDER_unknown s Hunknown), Hplain. reflexivity.
Qed.

(** A text that spells an inherited name has no rank: the lookup finds a
    function or an object. *)
Lemma severity_rank_inherited (s : string) :
  inherited (toLowerCase s) = true -> severity_rank (Some s) = None.
Proof.
  intros Hinh. unfold severity_rank, optional_toLowerCase. cbn [option_map]. cbn zeta.
  rewrite or_empty_Some.
  destruct (lowered_inherited s Hinh) as [H|H]; rewrite H; reflexivity.
Qed.

Lemma severity_rank_plain (a : VulnerabilityData) :
  plain_severity a -> severity_rank (Some (severity a)) = Some (rank a).
Proof.
  unfold plain_severity, rank, severity_rank, optional_toLowerCase.
  cbn [option_map]. cbn zeta. rewrite or_empty_Some. intros Hplain.
  destruct (SEVERITY_ORDER !! toLowerCase (severity a)); [reflexivity|].
  rewrite Hplain. reflexivity.
Qed.

Lemma compare_severity (d : direction) (a b : VulnerabilityData) :
  plain_severity a -> plain_severity b ->
  compare_records "severity" d a b
  = match d with asc => (rank a - rank b)%Q | desc => (rank b - rank a)%Q end.
Proof.
  intros Ha Hb. unfold compare_records. cbn [String.eqb Ascii.eqb Bool.eqb]. cbn zeta.
  rewrite (severity_rank_plain a Ha), (severity_rank_plain b Hb). reflexivity.
Qed.

(** With a record whose severity has no rank the comparator answers [NaN],
    [+0] to the sort, whatever the other record. *)
Lemma compare_severity_inherited (d : direction) (a b : VulnerabilityData) :
  ~ plain_severity a \/ ~ plain_severity b ->
  compare_records "severity" d a b = 0%Q.
Proof.
  unfold plain_severity. intros Hnot.
  unfold compare_records. cbn [String.eqb Ascii.eqb Bool.eqb]. cbn zeta.
  destruct Hnot as [H|H]; apply not_false_is_true in H;
    rewrite (severity_rank_inherited _ H); [reflexivity|].
  destruct (severity_rank (Some (severity a))); reflexivity.
Qed.

(** What the severity comparator permits of two records with a rank. *)
Lemma permits_severity (d : direction) (a b : VulnerabilityData) :
  plain_severity a -> plain_severity b ->
  permits (compare_records "severity" d) a b ->
  match d with asc => (rank a <= rank b)%Q | desc => (rank b <= rank a)%Q end.
Proof.
  intros Ha Hb. unfold permits.
  rewrite (compare_severity d a b Ha Hb), (compare_severity d b a Hb Ha).
  destruct d; rewrite is_positive_difference, is_negative_difference; tauto.
Qed.

Lemma permitted_by_rank (d : direction) (out : list VulnerabilityData) :
  Forall plain_severity out ->
  permitted_order (compare_records "severity" d) out ->
  StronglySorted
    (fun a b => match d with asc => (rank a <= rank b)%Q | desc => (rank b <= rank a)%Q end)
    out.
Proof.
  apply permitted_sorted.
  - intros x y z. destruct d; intros H1 H2; lra.
  - intros x y. apply permits_severity.
Qed.
End SeverityOrder.

(** C4. With field ['severity'], [sortVulnerabilities] compares the records
    by their rank: Critical 4, High 3, Medium 2, Low 1, whatever the case of
    the severity, and 0 for a missing one and for an unknown one, unless it
    spells a name every object inherits: the lookup then finds no number.
    For records with a rank, every order of the input that the comparator
    permits, that of [sortVulnerabilities] among them, is by non-decreasing
    rank for ['asc'] and by non-increasing rank for ['desc']; on the input
    of scenario A, direction ['desc'] gives the ids in the order
    ['2', '1', '3']. With the severities critical, Constructor, low the
    comparator has no objection to any pair with the second record, and
    the input order, which is not by rank, is permitted as it stands. *)
Theorem sort_by_severity :
  (forall s,
     (same_ignoring_case s "Critical" ->
      DataProcessor.severity_rank (Some s) = Some 4%Q)
     /\ (same_ignoring_case s "High" -> DataProcessor.severity_rank (Some s) = Some 3%Q)
     /\ (same_ignoring_case s "Medium" ->
         DataProcessor.severity_rank (Some s) = Some 2%Q)
     /\ (same_ignoring_case s "Low" -> DataProcessor.severity_rank (Some s) = Some 1%Q)
     /\ (~ (exists level, In level SEVERITIES /\ same_ignoring_case s level) ->
         inherited (toLowerCase s) = false ->
         DataProcessor.severity_rank (Some s) = Some 0%Q)
     /\ (inherited (toLowerCase s) = true ->
         DataProcessor.severity_rank (Some s) = None))
  /\ DataProcessor.severity_rank None = Some 0%Q
  /\ (forall data d,
        Permutation data (DataProcessor.sortVulnerabilities data "severity" d)
        /\ permitted_order (DataProcessor.compare_records "severity" d)
             (DataProcessor.sortVulnerabilities data "severity" d))
  /\ (forall data d out,
        Forall DataProcessor.plain_severity data ->
        Permutation data out ->
        permitted_order (DataProcessor.compare_records "severity" d) out ->
        StronglySorted
          (fun a b =>
             match d with
             | asc => (DataProcessor.rank a <= DataProcessor.rank b)%Q
             | desc => (DataProcessor.rank b <= DataProcessor.rank a)%Q
             end)
          out)
  /\ (forall pkg kai,
        map id (DataProcessor.sortVulnerabilities
                  (DataProcessor.scenario_A pkg kai) "severity" desc)
        = ["2"; "1"; "3"])
  /\ (Forall (fun a => DataProcessor.compare_records "severity" asc a
                         (DataProcessor.scenario_record "2" "Constructor" 5.0
                            "zlib" "needs-review") = 0%Q
                       /\ DataProcessor.compare_records "severity" asc
                            (DataProcessor.scenario_record "2" "Constructor" 5.0
                               "zlib" "needs-review") a = 0%Q)
        DataProcessor.inherited_key_sample
      /\ permitted_order (DataProcessor.compare_records "severity" asc)
           DataProcessor.inherited_key_sample
      /\ map DataProcessor.rank DataProcessor.inherited_key_sample
         = [4%Q; 0%Q; 1%Q]).
Proof.
  split.
  { intros s. pose proof (severity_rank_level s) as (H4 & H3 & H2 & H1).
    repeat split; try assumption;
      [apply severity_rank_unknown|apply severity_rank_inherited]. }
  split; [reflexivity|].
  split.
  { intros data d. split; [apply array_sort_perm|apply array_sort_permitted]. }
  split.
  { intros data d out Hplain Hperm Hout. apply permitted_by_rank; [|exact Hout].
    eapply Permutation_Forall; eassumption. }
  split; [intros pkg kai; reflexivity|].
  split; [repeat constructor|].
  split; [cbn; repeat split; left; reflexivity|].
  reflexivity.
Qed.

Lemma sort_by_severity_witness :
  Forall DataProcessor.plain_severity (DataProcessor.scenario_A "openssl" "open")
  /\ StronglySorted
       (fun a b => (DataProcessor.rank b <= DataProcessor.rank a)%Q)
       (DataProcessor.sortVulnerabilities
          (DataProcessor.scenario_A "openssl" "open") "severity" desc).
Proof.
  assert (H : Forall DataProcessor.plain_severity
                (DataProcessor.scenario_A "openssl" "open"))
    by (repeat constructor).
  split; [exact H|].
  destruct sort_by_severity as (_ & _ & Hout & Hsorted & _).
  exact (Hsorted _ desc _ H (proj1 (Hout _ desc)) (proj2 (Hout _ desc))).
Defined.

(** ** The sort worker *)

Lemma array_sort_ext {A : Type} (f g : A -> A -> Q) (l : list A) :
  (forall x y, f x y = g x y) -> array_sort f l = array_sort g l.
Proof.
  intros Hfg.
  assert (Hins : forall x sorted, sort_insert f x sorted = sort_insert g x sorted).
  { intros x sorted. induction sorted as [|y sorted IH]; simpl; [reflexivity|].
    rewrite Hfg, IH. reflexivity. }
  unfold array_sort. generalize (@nil A).
  induction l as [|x l IH]; intros sorted; simpl; [reflexivity|].
  rewrite Hins. apply IH.
Qed.

(** Two comparators with the same signs on the elements of a list sort it
    alike. *)
Lemma sort_insert_ext_in {A : Type} (f g : A -> A -> Q) (x : A) (sorted : list A) :
  (forall y, In y sorted -> is_negative (f x y) = is_negative (g x y)) ->
  sort_insert f x sorted = sort_insert g x sorted.
Proof.
  induction sorted as [|y rest IH]; intros H; [reflexivity|].
  cbn [sort_insert]. rewrite (H y) by (left; reflexivity).
  destruct (is_negative (g x y)); [reflexivity|].
  f_equal. apply IH. intros z Hz. apply H. right. exact Hz.
Qed.

Lemma sort_fold_ext_in {A : Type} (f g : A -> A -> Q) (l : list A) : forall sorted,
  (forall x y, In x (sorted ++ l) -> In y (sorted ++ l) ->
               is_negative (f x y) = is_negative (g x y)) ->
  fold_left (fun sorted x => sort_insert f x sorted) l sorted
  = fold_left (fun sorted x => sort_insert g x sorted) l sorted.
Proof.
  induction l as [|x l IH]; intros sorted H; [reflexivity|].
  cbn [fold_left].
  rewrite (sort_insert_ext_in f g x sorted)
    by (intros y Hy; apply H; apply in_or_app; [right; left; reflexivity|left; exact Hy]).
  apply IH. intros a b Ha Hb.
  assert (Hin : forall z, In z (sort_insert g x sorted ++ l) -> In z (sorted ++ x :: l)).
  { intros z Hz. apply in_app_or in Hz as [Hz|Hz].
    - apply (Permutation_in z (Permutation_sym (sort_insert_perm g x sorted))) in Hz.
      destruct Hz as [<-|Hz]; apply in_or_app; [right; left; reflexivity|left; exact Hz].
    - apply in_or_app. right. right. exact Hz. }
  apply H; apply Hin; assumption.
Qed.

Lemma array_sort_ext_in {A : Type} (f g : A -> A -> Q) (l : list A) :
  (forall x y, In x l -> In y l -> is_negative (f x y) = is_negative (g x y)) ->
  array_sort f l = array_sort g l.
Proof. intros H. unfold array_sort. apply sort_fold_ext_in. exact H. Qed.

Lemma worker_table_agrees : SortWorker.SEVERITY_ORDER = DataProcessor.SEVERITY_ORDER.
Proof. reflexivity. Qed.

Lemma worker_compare_agrees (field : string) (d : direction) (a b : VulnerabilityData) :
  SortWorker.compare_records field d a b = DataProcessor.compare_records field d a b.
Proof.
  unfold SortWorker.compare_records, DataProcessor.compare_records.
  unfold SortWorker.severity_rank, DataProcessor.severity_rank.
  rewrite worker_table_agrees.
  destruct (String.eqb field "riskFactorsCount"); [reflexivity|].
  destruct (String.eqb field "severity"); reflexivity.
Qed.

(** C9. The copy of [sortVulnerabilities] inside the web worker and the one
    of the data-processing utilities give the same output for every record
    sequence, every field and both directions. *)
Theorem worker_sort_agrees (data : list VulnerabilityData) (field : string)
    (d : direction) :
  SortWorker.sortVulnerabilities data field d
  = DataProcessor.sortVulnerabilities data field d.
Proof.
  unfold SortWorker.sortVulnerabilities, DataProcessor.sortVulnerabilities.
  apply array_sort_ext. intros a b. apply worker_compare_agrees.
Qed.

(** ** Sorting and filtering leave their argument alone *)

Section StoreFacts.
Import Store.

Lemma bind_run {A B : Type} (m : M A) (k : A -> M B) (h : store) :
  bind m k h = k (m h).1 (m h).2.
Proof. unfold bind. destruct (m h). reflexivity. Qed.

Lemma fresh_unallocated (h : store) : h !! fresh (dom h) = None.
Proof. apply not_elem_of_dom, is_fresh. Qed.

(** Allocation gives a reference the store did not have, and changes no
    array of the store. *)
Lemma alloc_spec (l : list VulnerabilityData) (h : store) :
  h !! (alloc l h).1 = None
  /\ h ⊆ (alloc l h).2
  /\ (alloc l h).2 !! (alloc l h).1 = Some l.
Proof.
  unfold alloc. cbn [fst snd].
  split; [apply fresh_unallocated|].
  split; [apply insert_subseteq, fresh_unallocated|apply lookup_insert_eq].
Qed.

Lemma filter_spec (a : positive) (p : VulnerabilityData -> bool)
    (l : list VulnerabilityData) (h0 h : store) :
  h0 ⊆ h -> h !! a = Some l ->
  h0 ⊆ (filter a p h).2
  /\ (filter a p h).2 !! (filter a p h).1 = Some (List.filter p l)
  /\ h !! (filter a p h).1 = None.
Proof.
  intros Hsub Ha. unfold filter. rewrite bind_run. unfold contents. cbn [fst snd].
  rewrite Ha. cbn [default].
  destruct (alloc_spec (List.filter p l) h) as (Hfresh & Hext & Hget).
  split; [etransitivity; eassumption|]. split; assumption.
Qed.

Lemma search_stage_spec (filters : Filters.t) (a : positive)
    (l : list VulnerabilityData) (h0 h : store) :
  h0 ⊆ h -> h !! a = Some l ->
  let m := match Filters.searchTerm filters with
           | Some term =>
               if truthy_string term then searchVulnerabilities a term else ret a
           | None => ret a
           end in
  h0 ⊆ (m h).2
  /\ (m h).2 !! (m h).1
     = Some (match Filters.searchTerm filters with
             | Some term =>
                 if truthy_string term
                 then DataProcessor.searchVulnerabilities l term
                 else l
             | None => l
             end).
Proof.
  intros Hsub Ha. cbn zeta.
  destruct (Filters.searchTerm filters) as [term|]; [|unfold ret; cbn [fst snd]; auto].
  unfold searchVulnerabilities, DataProcessor.searchVulnerabilities.
  destruct (truthy_string term); cbn [negb]; [|unfold ret; cbn [fst snd]; auto].
  destruct (filter_spec a (DataProcessor.search_match (toLowerCase term)) l h0 h Hsub Ha)
    as (H1 & H2 & _). auto.
Qed.

Lemma stage_returned {X : Type} (criterion : option X) (p : X -> VulnerabilityData -> bool)
    (a data : positive) (l : list VulnerabilityData) (h0 h : store) (seen : bool) :
  h0 ⊆ h -> h !! a = Some l -> returned h0 data seen (a, h) ->
  let m := match criterion with
           | Some x => filter a (p x)
           | None => ret a
           end in
  h0 ⊆ (m h).2
  /\ (m h).2 !! (m h).1
     = Some (match criterion with
             | Some x => List.filter (p x) l
             | None => l
             end)
  /\ returned h0 data (seen || given criterion) (m h).
Proof.
  intros Hsub Ha Hseen. destruct criterion as [x|]; cbn zeta.
  - destruct (filter_spec a (p x) l h0 h Hsub Ha) as (H1 & H2 & H3).
    split; [exact H1|]. split; [exact H2|].
    unfold given. rewrite orb_true_r. unfold returned.
    eapply lookup_weaken_None; eassumption.
  - unfold ret, given. rewrite orb_false_r. cbn [fst snd]. auto.
Qed.

Lemma search_stage_returned (filters : Filters.t) (data : positive)
    (l : list VulnerabilityData) (h : store) :
  h !! data = Some l ->
  let m := match Filters.searchTerm filters with
           | Some term =>
               if truthy_string term then searchVulnerabilities data term else ret data
           | None => ret data
           end in
  returned h data
    match Filters.searchTerm filters with
    | Some term => truthy_string term
    | None => false
    end (m h).
Proof.
  intros Ha. cbn zeta.
  destruct (Filters.searchTerm filters) as [term|];
    [|unfold returned, ret; cbn [fst snd]; auto].
  unfold searchVulnerabilities.
  destruct (truthy_string term); cbn [negb]; [|unfold returned, ret; cbn [fst snd]; auto].
  destruct (filter_spec data (DataProcessor.search_match (toLowerCase term)) l h h
              (reflexivity h) Ha) as (_ & _ & H3).
  exact H3.
Qed.

Lemma filterVulnerabilities_store (data : positive) (filters : Filters.t)
    (l : list VulnerabilityData) (h : store) :
  h !! data = Some l ->
  h ⊆ (filterVulnerabilities data filters h).2
  /\ (filterVulnerabilities data filters h).2 !! (filterVulnerabilities data filters h).1
     = Some (DataProcessor.filterVulnerabilities l filters)
  /\ returned h data (active filters) (filterVulnerabilities data filters h).
Proof.
  intros Hdata. unfold filterVulnerabilities, DataProcessor.filterVulnerabilities, active.
  cbn zeta. rewrite !bind_run.
  destruct (search_stage_spec filters data l h h (reflexivity h) Hdata) as (S1 & G1).
  pose proof (search_stage_returned filters data l h Hdata) as R1.
  cbn zeta in S1, G1, R1.
  set (m1 := match Filters.searchTerm filters with
             | Some term =>
                 if truthy_string term then searchVulnerabilities data term else ret data
             | None => ret data
             end) in *.
  assert (R1' : returned h data
                  match Filters.searchTerm filters with
                  | Some term => truthy_string term
                  | None => false
                  end ((m1 h).1, (m1 h).2)) by (destruct (m1 h); exact R1).
  destruct (stage_returned (DataProcessor.nonempty_array (Filters.severities filters))
              (fun severities =>
                 DataProcessor.severity_match (list_to_set (map toLowerCase severities)))
              (m1 h).1 data _ h (m1 h).2 _ S1 G1 R1') as (S2 & G2 & R2).
  cbn zeta in S2, G2, R2.
  set (m2 := match DataProcessor.nonempty_array (Filters.severities filters) with
             | Some severities => filter (m1 h).1 _
             | None => ret (m1 h).1
             end) in *.
  assert (R2' : returned h data _ ((m2 (m1 h).2).1, (m2 (m1 h).2).2))
    by (destruct (m2 (m1 h).2); exact R2).
  destruct (stage_returned (DataProcessor.nonempty_array (Filters.riskFactors filters))
              (fun requested => DataProcessor.riskFactor_match (list_to_set requested))
              (m2 (m1 h).2).1 data _ h (m2 (m1 h).2).2 _ S2 G2 R2') as (S3 & G3 & R3).
  cbn zeta in S3, G3, R3.
  set (m3 := match DataProcessor.nonempty_array (Filters.riskFactors filters) with
             | Some requested => filter (m2 (m1 h).2).1 _
             | None => ret (m2 (m1 h).2).1
             end) in *.
  assert (R3' : returned h data _ ((m3 (m2 (m1 h).2).2).1, (m3 (m2 (m1 h).2).2).2))
    by (destruct (m3 (m2 (m1 h).2).2); exact R3).
  destruct (stage_returned (DataProcessor.nonempty_array (Filters.excludeKaiStatus filters))
              (fun excluded => DataProcessor.kaiStatus_match (list_to_set excluded))
              (m3 (m2 (m1 h).2).2).1 data _ h (m3 (m2 (m1 h).2).2).2 _ S3 G3 R3')
    as (S4 & G4 & R4).
  cbn zeta in S4, G4, R4.
  split; [exact S4|]. split; [exact G4|exact R4].
Qed.

Lemma sortVulnerabilities_store (data : positive) (field : string) (d : direction)
    (l : list VulnerabilityData) (h : store) :
  h !! data = Some l ->
  h ⊆ (sortVulnerabilities data field d h).2
  /\ h !! (sortVulnerabilities data field d h).1 = None
  /\ (sortVulnerabilities data field d h).2 !! (sortVulnerabilities data field d h).1
     = Some (DataProcessor.sortVulnerabilities l field d).
Proof.
  intros Hdata. unfold sortVulnerabilities, spread, sort. rewrite !bind_run.
  unfold contents. cbn [fst snd]. rewrite Hdata. cbn [default].
  destruct (alloc_spec l h) as (Hfresh & Hext & Hget).
  unfold alloc in *. cbn [fst snd] in *.
  rewrite lookup_insert_eq. cbn [default]. rewrite insert_insert_eq.
  split; [apply insert_subseteq, Hfresh|].
  split; [exact Hfresh|]. apply lookup_insert_eq.
Qed.
End StoreFacts.

(** C7. Neither [sortVulnerabilities] nor [filterVulnerabilities] changes the
    array it is given: after the call the argument, like every other array of
    the store, has the elements it had, in the order they were in. The sort
    returns an array that did not exist before, holding the sorted records.
    [filterVulnerabilities] returns an array holding the records kept: one
    that did not exist before when a criterion is active, and its argument
    itself, with nothing allocated, when none is. Each [filter] call returns
    an array that did not exist before. *)
Theorem sort_filter_purity (h : Store.store) (data : positive)
    (l : list VulnerabilityData) (field : string) (d : direction) (filters : Filters.t) :
  h !! data = Some l ->
  (let '(sorted, h') := Store.sortVulnerabilities data field d h in
   h' !! data = Some l
   /\ h ⊆ h'
   /\ h !! sorted = None
   /\ h' !! sorted = Some (DataProcessor.sortVulnerabilities l field d))
  /\ (let '(filtered, h') := Store.filterVulnerabilities data filters h in
      h' !! data = Some l
      /\ h ⊆ h'
      /\ h' !! filtered = Some (DataProcessor.filterVulnerabilities l filters)
      /\ (Store.active filters = true -> h !! filtered = None)
      /\ (Store.active filters = false -> filtered = data /\ h' = h))
  /\ (forall callback,
        let '(kept, h') := Store.filter data callback h in
        h !! kept = None /\ h' !! kept = Some (List.filter callback l)).
Proof.
  intros Hdata. split; [|split].
  3: { intros callback.
       destruct (filter_spec data callback l h h (reflexivity h) Hdata) as (_ & Hget & Hnew).
       destruct (Store.filter data callback h) as [kept h']. cbn [fst snd] in *. auto. }
  - destruct (sortVulnerabilities_store data field d l h Hdata) as (Hsub & Hnew & Hget).
    destruct (Store.sortVulnerabilities data field d h) as [sorted h'].
    cbn [fst snd] in *.
    split; [eapply lookup_weaken; eassumption|]. auto.
  - destruct (filterVulnerabilities_store data filters l h Hdata) as (Hsub & Hget & Hret).
    destruct (Store.filterVulnerabilities data filters h) as [filtered h'].
    cbn [fst snd] in *.
    split; [eapply lookup_weaken; eassumption|].
    split; [exact Hsub|]. split; [exact Hget|].
    unfold Store.returned in Hret. cbn [fst snd] in Hret.
    split; intros Hactive; rewrite Hactive in Hret; exact Hret.
Qed.

Lemma sort_filter_purity_witness :
  Store.one_array !! 1%positive = Some DataProcessor.unscored_first
  /\ (Store.sortVulnerabilities 1%positive "cvss" desc Store.one_array).2 !! 1%positive
     = Some DataProcessor.unscored_first
  /\ Store.one_array
       !! (Store.filterVulnerabilities 1%positive DataProcessor.severe_only
             Store.one_array).1
     = None.
Proof.
  assert (H : Store.one_array !! 1%positive = Some DataProcessor.unscored_first)
    by apply lookup_singleton_eq.
  split; [exact H|].
  pose proof (sort_filter_purity _ 1%positive _ "cvss" desc
                DataProcessor.severe_only H) as [Hsort [Hfilter _]].
  split.
  - destruct (Store.sortVulnerabilities 1%positive "cvss" desc Store.one_array)
      as [sorted h'].
    exact (proj1 Hsort).
  - destruct (Store.filterVulnerabilities 1%positive DataProcessor.severe_only
                Store.one_array) as [filtered h'].
    exact (proj1 (proj2 (proj2 (proj2 Hfilter))) eq_refl).
Defined.

(** The array that [filterVulnerabilities] returns for a filters object
    without a criterion is no new one: it is the argument. *)
Lemma filter_returns_argument_counterexample :
  Store.one_array !! 1%positive = Some DataProcessor.unscored_first
  /\ (Store.filterVulnerabilities 1%positive DataProcessor.no_criterion
        Store.one_array).1 = 1%positive
  /\ ~ (Store.one_array
          !! (Store.filterVulnerabilities 1%positive DataProcessor.no_criterion
                Store.one_array).1 = None).
Proof.
  split; [apply lookup_singleton_eq|]. split; [reflexivity|].
  change ((Store.filterVulnerabilities 1%positive DataProcessor.no_criterion
             Store.one_array).1) with 1%positive.
  unfold Store.one_array. rewrite lookup_singleton_eq. discriminate.
Qed.

(** With no active criterion [filterVulnerabilities] returns its argument,
    the same reference, and allocates nothing. *)
Lemma filterVulnerabilities_no_criterion (data : positive) (h : Store.store) :
  Store.filterVulnerabilities data DataProcessor.no_criterion h = (data, h).
Proof. reflexivity. Qed.

(** ** The record normalizer *)

Section Normalizer.
Import DataLoader.


Lemma lower_char_idempotent (c : ascii) : lower_char (lower_char c) = lower_char c.
Proof. destruct c as [[] [] [] [] [] [] [] []]; reflexivity. Qed.

Lemma upper_char_sharp_s (c : ascii) :
  Ascii.eqb (upper_char c) sharp_s = Ascii.eqb c sharp_s.
Proof. destruct c as [[] [] [] [] [] [] [] []]; reflexivity. Qed.

Lemma upper_char_beyond (c : ascii) :
  upper_beyond c = false -> upper_beyond (upper_char c) = false.
Proof. destruct c as [[] [] [] [] [] [] [] []]; intros H; try reflexivity; discriminate H. Qed.

Lemma toLowerCase_idempotent (s : string) : toLowerCase (toLowerCase s) = toLowerCase s.
Proof.
  induction s as [|c s IH]; simpl; [reflexivity|].
  rewrite lower_char_idempotent, IH. reflexivity.
Qed.


(** The Title-case form of a text that does not begin with a sharp s. *)
Lemma titleCase_cons (c : ascii) (rest : string) :
  Ascii.eqb c sharp_s = false ->
  titleCase (String c rest) = String (upper_char c) (toLowerCase rest).
Proof.
  intros Hc. unfold titleCase. cbn [charAt0 slice1 toUpperCase]. rewrite Hc. reflexivity.
Qed.

(** The Title-case form of a text that begins with a sharp s begins with
    SS. *)
Lemma titleCase_sharp_s (rest : string) :
  titleCase (String sharp_s rest) = String "S" (String "S" (toLowerCase rest)).
Proof. reflexivity. Qed.

Lemma single_capital_cons (c : ascii) (rest : string) :
  single_capital (String c rest) = true ->
  Ascii.eqb c sharp_s = false /\ upper_beyond c = false.
Proof.
  cbn [single_capital]. rewrite andb_true_iff, !negb_true_iff. tauto.
Qed.


Lemma titleCase_single_capital (s : string) :
  single_capital s = true -> single_capital (titleCase s) = true.
Proof.
  destruct s as [|c rest]; [reflexivity|]. intros Hs.
  apply single_capital_cons in Hs as [Hc Hb].
  rewrite (titleCase_cons c rest Hc). cbn [single_capital].
  rewrite upper_char_sharp_s, Hc, (upper_char_beyond c Hb). reflexivity.
Qed.










End Normalizer.




(** ** The comparison list *)

Section ComparisonList.
Import MainDashboard.

(** [find] answers whether the id is already in the list. *)
Lemma find_by_id (comparisonList : list VulnerabilityData) (item : VulnerabilityData) :
  find (fun v => String.eqb (id v) (id item)) comparisonList = None
  <-> ~ In (id item) (map id comparisonList).
Proof.
  induction comparisonList as [|v l IH]; simpl; [tauto|].
  destruct (String.eqb_spec (id v) (id item)) as [Heq|Hne].
  - split; [discriminate|]. intros H. exfalso. apply H. left. exact Heq.
  - rewrite IH. tauto.
Qed.

Lemma add_preserves_distinct comparisonList item :
  List.NoDup (map id comparisonList) ->
  List.NoDup (map id (handleAddToComparison comparisonList item)).
Proof.
  intros Hnd. unfold handleAddToComparison.
  destruct (find _ comparisonList) eqn:Hfind; [exact Hnd|].
  apply find_by_id in Hfind.
  rewrite map_app. simpl.
  apply NoDup_ListNoDup, NoDup_app. split; [apply NoDup_ListNoDup, Hnd|].
  split; [|apply NoDup_singleton].
  intros x Hx Hx'. apply list_elem_of_singleton in Hx'. subst x.
  apply Hfind, list_elem_of_In, Hx.
Qed.

Lemma remove_preserves_distinct comparisonList id0 :
  List.NoDup (map id comparisonList) ->
  List.NoDup (map id (handleRemoveFromComparison comparisonList id0)).
Proof.
  unfold handleRemoveFromComparison.
  induction comparisonList as [|v l IH]; simpl; [auto|].
  intros Hnd. apply List.NoDup_cons_iff in Hnd as [Hv Hl].
  destruct (negb (String.eqb (id v) id0)); [|auto].
  simpl. constructor; [|auto].
  intros Hin. apply Hv.
  apply in_map_iff in Hin as (w & Hw & Hin).
  apply filter_In in Hin as [Hin _].
  apply in_map_iff. eauto.
Qed.

Lemma handle_preserves_distinct comparisonList a :
  List.NoDup (map id comparisonList) -> List.NoDup (map id (handle comparisonList a)).
Proof.
  destruct a as [item|id0|]; simpl.
  - apply add_preserves_distinct.
  - apply remove_preserves_distinct.
  - intros _. constructor.
Qed.

Lemma fold_handle_distinct actions : forall comparisonList,
  List.NoDup (map id comparisonList) ->
  List.NoDup (map id (fold_left handle actions comparisonList)).
Proof.
  induction actions as [|a actions IH]; intros l Hl; simpl; [exact Hl|].
  apply IH, handle_preserves_distinct, Hl.
Qed.
End ComparisonList.

(** C10. After any sequence of add, remove and clear actions the ids of the
    comparison list are pairwise distinct: adding a record whose id is already
    in the list leaves the list as it is, adding another id appends the
    record, and removing and clearing keep the ids distinct. *)
Theorem comparison_ids_distinct (actions : list MainDashboard.action) :
  List.NoDup (map id (MainDashboard.run actions))
  /\ (forall item,
        In (id item) (map id (MainDashboard.run actions)) ->
        MainDashboard.handleAddToComparison (MainDashboard.run actions) item
        = MainDashboard.run actions)
  /\ (forall item,
        ~ In (id item) (map id (MainDashboard.run actions)) ->
        MainDashboard.handleAddToComparison (MainDashboard.run actions) item
        = MainDashboard.run actions ++ [item])
  /\ (forall id0,
        List.NoDup (map id (MainDashboard.handleRemoveFromComparison
                              (MainDashboard.run actions) id0)))
  /\ List.NoDup (map id (MainDashboard.handleClearComparison
                           (MainDashboard.run actions))).
Proof.
  assert (Hrun : List.NoDup (map id (MainDashboard.run actions))).
  { apply fold_handle_distinct. constructor. }
  split; [exact Hrun|].
  split.
  { intros item Hin. unfold MainDashboard.handleAddToComparison.
    destruct (find _ (MainDashboard.run actions)) eqn:Hfind; [reflexivity|].
    apply find_by_id in Hfind. contradiction. }
  split.
  { intros item Hnotin. unfold MainDashboard.handleAddToComparison.
    apply find_by_id in Hnotin. rewrite Hnotin. reflexivity. }
  split; [intros id0; apply remove_preserves_distinct, Hrun|constructor].
Qed.

(** * Further properties of the engine *)

(** ** Sorting with a comparator that follows a total preorder *)

Section OrderedSort.
Context {A : Type}.
Variable comparefn : A -> A -> Q.
Variable le : A -> A -> Prop.
Hypothesis le_total : forall x y, le x y \/ le y x.
Hypothesis le_trans : forall x y z, le x y -> le y z -> le x z.
Hypothesis comparefn_le :
  forall x y, is_negative (comparefn x y) = false <-> le y x.

(** An element that nothing in the list exceeds goes to the end. *)
Lemma sort_insert_end (x : A) (l : list A) :
  Forall (fun y => le y x) l -> sort_insert comparefn x l = l ++ [x].
Proof.
  induction 1 as [|y l Hy Hl IH]; simpl; [reflexivity|].
  apply comparefn_le in Hy. rewrite Hy, IH. reflexivity.
Qed.

Lemma sort_fold_sorted (l : list A) : forall sorted,
  StronglySorted le (sorted ++ l) ->
  fold_left (fun sorted x => sort_insert comparefn x sorted) l sorted = sorted ++ l.
Proof.
  induction l as [|x l IH]; intros sorted Hs; simpl.
  - rewrite app_nil_r. reflexivity.
  - assert (Hx : Forall (fun y => le y x) sorted).
    { clear IH. induction sorted as [|y sorted IHs]; [constructor|].
      simpl in Hs. apply StronglySorted_inv in Hs as [Hs Hy].
      constructor; [|apply IHs, Hs].
      rewrite Forall_app, Forall_cons in Hy. tauto. }
    rewrite (sort_insert_end x sorted Hx), IH; rewrite <- app_assoc; [reflexivity|exact Hs].
Qed.

(** Sorting a sorted list returns it. *)
Lemma array_sort_sorted_id (l : list A) :
  StronglySorted le l -> array_sort comparefn l = l.
Proof. intros Hl. unfold array_sort. apply (sort_fold_sorted l []). exact Hl. Qed.

(** Insertion into a sorted list commutes with a filter. *)
Lemma sort_insert_filter (p : A -> bool) (x : A) (l : list A) :
  StronglySorted le l ->
  List.filter p (sort_insert comparefn x l)
  = if p x then sort_insert comparefn x (List.filter p l) else List.filter p l.
Proof.
  intros Hl. induction Hl as [|y l Hl IH Hy]; simpl.
  - destruct (p x); reflexivity.
  - destruct (is_negative (comparefn x y)) eqn:Hneg.
    + simpl. destruct (p x) eqn:Hpx; [|reflexivity].
      destruct (p y) eqn:Hpy; simpl; [rewrite Hneg; reflexivity|].
      destruct (List.filter p l) as [|z rest] eqn:Hf; simpl; [reflexivity|].
      assert (Hz : In z l).
      { assert (Hin : In z (List.filter p l)) by (rewrite Hf; left; reflexivity).
        apply filter_In in Hin. tauto. }
      rewrite Forall_forall in Hy. apply list_elem_of_In, Hy in Hz.
      destruct (is_negative (comparefn x z)) eqn:Hxz; [reflexivity|].
      apply comparefn_le in Hxz.
      assert (Hyx : le y x) by (eapply le_trans; eassumption).
      apply comparefn_le in Hyx. congruence.
    + simpl. rewrite IH.
      destruct (p y) eqn:Hpy; destruct (p x) eqn:Hpx; simpl; rewrite ?Hneg; reflexivity.
Qed.

Lemma sort_fold_filter (p : A -> bool) (l : list A) : forall sorted,
  StronglySorted le sorted ->
  List.filter p (fold_left (fun sorted x => sort_insert comparefn x sorted) l sorted)
  = fold_left (fun sorted x => sort_insert comparefn x sorted)
      (List.filter p l) (List.filter p sorted).
Proof.
  induction l as [|x l IH]; intros sorted Hs; simpl; [reflexivity|].
  rewrite IH by (apply (sort_insert_sorted comparefn le); assumption).
  rewrite (sort_insert_filter p x sorted Hs).
  destruct (p x); reflexivity.
Qed.

(** Sorting commutes with filtering. *)
Lemma array_sort_filter (p : A -> bool) (l : list A) :
  List.filter p (array_sort comparefn l) = array_sort comparefn (List.filter p l).
Proof. unfold array_sort. apply (sort_fold_filter p l []). constructor. Qed.

Lemma array_sort_idempotent (l : list A) :
  array_sort comparefn (array_sort comparefn l) = array_sort comparefn l.
Proof.
  apply array_sort_sorted_id, (array_sort_sorted comparefn le); assumption.
Qed.

(** Elements that the order does not tell apart keep their input order. *)
Lemma array_sort_stable (p : A -> bool) (l : list A) :
  (forall x y, p x = true -> p y = true -> le x y) ->
  List.filter p (array_sort comparefn l) = List.filter p l.
Proof.
  intros Hp. rewrite array_sort_filter. apply array_sort_sorted_id.
  induction l as [|x l IH]; simpl; [constructor|].
  destruct (p x) eqn:Hx; [|exact IH].
  constructor; [exact IH|].
  apply Forall_forall. intros y Hy. apply list_elem_of_In, filter_In in Hy as [_ Hy].
  apply Hp; assumption.
Qed.
End OrderedSort.

(** ** Sorting by a declared field *)

Section SortableFields.
Import DataProcessor.

(** A declared field other than the two synthetic ones holds texts, or
    holds numbers. *)
Lemma declared_kind (field : string) (x y : VulnerabilityData) :
  In field sortable_fields -> field <> "severity" -> field <> "riskFactorsCount" ->
  (text_or_missing (get_field x field) /\ text_or_missing (get_field y field))
  \/ (number_or_missing (get_field x field) /\ number_or_missing (get_field y field)).
Proof.
  unfold sortable_fields. intros Hin Hsev Hcount. simpl in Hin.
  destruct Hin as [<-|[<-|Hin]]; try contradiction.
  repeat (destruct Hin as [<-|Hin]; [
    unfold get_field; cbn [String.eqb Ascii.eqb Bool.eqb];
    unfold of_optional_string;
    repeat match goal with |- context [match ?o with Some _ => _ | None => _ end] =>
             destruct o end; cbn; tauto |]).
  contradiction.
Qed.

Lemma sortable_cases (field : string) :
  In field sortable_fields ->
  field = "severity" \/ field = "riskFactorsCount"
  \/ (field <> "severity" /\ field <> "riskFactorsCount").
Proof.
  destruct (String.eqb_spec field "severity"); [tauto|].
  destruct (String.eqb_spec field "riskFactorsCount"); tauto.
Qed.

Lemma compare_count (d : direction) (x y : VulnerabilityData) :
  compare_records "riskFactorsCount" d x y
  = match d with
    | asc => (riskFactorsCount x - riskFactorsCount y)%Q
    | desc => (riskFactorsCount y - riskFactorsCount x)%Q
    end.
Proof. reflexivity. Qed.

(** On records for which it reads numbers, the comparator is negative
    exactly when the first record has to come first. *)
Lemma sortable_compare_spec (field : string) (d : direction) (x y : VulnerabilityData) :
  In field sortable_fields -> ranked field x -> ranked field y ->
  is_negative (compare_records field d x y) = false <-> may_precede field d y x.
Proof.
  intros Hin Hx Hy.
  destruct (sortable_cases field Hin) as [->|[->|[Hsev Hcount]]].
  - rewrite (compare_severity d x y (Hx eq_refl) (Hy eq_refl)).
    unfold may_precede, key_of. cbn [String.eqb Ascii.eqb Bool.eqb].
    cbn [key_le sort_key_le]. destruct d; apply is_negative_difference.
  - rewrite compare_count. unfold may_precede, key_of.
    cbn [String.eqb Ascii.eqb Bool.eqb]. cbn [key_le sort_key_le].
    destruct d; apply is_negative_difference.
  - apply ordinary_compare_spec; try assumption. apply declared_kind; assumption.
Qed.

Lemma sortable_permits (field : string) (d : direction) (x y : VulnerabilityData) :
  In field sortable_fields -> ranked field x -> ranked field y ->
  permits (compare_records field d) x y -> may_precede field d x y.
Proof.
  intros Hin Hx Hy.
  destruct (sortable_cases field Hin) as [->|[->|[Hsev Hcount]]].
  - intros H. apply (permits_severity d x y (Hx eq_refl) (Hy eq_refl)) in H.
    unfold may_precede, key_of. cbn [String.eqb Ascii.eqb Bool.eqb].
    cbn [key_le sort_key_le]. destruct d; exact H.
  - unfold permits. rewrite !compare_count. unfold may_precede, key_of.
    cbn [String.eqb Ascii.eqb Bool.eqb]. cbn [key_le sort_key_le].
    destruct d; rewrite is_positive_difference, is_negative_difference; tauto.
  - apply ordinary_permits; try assumption. apply declared_kind; assumption.
Qed.

(** The comparator agrees, on the records for which it reads numbers, with
    one that follows the order of the keys on all records. *)
Lemma sortable_comparator (field : string) (d : direction) :
  In field sortable_fields ->
  exists g : VulnerabilityData -> VulnerabilityData -> Q,
    (forall x y, ranked field x -> ranked field y ->
                 compare_records field d x y = g x y)
    /\ (forall x y, is_negative (g x y) = false <-> may_precede field d y x).
Proof.
  intros Hin.
  destruct (String.eqb_spec field "severity") as [->|Hsev].
  - exists (fun x y => match d with
                       | asc => (rank x - rank y)%Q
                       | desc => (rank y - rank x)%Q
                       end).
    split.
    + intros x y Hx Hy. apply compare_severity; [apply Hx|apply Hy]; reflexivity.
    + intros x y. unfold may_precede, key_of. cbn [String.eqb Ascii.eqb Bool.eqb].
      cbn [key_le sort_key_le]. destruct d; apply is_negative_difference.
  - exists (compare_records field d). split; [reflexivity|].
    intros x y. apply sortable_compare_spec; try assumption; intros H; contradiction.
Qed.

Lemma ranked_perm (field : string) (l l' : list VulnerabilityData) :
  Permutation l l' -> Forall (ranked field) l -> Forall (ranked field) l'.
Proof. intros Hperm H. eapply Permutation_Forall; eassumption. Qed.

(** On records for which the comparator reads numbers, the sort is the sort
    by the comparator that follows the keys. *)
Lemma sort_by_keys (field : string) (d : direction)
    (g : VulnerabilityData -> VulnerabilityData -> Q) (l : list VulnerabilityData) :
  (forall x y, ranked field x -> ranked field y -> compare_records field d x y = g x y) ->
  Forall (ranked field) l ->
  sortVulnerabilities l field d = array_sort g l.
Proof.
  intros Hg Hl. unfold sortVulnerabilities. apply array_sort_ext_in.
  rewrite Forall_forall in Hl. intros x y Hx Hy.
  rewrite Hg; [reflexivity| |]; apply Hl, list_elem_of_In; assumption.
Qed.

Lemma permitted_by_field (field : string) (d : direction) (out : list VulnerabilityData) :
  In field sortable_fields -> Forall (ranked field) out ->
  permitted_order (compare_records field d) out ->
  StronglySorted (may_precede field d) out.
Proof.
  intros Hin. apply permitted_sorted.
  - intros x y z. apply may_precede_trans.
  - intros x y. apply sortable_permits, Hin.
Qed.

Lemma sorted_by_field (data : list VulnerabilityData) (field : string) (d : direction) :
  In field sortable_fields -> Forall (ranked field) data ->
  StronglySorted (may_precede field d) (DataProcessor.sortVulnerabilities data field d).
Proof.
  intros Hfield Hranked. apply permitted_by_field; [exact Hfield| |].
  - eapply ranked_perm; [apply array_sort_perm|exact Hranked].
  - apply array_sort_permitted.
Qed.
End SortableFields.

(** X1. Sorting by one of the sortable fields returns the records of the
    input in an order that the comparator permits, and every such order of
    the input is sorted: numbers from low to high and texts in the character
    order of their lower-cased form for ['asc'], the reverse for ['desc'],
    and the records without a value at the end in both directions. For the
    field ['severity'] this holds of records whose severity spells no
    inherited property name. *)
Theorem sort_by_field_sorted (data : list VulnerabilityData) (field : string)
    (d : direction) :
  In field sortable_fields ->
  Forall (ranked field) data ->
  Permutation data (DataProcessor.sortVulnerabilities data field d)
  /\ permitted_order (DataProcessor.compare_records field d)
       (DataProcessor.sortVulnerabilities data field d)
  /\ forall out,
       Permutation data out ->
       permitted_order (DataProcessor.compare_records field d) out ->
       StronglySorted (may_precede field d) out.
Proof.
  intros Hfield Hranked. split; [apply array_sort_perm|].
  split; [apply array_sort_permitted|].
  intros out Hperm Hout. apply permitted_by_field; [exact Hfield| |exact Hout].
  eapply ranked_perm; eassumption.
Qed.

Lemma sort_by_field_sorted_witness :
  In "package" sortable_fields
  /\ Forall (ranked "package") DataProcessor.unscored_first
  /\ map id (DataProcessor.sortVulnerabilities DataProcessor.unscored_first "package" asc)
     = ["c"; "b"; "a"]
  /\ StronglySorted (may_precede "package" asc)
       (DataProcessor.sortVulnerabilities DataProcessor.unscored_first "package" asc).
Proof.
  assert (H : In "package" sortable_fields) by (simpl; tauto).
  assert (R : Forall (ranked "package") DataProcessor.unscored_first)
    by (repeat constructor; discriminate).
  split; [exact H|]. split; [exact R|]. split; [reflexivity|].
  destruct (sort_by_field_sorted DataProcessor.unscored_first "package" asc H R)
    as (Hperm & Hpermitted & Hsorted).
  exact (Hsorted _ Hperm Hpermitted).
Defined.

(** X2. Sorting by a sortable field is idempotent on records that all have
    a value at that field, and a plain severity when the field is
    ['severity']: the comparator is then consistent, and sorting the output
    again, by the same field in the same direction, returns it unchanged. *)
Theorem sort_idempotent (data : list VulnerabilityData) (field : string) (d : direction) :
  In field sortable_fields ->
  Forall (ranked field) data ->
  Forall (valued field) data ->
  DataProcessor.sortVulnerabilities
    (DataProcessor.sortVulnerabilities data field d) field d
  = DataProcessor.sortVulnerabilities data field d.
Proof.
  intros Hfield Hranked _.
  destruct (sortable_comparator field d Hfield) as (g & Hg & Hspec).
  rewrite (sort_by_keys field d g data Hg Hranked).
  rewrite (sort_by_keys field d g (array_sort g data) Hg)
    by (eapply ranked_perm; [apply array_sort_perm|exact Hranked]).
  apply (array_sort_idempotent _ (may_precede field d)).
  - apply may_precede_total.
  - apply may_precede_trans.
  - exact Hspec.
Qed.

Lemma sort_idempotent_witness :
  In "package" sortable_fields
  /\ Forall (ranked "package") DataProcessor.unscored_first
  /\ Forall (valued "package") DataProcessor.unscored_first
  /\ DataProcessor.sortVulnerabilities
       (DataProcessor.sortVulnerabilities DataProcessor.unscored_first "package" desc)
       "package" desc
     = DataProcessor.sortVulnerabilities DataProcessor.unscored_first "package" desc.
Proof.
  assert (H : In "package" sortable_fields) by (simpl; tauto).
  assert (R : Forall (ranked "package") DataProcessor.unscored_first)
    by (repeat constructor; discriminate).
  assert (V : Forall (valued "package") DataProcessor.unscored_first)
    by (repeat constructor; discriminate).
  split; [exact H|]. split; [exact R|]. split; [exact V|].
  exact (sort_idempotent DataProcessor.unscored_first "package" desc H R V).
Defined.

(** X3. Sorting by a sortable field is stable on records that all have a
    value at that field, and a plain severity when the field is
    ['severity']: the records of any group that the order does not tell
    apart, each allowed before each other, come out in the order they went
    in. *)
Theorem sort_stable (data : list VulnerabilityData) (field : string) (d : direction)
    (group : VulnerabilityData -> bool) :
  In field sortable_fields ->
  Forall (ranked field) data ->
  Forall (valued field) data ->
  (forall a b, group a = true -> group b = true -> may_precede field d a b) ->
  List.filter group (DataProcessor.sortVulnerabilities data field d)
  = List.filter group data.
Proof.
  intros Hfield Hranked _ Hgroup.
  destruct (sortable_comparator field d Hfield) as (g & Hg & Hspec).
  rewrite (sort_by_keys field d g data Hg Hranked).
  apply (array_sort_stable _ (may_precede field d)).
  - apply may_precede_total.
  - apply may_precede_trans.
  - exact Hspec.
  - exact Hgroup.
Qed.

Lemma sort_stable_witness :
  In "kaiStatus" sortable_fields
  /\ Forall (ranked "kaiStatus") DataProcessor.unscored_first
  /\ Forall (valued "kaiStatus") DataProcessor.unscored_first
  /\ (forall a b,
        String.eqb (kaiStatus a) "needs-review" = true ->
        String.eqb (kaiStatus b) "needs-review" = true ->
        may_precede "kaiStatus" asc a b)
  /\ map id (List.filter (fun a => String.eqb (kaiStatus a) "needs-review")
               (DataProcessor.sortVulnerabilities
                  DataProcessor.unscored_first "kaiStatus" asc))
     = ["a"; "b"].
Proof.
  assert (H : In "kaiStatus" sortable_fields) by (simpl; tauto).
  assert (R : Forall (ranked "kaiStatus") DataProcessor.unscored_first)
    by (repeat constructor; discriminate).
  assert (V : Forall (valued "kaiStatus") DataProcessor.unscored_first)
    by (repeat constructor; discriminate).
  assert (G : forall a b,
             String.eqb (kaiStatus a) "needs-review" = true ->
             String.eqb (kaiStatus b) "needs-review" = true ->
             may_precede "kaiStatus" asc a b).
  { intros a b Ha Hb. apply String.eqb_eq in Ha, Hb.
    unfold may_precede, key_of, get_field. cbn [String.eqb Ascii.eqb Bool.eqb].
    rewrite Ha, Hb. reflexivity. }
  split; [exact H|]. split; [exact R|]. split; [exact V|]. split; [exact G|].
  rewrite (sort_stable DataProcessor.unscored_first "kaiStatus" asc _ H R V G).
  reflexivity.
Defined.

(** X4. Filtering and sorting by a sortable field commute on records that
    all have a value at that field, and a plain severity when the field is
    ['severity']: sorting the filtered records gives the same sequence as
    filtering the sorted ones. *)
Theorem sort_filter_commute (data : list VulnerabilityData) (filters : Filters.t)
    (field : string) (d : direction) :
  In field sortable_fields ->
  Forall (ranked field) data ->
  Forall (valued field) data ->
  DataProcessor.sortVulnerabilities
    (DataProcessor.filterVulnerabilities data filters) field d
  = DataProcessor.filterVulnerabilities
      (DataProcessor.sortVulnerabilities data field d) filters.
Proof.
  intros Hfield Hranked _. rewrite !filterVulnerabilities_spec.
  destruct (sortable_comparator field d Hfield) as (g & Hg & Hspec).
  rewrite (sort_by_keys field d g data Hg Hranked).
  rewrite (sort_by_keys field d g _ Hg).
  2: { apply Forall_forall. intros x Hx. apply list_elem_of_In, filter_In in Hx as [Hx _].
       rewrite Forall_forall in Hranked. apply Hranked, list_elem_of_In, Hx. }
  symmetry. apply (array_sort_filter _ (may_precede field d)).
  - apply may_precede_total.
  - apply may_precede_trans.
  - exact Hspec.
Qed.

Lemma sort_filter_commute_witness :
  In "severity" sortable_fields
  /\ Forall (ranked "severity") DataProcessor.unscored_first
  /\ Forall (valued "severity") DataProcessor.unscored_first
  /\ DataProcessor.sortVulnerabilities
       (DataProcessor.filterVulnerabilities
          DataProcessor.unscored_first DataProcessor.severe_only) "severity" desc
     = DataProcessor.filterVulnerabilities
         (DataProcessor.sortVulnerabilities DataProcessor.unscored_first "severity" desc)
         DataProcessor.severe_only.
Proof.
  assert (H : In "severity" sortable_fields) by (simpl; tauto).
  assert (R : Forall (ranked "severity") DataProcessor.unscored_first)
    by (repeat constructor).
  assert (V : Forall (valued "severity") DataProcessor.unscored_first)
    by (repeat constructor; discriminate).
  split; [exact H|]. split; [exact R|]. split; [exact V|].
  exact (sort_filter_commute DataProcessor.unscored_first DataProcessor.severe_only
           "severity" desc H R V).
Defined.

Lemma riskFactorsCount_label_count (a : VulnerabilityData) :
  riskFactorsCount a = inject_Z (Z.of_nat (label_count a)).
Proof.
  unfold riskFactorsCount, label_count.
  destruct (riskFactors a) as [[|x l]|]; reflexivity.
Qed.

Lemma StronglySorted_weaken {A : Type} (R S : A -> A -> Prop) (l : list A) :
  (forall x y, R x y -> S x y) -> StronglySorted R l -> StronglySorted S l.
Proof.
  intros HRS. induction 1 as [|x l Hl IH Hx]; constructor; [exact IH|].
  eapply Forall_impl; [exact Hx|]. intros y. apply HRS.
Qed.

(** X5. Sorting by ['riskFactorsCount'] returns the records of the input
    ordered by their number of risk-factor labels, a record without a
    [riskFactors] array counting as zero: fewest first for ['asc'], most
    first for ['desc']. *)
Theorem sort_by_label_count (data : list VulnerabilityData) :
  Permutation data (DataProcessor.sortVulnerabilities data "riskFactorsCount" asc)
  /\ StronglySorted (fun a b => label_count a <= label_count b)
       (DataProcessor.sortVulnerabilities data "riskFactorsCount" asc)
  /\ Permutation data (DataProcessor.sortVulnerabilities data "riskFactorsCount" desc)
  /\ StronglySorted (fun a b => label_count b <= label_count a)
       (DataProcessor.sortVulnerabilities data "riskFactorsCount" desc).
Proof.
  assert (H : In "riskFactorsCount" sortable_fields) by (simpl; tauto).
  assert (R : Forall (ranked "riskFactorsCount") data).
  { apply Forall_forall. intros a _ Hfield. discriminate Hfield. }
  split; [apply array_sort_perm|]. split; [|split; [apply array_sort_perm|]].
  - eapply StronglySorted_weaken;
      [|exact (sorted_by_field data "riskFactorsCount" asc H R)].
    intros a b. unfold may_precede, key_of. cbn [String.eqb Ascii.eqb Bool.eqb].
    cbn [key_le sort_key_le]. rewrite !riskFactorsCount_label_count.
    rewrite <- Zle_Qle. lia.
  - eapply StronglySorted_weaken;
      [|exact (sorted_by_field data "riskFactorsCount" desc H R)].
    intros a b. unfold may_precede, key_of. cbn [String.eqb Ascii.eqb Bool.eqb].
    cbn [key_le sort_key_le]. rewrite !riskFactorsCount_label_count.
    rewrite <- Zle_Qle. lia.
Qed.

Lemma append_cons (c : ascii) (s t : string) :
  (String c s ++ t)%string = String c (s ++ t)%string.
Proof. reflexivity. Qed.

Lemma append_empty (t : string) : ("" ++ t)%string = t.
Proof. reflexivity. Qed.

Lemma prefix_occurs (t : string) : forall s,
  String.prefix t s = true <-> exists after, s = (t ++ after)%string.
Proof.
  induction t as [|a t IH]; intros s.
  - destruct s; simpl; (split; [intros _; eexists; reflexivity|reflexivity]).
  - destruct s as [|b s]; simpl.
    + split; [discriminate|]. intros [after H]. discriminate.
    + destruct (ascii_dec a b) as [->|Hne].
      * rewrite IH. split; intros [after H]; exists after.
        -- rewrite H. reflexivity.
        -- rewrite append_cons in H. congruence.
      * split; [discriminate|]. intros [after H]. rewrite append_cons in H. congruence.
Qed.

(** [includes] is the substring test. *)
Lemma includes_occurs (s : string) : forall t,
  includes s t = true <-> occurs_in t s.
Proof.
  unfold occurs_in. induction s as [|c s IH]; intros t.
  - cbn [includes]. rewrite orb_false_r, prefix_occurs. split.
    + intros [after H]. exists "", after. exact H.
    + intros ([|b before] & after & H); [exists after; exact H|discriminate].
  - cbn [includes]. rewrite orb_true_iff, prefix_occurs, IH. split.
    + intros [[after H]|(before & after & H)].
      * exists "", after. exact H.
      * exists (String c before), after. rewrite append_cons, H. reflexivity.
    + intros ([|b before] & after & H).
      * left. exists after. exact H.
      * right. exists before, after. rewrite append_cons in H. congruence.
Qed.

Lemma string_app_assoc (a b c : string) :
  ((a ++ b) ++ c)%string = (a ++ b ++ c)%string.
Proof.
  induction a as [|x a IH]; [reflexivity|].
  rewrite !append_cons, IH. reflexivity.
Qed.

Lemma occurs_in_trans (t u s : string) : occurs_in t u -> occurs_in u s -> occurs_in t s.
Proof.
  intros (b1 & a1 & ->) (b2 & a2 & ->).
  exists (b2 ++ b1)%string, (a1 ++ a2)%string.
  rewrite !string_app_assoc. reflexivity.
Qed.

Lemma same_ignoring_case_truthy (s t : string) :
  same_ignoring_case s t -> truthy_string s = truthy_string t.
Proof.
  unfold same_ignoring_case. intros H.
  destruct s, t; try reflexivity; discriminate.
Qed.

(** ** Search and filters, in words *)

Section FilterMeaning.
Import DataProcessor.

Lemma optional_includes_Some (text term : string) :
  optional_includes (Some text) term = true <-> occurs_in term (toLowerCase text).
Proof. unfold optional_includes. cbn. apply includes_occurs. Qed.

Lemma optional_includes_optional (field : option string) (term : string) :
  optional_includes field term = true
  <-> exists text, field = Some text /\ occurs_in term (toLowerCase text).
Proof.
  destruct field as [text|].
  - rewrite optional_includes_Some. split; [eauto|]. intros (? & [= <-] & H). exact H.
  - split; [discriminate|]. intros (? & [=] & _).
Qed.

Lemma search_match_mentions (term : string) (item : VulnerabilityData) :
  search_match (toLowerCase term) item = true <-> mentions term item.
Proof.
  unfold search_match, mentions.
  rewrite !orb_true_iff, !optional_includes_Some, !optional_includes_optional.
  split.
  - intros [[[[H|H]|H]|(text & Hf & H)]|(text & Hf & H)]; eauto 10.
  - intros (text & [->|[->|[->|[Hf|Hf]]]] & H); eauto 10.
Qed.

Lemma severity_match_iff (levels : list string) (item : VulnerabilityData) :
  severity_match (list_to_set (map toLowerCase levels)) item = true
  <-> exists level, In level levels /\ same_ignoring_case (severity item) level.
Proof.
  unfold severity_match, optional_toLowerCase, same_ignoring_case.
  cbn [option_map]. rewrite or_empty_Some, bool_decide_eq_true, elem_of_list_to_set.
  rewrite list_elem_of_In, in_map_iff. split.
  - intros (level & Heq & Hin). eauto.
  - intros (level & Hin & Heq). eauto.
Qed.

Lemma kaiStatus_match_iff (excluded : list string) (item : VulnerabilityData) :
  kaiStatus_match (list_to_set excluded) item = true <-> ~ In (kaiStatus item) excluded.
Proof.
  unfold kaiStatus_match.
  rewrite negb_true_iff, bool_decide_eq_false, elem_of_list_to_set, list_elem_of_In.
  reflexivity.
Qed.

Lemma criteria_meets (filters : Filters.t) (item : VulnerabilityData) :
  search_criterion filters item && severity_criterion filters item
    && riskFactor_criterion filters item && kaiStatus_criterion filters item = true
  <-> meets filters item.
Proof.
  unfold meets, search_criterion, severity_criterion, riskFactor_criterion,
    kaiStatus_criterion.
  rewrite !andb_true_iff.
  destruct filters as [term levels requested excluded].
  cbn [Filters.searchTerm Filters.severities Filters.riskFactors Filters.excludeKaiStatus].
  assert (H1 : match term with
               | Some term =>
                   if truthy_string term then search_match (toLowerCase term) item else true
               | None => true
               end = true
               <-> forall t, term = Some t -> t <> "" -> mentions t item).
  { destruct term as [[|c t]|]; cbn [truthy_string].
    - split; [|reflexivity]. intros _ t [= <-] Hne. congruence.
    - rewrite search_match_mentions. split.
      + intros H t' [= <-] _. exact H.
      + intros H. apply (H _ eq_refl). discriminate.
    - split; [|reflexivity]. intros _ t [=]. }
  assert (H2 : match nonempty_array levels with
               | Some l => severity_match (list_to_set (map toLowerCase l)) item
               | None => true
               end = true
               <-> forall l, levels = Some l -> l <> [] ->
                     exists level, In level l /\ same_ignoring_case (severity item) level).
  { destruct levels as [[|x l]|]; cbn [nonempty_array].
    - split; [|reflexivity]. intros _ l [= <-] Hne. congruence.
    - rewrite severity_match_iff. split.
      + intros H l' [= <-] _. exact H.
      + intros H. apply (H _ eq_refl). discriminate.
    - split; [|reflexivity]. intros _ l [=]. }
  assert (H3 : match nonempty_array requested with
               | Some l => riskFactor_match (list_to_set l) item
               | None => true
               end = true
               <-> forall l, requested = Some l -> l <> [] ->
                     exists labels label,
                       riskFactors item = Some labels /\ In label labels /\ In label l).
  { destruct requested as [[|x l]|]; cbn [nonempty_array].
    - split; [|reflexivity]. intros _ l [= <-] Hne. congruence.
    - rewrite riskFactor_match_iff. unfold has_requested_label. split.
      + intros [_ H] l' [= <-] _. exact H.
      + intros H. specialize (H _ eq_refl ltac:(discriminate)). split; [|exact H].
        destruct H as (labels & label & Hsome & Hin & _).
        exists labels. split; [exact Hsome|]. intros ->. destruct Hin.
    - split; [|reflexivity]. intros _ l [=]. }
  assert (H4 : match nonempty_array excluded with
               | Some l => kaiStatus_match (list_to_set l) item
               | None => true
               end = true
               <-> forall l, excluded = Some l -> ~ In (kaiStatus item) l).
  { destruct excluded as [[|x l]|]; cbn [nonempty_array].
    - split; [|reflexivity]. intros _ l [= <-] [].
    - rewrite kaiStatus_match_iff. split.
      + intros H l' [= <-]. exact H.
      + intros H. apply (H _ eq_refl).
    - split; [|reflexivity]. intros _ l [=]. }
  rewrite H1, H2, H3, H4. tauto.
Qed.

Lemma filter_sublist {A : Type} (p : A -> bool) (l : list A) :
  sublist (List.filter p l) l.
Proof.
  induction l as [|x l IH]; simpl; [constructor|].
  destruct (p x); [apply sublist_skip|apply sublist_cons]; exact IH.
Qed.
End FilterMeaning.

(** X6. [filterVulnerabilities] keeps, in their input order, exactly the
    records that meet every active criterion: the search term occurs, whatever
    the case, in the package, severity, status, CVE or description; the
    severity is one of the requested levels, whatever the case; one of the
    labels is a requested one; the status is not an excluded one. *)
Theorem filter_meets (data : list VulnerabilityData) (filters : Filters.t) :
  sublist (DataProcessor.filterVulnerabilities data filters) data
  /\ forall item,
       In item (DataProcessor.filterVulnerabilities data filters)
       <-> In item data /\ meets filters item.
Proof.
  rewrite filterVulnerabilities_spec. split; [apply filter_sublist|].
  intros item. rewrite filter_In, criteria_meets. reflexivity.
Qed.

(** X7. The search ignores the case of the term: two terms that differ only
    in case select the same records. *)
Theorem search_ignores_case (data : list VulnerabilityData) (term term' : string) :
  same_ignoring_case term term' ->
  DataProcessor.searchVulnerabilities data term
  = DataProcessor.searchVulnerabilities data term'.
Proof.
  intros Hsame. unfold DataProcessor.searchVulnerabilities.
  rewrite (same_ignoring_case_truthy term term' Hsame).
  unfold same_ignoring_case in Hsame. rewrite Hsame. reflexivity.
Qed.

Lemma search_ignores_case_witness :
  same_ignoring_case "OpenSSL" "openssl"
  /\ DataProcessor.searchVulnerabilities DataProcessor.unscored_first "OpenSSL"
     = DataProcessor.searchVulnerabilities DataProcessor.unscored_first "openssl".
Proof.
  assert (H : same_ignoring_case "OpenSSL" "openssl") by reflexivity.
  split; [exact H|].
  exact (search_ignores_case DataProcessor.unscored_first "OpenSSL" "openssl" H).
Defined.

(** X8. Extending the search term narrows the result: when the term [short]
    occurs, whatever the case, in the term [long], searching for [long] within
    the result for [short] gives the result for [long], which is therefore no
    longer than the result for [short]. *)
Theorem search_narrows (data : list VulnerabilityData) (short long : string) :
  occurs_in (toLowerCase short) (toLowerCase long) ->
  DataProcessor.searchVulnerabilities
    (DataProcessor.searchVulnerabilities data short) long
  = DataProcessor.searchVulnerabilities data long
  /\ length (DataProcessor.searchVulnerabilities data long)
     <= length (DataProcessor.searchVulnerabilities data short).
Proof.
  intros Hocc.
  assert (Heq : DataProcessor.searchVulnerabilities
                  (DataProcessor.searchVulnerabilities data short) long
                = DataProcessor.searchVulnerabilities data long).
  { unfold DataProcessor.searchVulnerabilities.
    destruct long as [|c long].
    { destruct short as [|c short]; [reflexivity|].
      destruct Hocc as ([|b before] & after & H); discriminate. }
    destruct (truthy_string short) eqn:Hshort; cbn [negb truthy_string]; [|reflexivity].
    rewrite filter_filter. apply filter_ext_in. intros item _.
    destruct (DataProcessor.search_match (toLowerCase (String c long)) item) eqn:Hlong;
      [|apply andb_false_r].
    rewrite andb_true_r.
    apply search_match_mentions in Hlong as (text & Hfield & Hin).
    apply search_match_mentions. exists text. split; [exact Hfield|].
    eapply occurs_in_trans; eassumption. }
  split; [exact Heq|].
  rewrite <- Heq. unfold DataProcessor.searchVulnerabilities at 1.
  destruct (negb (truthy_string long)); [reflexivity|apply filter_length_le].
Qed.

Lemma search_narrows_witness :
  occurs_in (toLowerCase "SSL") (toLowerCase "openssl")
  /\ length (DataProcessor.searchVulnerabilities DataProcessor.unscored_first "openssl")
     <= length (DataProcessor.searchVulnerabilities DataProcessor.unscored_first "SSL").
Proof.
  assert (H : occurs_in (toLowerCase "SSL") (toLowerCase "openssl")).
  { exists "open", "". reflexivity. }
  split; [exact H|].
  exact (proj2 (search_narrows DataProcessor.unscored_first "SSL" "openssl" H)).
Defined.

(** X9. [filterByKaiStatus] and the status-exclusion criterion of
    [filterVulnerabilities] agree: with no other criterion the two functions
    return the same records for every exclusion list, the empty one
    included. *)
Theorem filterByKaiStatus_agrees (data : list VulnerabilityData) (excluded : list string) :
  DataProcessor.filterByKaiStatus data excluded
  = DataProcessor.filterVulnerabilities data (Filters.mk None None None (Some excluded)).
Proof.
  rewrite filterVulnerabilities_spec. unfold DataProcessor.filterByKaiStatus.
  apply filter_ext. intros item.
  unfold DataProcessor.search_criterion, DataProcessor.severity_criterion,
    DataProcessor.riskFactor_criterion, DataProcessor.kaiStatus_criterion.
  cbn [Filters.searchTerm Filters.severities Filters.riskFactors
         Filters.excludeKaiStatus DataProcessor.nonempty_array andb].
  destruct excluded as [|x l]; [reflexivity|].
  cbn [DataProcessor.nonempty_array].
  apply eq_true_iff_eq. rewrite kaiStatus_match_iff.
  unfold array_includes. rewrite negb_true_iff, <- not_true_iff_false, existsb_exists.
  split.
  - intros Hno Hin. apply Hno. exists (kaiStatus item). split; [exact Hin|].
    apply String.eqb_refl.
  - intros Hno (y & Hin & Heq). apply String.eqb_eq in Heq. subst y. exact (Hno Hin).
Qed.

Lemma filter_complement_length {A : Type} (p : A -> bool) (l : list A) :
  length (List.filter p l) + length (List.filter (fun x => negb (p x)) l) = length l.
Proof.
  induction l as [|x l IH]; simpl; [reflexivity|].
  destruct (p x); simpl; lia.
Qed.

(** X10. The KAI breakdown counts what the two analysis filters remove:
    excluding ['invalid - norisk'] leaves [total] minus the first bucket,
    excluding ['ai-invalid-norisk'] leaves [total] minus the second, and
    excluding both leaves exactly the [other] bucket. *)
Theorem kaiStatus_filters_match_breakdown (data : list VulnerabilityData) :
  let m := DataProcessor.processVulnerabilityData data in
  let k := kaiStatusBreakdown m in
  length (DataProcessor.filterByKaiStatus data ["invalid - norisk"]) + invalid_norisk k
  = total m
  /\ length (DataProcessor.filterByKaiStatus data ["ai-invalid-norisk"])
     + ai_invalid_norisk k = total m
  /\ length (DataProcessor.filterByKaiStatus data
               ["invalid - norisk"; "ai-invalid-norisk"]) = other k.
Proof.
  cbn zeta. unfold DataProcessor.processVulnerabilityData, DataProcessor.filterByKaiStatus.
  cbn [kaiStatusBreakdown total invalid_norisk ai_invalid_norisk other].
  split; [|split; [|reflexivity]].
  - rewrite <- (filter_complement_length
                  (fun d => String.eqb (kaiStatus d) "invalid - norisk") data).
    rewrite Nat.add_comm. f_equal. f_equal. apply filter_ext. intros d.
    unfold array_includes. simpl. rewrite orb_false_r. reflexivity.
  - rewrite <- (filter_complement_length
                  (fun d => String.eqb (kaiStatus d) "ai-invalid-norisk") data).
    rewrite Nat.add_comm. f_equal. f_equal. apply filter_ext. intros d.
    unfold array_includes. simpl. rewrite orb_false_r. reflexivity.
Qed.

Lemma list_filter_length_Forall {A : Type} (p : A -> bool) (P : A -> Prop)
    `{!forall x, Decision (P x)} (l : list A) :
  (forall x, p x = true <-> P x) ->
  length (List.filter p l) = length (filter P l).
Proof.
  intros Hp. induction l as [|x l IH]; [reflexivity|].
  simpl. rewrite filter_cons.
  destruct (p x) eqn:Hx; destruct (decide (P x)) as [HP|HP]; simpl;
    try (rewrite IH; reflexivity).
  - apply Hp in Hx. contradiction.
  - apply Hp in HP. congruence.
Qed.

(** X11. The severity distribution and the severity filter agree: for each
    of the four levels, the bucket of the metrics is the number of records
    that a filter on that level alone returns. *)
Theorem severity_bucket_is_filter_count (data : list VulnerabilityData) (level : string) :
  In level SEVERITIES ->
  severityDistribution (DataProcessor.processVulnerabilityData data) !! toLowerCase level
  = Some (Count (length (DataProcessor.filterVulnerabilities data
                           (Filters.mk None (Some [level]) None None)))).
Proof.
  intros Hlevel.
  assert (Hcount : length (DataProcessor.filterVulnerabilities data
                             (Filters.mk None (Some [level]) None None))
                   = count_severity level data).
  { rewrite filterVulnerabilities_spec. unfold count_severity.
    apply list_filter_length_Forall. intros item.
    unfold DataProcessor.search_criterion, DataProcessor.severity_criterion,
      DataProcessor.riskFactor_criterion, DataProcessor.kaiStatus_criterion.
    cbn [Filters.searchTerm Filters.severities Filters.riskFactors
           Filters.excludeKaiStatus DataProcessor.nonempty_array andb].
    rewrite !andb_true_r, severity_match_iff. split.
    - intros (l & [<-|[]] & H). exact H.
    - intros H. exists level. split; [left; reflexivity|exact H]. }
  rewrite Hcount.
  unfold DataProcessor.processVulnerabilityData. cbn [severityDistribution].
  rewrite groupBySeverity_counts.
  match goal with |- DataProcessor.distribution ?b ?c ?h ?m ?l !! _ = _ =>
    destruct (distribution_lookup b c h m l) as (Hc & Hh & Hm & Hl)
  end.
  unfold SEVERITIES in Hlevel. simpl in Hlevel.
  destruct Hlevel as [<-|[<-|[<-|[<-|[]]]]]; assumption.
Qed.

Lemma severity_bucket_is_filter_count_witness :
  In "High" SEVERITIES
  /\ severityDistribution
       (DataProcessor.processVulnerabilityData DataProcessor.unscored_first) !! "high"
     = Some (Count 1).
Proof.
  assert (H : In "High" SEVERITIES) by (simpl; tauto).
  split; [exact H|].
  exact (severity_bucket_is_filter_count DataProcessor.unscored_first "High" H).
Defined.

(** X12. Applying two criteria objects one after the other gives the same
    records in either order, and applying one criteria object twice gives
    what applying it once gives. *)
Theorem filter_compose (data : list VulnerabilityData) (f g : Filters.t) :
  DataProcessor.filterVulnerabilities (DataProcessor.filterVulnerabilities data f) g
  = DataProcessor.filterVulnerabilities (DataProcessor.filterVulnerabilities data g) f
  /\ DataProcessor.filterVulnerabilities (DataProcessor.filterVulnerabilities data f) f
     = DataProcessor.filterVulnerabilities data f.
Proof.
  rewrite !filterVulnerabilities_spec, !filter_filter. split.
  - apply filter_ext. intros item. apply andb_comm.
  - apply filter_ext. intros item. apply andb_diag.
Qed.

Section RiskFrequency.
Import DataProcessor.

Lemma add_one_ne (o : gmap string counter) (key label : string) :
  key <> label -> add_one o key !! label = o !! label.
Proof.
  intros Hne. unfold add_one.
  destruct (o !! key) as [[n| |]|]; try (apply lookup_insert_ne; exact Hne).
  destruct (inherited key); [destruct (String.eqb key "__proto__")|];
    try reflexivity; apply lookup_insert_ne; exact Hne.
Qed.

(** What the frequency map holds under a label that occurred [n] times: for
    a name that plain objects inherit, the text that [+ 1] made of the
    inherited value; for any other, the count. *)
Lemma add_one_counts (factors : list string) (label : string) :
  label <> "__proto__" ->
  forall (o : gmap string counter) (n : nat),
  o !! label
  = (if n =? 0 then None else Some (if inherited label then Text else Count n)) ->
  fold_left add_one factors o !! label
  = (if n + count_occ string_dec factors label =? 0 then None
     else Some (if inherited label then Text
                else Count (n + count_occ string_dec factors label))).
Proof.
  intros Hproto. induction factors as [|x factors IH]; intros o n Ho.
  - cbn [fold_left count_occ]. rewrite Nat.add_0_r. exact Ho.
  - cbn [fold_left count_occ]. destruct (string_dec x label) as [->|Hne].
    + replace (n + S (count_occ string_dec factors label))
        with (S n + count_occ string_dec factors label) by lia.
      apply IH. cbn [Nat.eqb]. unfold add_one. rewrite Ho.
      destruct n as [|n]; cbn [Nat.eqb].
      * destruct (inherited label).
        -- apply String.eqb_neq in Hproto. rewrite Hproto. apply lookup_insert_eq.
        -- apply lookup_insert_eq.
      * destruct (inherited label); rewrite lookup_insert_eq;
          [reflexivity|do 2 f_equal; lia].
    + apply IH. rewrite add_one_ne by exact Hne. exact Ho.
Qed.

Lemma add_one_proto (factors : list string) : forall o : gmap string counter,
  o !! "__proto__" = None -> fold_left add_one factors o !! "__proto__" = None.
Proof.
  induction factors as [|x factors IH]; intros o Ho; [exact Ho|].
  cbn [fold_left]. apply IH.
  destruct (string_dec x "__proto__") as [->|Hne].
  - unfold add_one. rewrite Ho.
    change (inherited "__proto__") with true.
    change (String.eqb "__proto__" "__proto__") with true. exact Ho.
  - rewrite add_one_ne by exact Hne. exact Ho.
Qed.

(** The map is filled label by label, whatever the record a label is of. *)
Lemma count_factors_labels (data : list risk_factors) : forall o : gmap string counter,
  fold_left count_factors data o = fold_left add_one (labels_of data) o.
Proof.
  induction data as [|r data IH]; intros o; [reflexivity|].
  cbn [fold_left]. unfold labels_of. cbn [map concat]. fold (labels_of data).
  rewrite fold_left_app, IH. destruct r; reflexivity.
Qed.

Lemma labels_of_records (data : list VulnerabilityData) :
  labels_of (map factors_of data) = all_labels data.
Proof.
  unfold labels_of, all_labels. rewrite map_map. f_equal. apply map_ext.
  intros d. unfold factors_of. destruct (riskFactors d); reflexivity.
Qed.
End RiskFrequency.

(** X13. [calculateRiskFrequency] maps each label that is no property name
    of [Object.prototype] to the number of its occurrences over all the
    records, duplicates within a record included, and a label that occurs
    nowhere is no key of the map; this holds of the labels of the arrays and
    of the keys of the objects of the legacy format alike. A label that is
    such a property name is mapped to a text and not to a number, but for
    ['__proto__'], which is never a key of the map. *)
Theorem riskFrequency_counts (data : list VulnerabilityData)
    (parsed : list DataProcessor.risk_factors) (label : string) :
  (inherited label = false ->
   DataProcessor.calculateRiskFrequency data !! label
   = (if count_occ string_dec (all_labels data) label =? 0 then None
      else Some (Count (count_occ string_dec (all_labels data) label)))
   /\ DataProcessor.calculateRiskFrequency_parsed parsed !! label
      = (if count_occ string_dec (labels_of parsed) label =? 0 then None
         else Some (Count (count_occ string_dec (labels_of parsed) label))))
  /\ (inherited label = true -> label <> "__proto__" ->
      DataProcessor.calculateRiskFrequency_parsed parsed !! label
      = (if count_occ string_dec (labels_of parsed) label =? 0 then None
         else Some Text))
  /\ DataProcessor.calculateRiskFrequency_parsed parsed !! "__proto__" = None
  /\ DataProcessor.calculateRiskFrequency data
     = DataProcessor.calculateRiskFrequency_parsed (map DataProcessor.factors_of data).
Proof.
  assert (Hcounts : forall l : list DataProcessor.risk_factors,
            label <> "__proto__" ->
            DataProcessor.calculateRiskFrequency_parsed l !! label
            = (if count_occ string_dec (labels_of l) label =? 0 then None
               else Some (if inherited label then Text
                          else Count (count_occ string_dec (labels_of l) label)))).
  { intros l Hproto. unfold DataProcessor.calculateRiskFrequency_parsed.
    rewrite count_factors_labels.
    apply (add_one_counts (labels_of l) label Hproto ∅ 0). apply lookup_empty. }
  split.
  { intros Hplain.
    assert (Hproto : label <> "__proto__") by (intros ->; discriminate Hplain).
    split.
    - unfold DataProcessor.calculateRiskFrequency.
      rewrite (Hcounts _ Hproto), labels_of_records, Hplain. reflexivity.
    - rewrite (Hcounts _ Hproto), Hplain. reflexivity. }
  split.
  { intros Hinherited Hproto. rewrite (Hcounts _ Hproto), Hinherited. reflexivity. }
  split; [|reflexivity].
  unfold DataProcessor.calculateRiskFrequency_parsed. rewrite count_factors_labels.
  apply add_one_proto, lookup_empty.
Qed.

Lemma riskFrequency_counts_witness :
  inherited "network" = false
  /\ DataProcessor.calculateRiskFrequency_parsed
       [DataProcessor.Labels ["network"; "constructor"];
        DataProcessor.Legacy ["network"; "__proto__"]] !! "network"
     = Some (Count 2)
  /\ DataProcessor.calculateRiskFrequency_parsed
       [DataProcessor.Labels ["network"; "constructor"];
        DataProcessor.Legacy ["network"; "__proto__"]] !! "constructor"
     = Some Text.
Proof.
  assert (H : inherited "network" = false) by reflexivity.
  assert (H' : inherited "constructor" = true) by reflexivity.
  assert (H'' : "constructor" <> "__proto__") by discriminate.
  split; [exact H|]. split.
  - exact (proj2 (proj1 (riskFrequency_counts []
                           [DataProcessor.Labels ["network"; "constructor"];
                            DataProcessor.Legacy ["network"; "__proto__"]] "network") H)).
  - exact (proj1 (proj2 (riskFrequency_counts []
                           [DataProcessor.Labels ["network"; "constructor"];
                            DataProcessor.Legacy ["network"; "__proto__"]] "constructor"))
             H' H'').
Defined.

(** ** The per-record normalization, record by record *)

Section NormalizerRecords.
Import DataLoader.

Lemma index_string_inj (i j : nat) : index_string i = index_string j -> i = j.
Proof.
  unfold index_string. intros H.
  apply DecimalNat.Unsigned.to_uint_inj.
  assert (Hs : Some (Nat.to_uint i) = Some (Nat.to_uint j)).
  { rewrite <- !NilEmpty.usu, H. reflexivity. }
  congruence.
Qed.

Lemma string_app_inj (prefix s t : string) :
  (prefix ++ s)%string = (prefix ++ t)%string -> s = t.
Proof.
  induction prefix as [|c prefix IH]; [auto|].
  rewrite !append_cons. intros [= H]. auto.
Qed.




(** The records of the output, position by position. *)
Lemma map_from_lookup (data : list element) : forall index out,
  map_from index data = Ok out ->
  length out = length data
  /\ forall i item, data !! i = Some item ->
       exists item', out !! i = Some item'
                     /\ normalize_item item (index + i) = Ok item'.
Proof.
  induction data as [|x data IH]; intros index out; cbn [map_from].
  - intros [= <-]. split; [reflexivity|]. intros i item H. discriminate.
  - destruct (normalize_item x index) as [x'|] eqn:Hx; [|discriminate].
    destruct (map_from (S index) data) as [rest|] eqn:Hrest; [|discriminate].
    intros [= <-]. destruct (IH _ _ Hrest) as [Hlen Hget].
    split; [simpl; congruence|].
    intros [|i] item Hitem.
    + injection Hitem as <-. exists x'. rewrite Nat.add_0_r. auto.
    + destruct (Hget i item Hitem) as (item' & Hout & Hnorm).
      exists item'. split; [exact Hout|].
      rewrite <- Nat.add_succ_comm. exact Hnorm.
Qed.

Lemma map_from_error (data : list element) : forall index,
  map_from index data = TypeError
  <-> exists item, In item data /\ forall i, normalize_item item i = TypeError.
Proof.
  assert (Hsame : forall item i j,
            normalize_item item i = TypeError -> normalize_item item j = TypeError).
  { intros [|props|own] i j; cbn [normalize_item]; [reflexivity| |discriminate].
    unfold normalize_object. destruct (normalized_severity props); [discriminate|].
    reflexivity. }
  induction data as [|x data IH]; intros index; cbn [map_from].
  - split; [discriminate|]. intros (? & [] & _).
  - destruct (normalize_item x index) as [x'|] eqn:Hx.
    + destruct (map_from (S index) data) as [rest|] eqn:Hrest.
      * split; [discriminate|]. intros (item & [<-|Hin] & Herr).
        -- rewrite Herr in Hx. discriminate.
        -- assert (H : map_from (S index) data = TypeError) by (apply IH; eauto).
           congruence.
      * split; [|reflexivity]. intros _.
        apply IH in Hrest as (item & Hin & Herr). exists item. split; [right|]; assumption.
    + split; [|reflexivity]. intros _. exists x. split; [left; reflexivity|].
      intros i. eapply Hsame. exact Hx.
Qed.

Lemma normalized_severity_error (item : gmap string value) :
  normalized_severity item = TypeError
  <-> truthy (prop item "severity") = true
      /\ forall s, prop item "severity" <> VString s.
Proof.
  unfold normalized_severity.
  destruct (prop item "severity") as [| |b|n|s|l|r]; cbn [truthy];
    [ | |destruct b|destruct (negb (Qeq_bool n 0))|destruct (truthy_string s)| | ];
    (split;
     [ first [discriminate|intros _; split; [reflexivity|discriminate]]
     | first [reflexivity
             |intros [H _]; discriminate
             |intros [_ H]; exfalso; exact (H _ eq_refl)] ]).
Qed.

Lemma prop_id_normalized (item : gmap string value) (sev new_id : value) :
  prop (<["severity" := sev]> (<["id" := new_id]> item)) "id" = new_id.
Proof.
  unfold prop. rewrite lookup_insert_ne by discriminate.
  rewrite lookup_insert_eq. reflexivity.
Qed.


(** The id of a normalized element. *)
Lemma normalize_item_id (item : element) (index : nat) (item' : gmap string value) :
  normalize_item item index = Ok item' ->
  prop item' "id"
  = (if truthy (element_prop item "id") then element_prop item "id"
     else VString ("vuln-" ++ index_string index)%string).
Proof.
  destruct item as [|props|own]; cbn [normalize_item element_prop truthy];
    [discriminate| |].
  - unfold normalize_object.
    destruct (normalized_severity props) as [sev|]; [|discriminate].
    intros [= <-]. rewrite prop_id_normalized. reflexivity.
  - intros [= <-]. rewrite prop_id_normalized. reflexivity.
Qed.
End NormalizerRecords.



(** X15. The ids the normalization makes up are pairwise distinct: two
    elements at different positions, neither with a truthy id, leave with
    different ids. *)
Theorem generated_ids_distinct (data : list DataLoader.element)
    (out : list (gmap string value)) (i j : nat)
    (a b : DataLoader.element) (a' b' : gmap string value) :
  DataLoader.processedData data = Ok out ->
  i <> j ->
  data !! i = Some a -> data !! j = Some b ->
  truthy (DataLoader.element_prop a "id") = false ->
  truthy (DataLoader.element_prop b "id") = false ->
  out !! i = Some a' -> out !! j = Some b' ->
  prop a' "id" <> prop b' "id".
Proof.
  unfold DataLoader.processedData. intros Hout Hij Ha Hb Hta Htb Ha' Hb' Heq.
  destruct (map_from_lookup data 0 out Hout) as [_ Hget].
  destruct (Hget i a Ha) as (a2 & Ha2 & Hna). destruct (Hget j b Hb) as (b2 & Hb2 & Hnb).
  simpl in Hna, Hnb. rewrite Ha' in Ha2. rewrite Hb' in Hb2.
  injection Ha2 as <-. injection Hb2 as <-.
  rewrite (normalize_item_id a i a' Hna), (normalize_item_id b j b' Hnb) in Heq.
  rewrite Hta, Htb in Heq.
  injection Heq as Heq. apply string_app_inj, index_string_inj in Heq. contradiction.
Qed.

Lemma generated_ids_distinct_witness :
  DataLoader.processedData [DataLoader.EObject ∅; DataLoader.EObject ∅] = Ok
    [ <["severity" := VUndefined]> (<["id" := VString "vuln-0"]> ∅);
      <["severity" := VUndefined]> (<["id" := VString "vuln-1"]> ∅) ]
  /\ VString "vuln-0" <> VString "vuln-1".
Proof.
  assert (H : DataLoader.processedData [DataLoader.EObject ∅; DataLoader.EObject ∅] = Ok
    [ <["severity" := VUndefined]> (<["id" := VString "vuln-0"]> ∅);
      <["severity" := VUndefined]> (<["id" := VString "vuln-1"]> ∅) ]) by reflexivity.
  split; [exact H|].
  exact (generated_ids_distinct [DataLoader.EObject ∅; DataLoader.EObject ∅] _ 0 1
           (DataLoader.EObject ∅) (DataLoader.EObject ∅) _ _ H ltac:(discriminate)
           eq_refl eq_refl eq_refl eq_refl eq_refl eq_refl).
Defined.

(** X16. The normalization fails, with a [TypeError], exactly when some
    element of the array is [null], which has no property [id], or is an
    object with a truthy severity that is not a string (a number other than
    zero, [true], an array or an object): such a value has no [charAt]. A
    missing, [null] or empty severity never makes it fail, and neither does
    an element that is a number, a boolean, a string or an array. *)
Theorem normalization_fails_iff (data : list DataLoader.element) :
  DataLoader.processedData data = TypeError
  <-> exists item,
        In item data
        /\ (item = DataLoader.ENull
            \/ exists props,
                 item = DataLoader.EObject props
                 /\ truthy (prop props "severity") = true
                 /\ forall s, prop props "severity" <> VString s).
Proof.
  unfold DataLoader.processedData. rewrite map_from_error.
  split; intros (item & Hin & H); exists item; (split; [exact Hin|]).
  - specialize (H 0). destruct item as [|props|own]; cbn [DataLoader.normalize_item] in H.
    + left. reflexivity.
    + right. exists props. split; [reflexivity|].
      apply normalized_severity_error. unfold DataLoader.normalize_object in H.
      destruct (DataLoader.normalized_severity props); [discriminate|reflexivity].
    + discriminate.
  - intros i. destruct H as [->|(props & -> & H)]; [reflexivity|].
    cbn [DataLoader.normalize_item]. unfold DataLoader.normalize_object.
    apply normalized_severity_error in H. rewrite H. reflexivity.
Qed.

(** ** The comparison list and the compare icon *)

Section ComparisonMembership.
Import MainDashboard VirtualizedTable.

Lemma isInComparison_In (l : list VulnerabilityData) (item : VulnerabilityData) :
  isInComparison (Some l) item = true <-> In (id item) (map id l).
Proof.
  unfold isInComparison. rewrite existsb_exists, in_map_iff. split.
  - intros (v & Hin & Heq). apply String.eqb_eq in Heq. eauto.
  - intros (v & Heq & Hin). exists v. split; [exact Hin|]. apply String.eqb_eq, Heq.
Qed.

Lemma add_ids (l : list VulnerabilityData) (item : VulnerabilityData) (i : string) :
  In i (map id (handleAddToComparison l item)) <-> In i (map id l) \/ i = id item.
Proof.
  unfold handleAddToComparison.
  destruct (find _ l) eqn:Hfind.
  - split; [tauto|]. intros [H| ->]; [exact H|].
    destruct (find_by_id l item) as [_ Hnone].
    destruct (in_dec string_dec (id item) (map id l)) as [Hin|Hnot]; [exact Hin|].
    rewrite (Hnone Hnot) in Hfind. discriminate.
  - rewrite map_app, in_app_iff. simpl. intuition congruence.
Qed.

Lemma remove_ids (l : list VulnerabilityData) (id0 i : string) :
  In i (map id (handleRemoveFromComparison l id0)) <-> In i (map id l) /\ i <> id0.
Proof.
  unfold handleRemoveFromComparison. rewrite !in_map_iff. split.
  - intros (v & Heq & Hin). apply filter_In in Hin as [Hin Hne].
    apply negb_true_iff, String.eqb_neq in Hne. split; [eauto|congruence].
  - intros [(v & Heq & Hin) Hne]. exists v. split; [exact Heq|].
    apply filter_In. split; [exact Hin|]. apply negb_true_iff, String.eqb_neq. congruence.
Qed.

Lemma remove_absent (l : list VulnerabilityData) (id0 : string) :
  ~ In id0 (map id l) -> handleRemoveFromComparison l id0 = l.
Proof.
  unfold handleRemoveFromComparison. induction l as [|v l IH]; simpl; [reflexivity|].
  intros Hnot. destruct (String.eqb_spec (id v) id0) as [Heq|Hne]; simpl.
  - exfalso. apply Hnot. left. exact Heq.
  - rewrite IH; [reflexivity|]. tauto.
Qed.
End ComparisonMembership.

(** X17. The compare icon follows the comparison list: right after a record
    is added its icon shows it as selected, right after its id is removed the
    icon shows it as not selected, and neither action changes the icon of a
    record with another id. *)
Theorem compare_icon_follows_list (comparisonList : list VulnerabilityData)
    (item other : VulnerabilityData) :
  VirtualizedTable.isInComparison
    (Some (MainDashboard.handleAddToComparison comparisonList item)) item = true
  /\ VirtualizedTable.isInComparison
       (Some (MainDashboard.handleRemoveFromComparison comparisonList (id item))) item
     = false
  /\ (id other <> id item ->
      VirtualizedTable.isInComparison
        (Some (MainDashboard.handleAddToComparison comparisonList item)) other
      = VirtualizedTable.isInComparison (Some comparisonList) other
      /\ VirtualizedTable.isInComparison
           (Some (MainDashboard.handleRemoveFromComparison comparisonList (id item))) other
         = VirtualizedTable.isInComparison (Some comparisonList) other).
Proof.
  split; [apply isInComparison_In, add_ids; right; reflexivity|].
  split.
  { apply not_true_iff_false. rewrite isInComparison_In, remove_ids. tauto. }
  intros Hne. split; apply eq_true_iff_eq; rewrite !isInComparison_In.
  - rewrite add_ids. tauto.
  - rewrite remove_ids. tauto.
Qed.

(** X18. Adding never disturbs what is in the comparison list: the list
    before is a prefix of the list after, which is at most one record longer.
    Removing the id of a record that was just added to a list without that
    id gives back the list. *)
Theorem comparison_add_then_remove (comparisonList : list VulnerabilityData)
    (item : VulnerabilityData) :
  comparisonList `prefix_of` MainDashboard.handleAddToComparison comparisonList item
  /\ length (MainDashboard.handleAddToComparison comparisonList item)
     <= S (length comparisonList)
  /\ (~ In (id item) (map id comparisonList) ->
      MainDashboard.handleRemoveFromComparison
        (MainDashboard.handleAddToComparison comparisonList item) (id item)
      = comparisonList).
Proof.
  unfold MainDashboard.handleAddToComparison.
  destruct (find _ comparisonList) eqn:Hfind.
  - split; [reflexivity|]. split; [lia|]. intros Hnot.
    apply find_by_id in Hnot. congruence.
  - split; [apply prefix_app_r; reflexivity|].
    split; [rewrite length_app; simpl; lia|]. intros Hnot.
    unfold MainDashboard.handleRemoveFromComparison. rewrite List.filter_app. simpl.
    rewrite String.eqb_refl. simpl. rewrite app_nil_r.
    apply remove_absent, Hnot.
Qed.

(** ** The sort hook and the sort worker *)

Lemma worker_sorts_as_main (data : list VulnerabilityData) (field : string) (d : direction) :
  SortWorker.sortVulnerabilities data field d = DataProcessor.sortVulnerabilities data field d.
Proof.
  unfold SortWorker.sortVulnerabilities, DataProcessor.sortVulnerabilities.
  apply array_sort_ext. intros a b. apply worker_compare_agrees.
Qed.

Section SortHook.
Import useSortWorker.
Context {callback : Type}.
Implicit Types (r : refs callback) (m : list (nat * callback)).

Lemma map_get_None requestId m :
  map_get requestId m = None <-> ~ In requestId (map fst m).
Proof.
  unfold map_get. induction m as [|[k c] m IH]; simpl; [tauto|].
  destruct (Nat.eqb_spec k requestId) as [->|Hne]; simpl.
  - split; [discriminate|]. tauto.
  - rewrite IH. tauto.
Qed.

Lemma map_set_fresh requestId (c : callback) m :
  ~ In requestId (map fst m) -> map_set requestId c m = m ++ [(requestId, c)].
Proof.
  induction m as [|[k c'] m IH]; simpl; [reflexivity|]. intros Hnot.
  destruct (Nat.eqb_spec k requestId) as [->|Hne]; [tauto|].
  rewrite IH; [reflexivity|tauto].
Qed.

Lemma map_get_last requestId (c : callback) m :
  ~ In requestId (map fst m) -> map_get requestId (m ++ [(requestId, c)]) = Some c.
Proof.
  unfold map_get. induction m as [|[k c'] m IH]; simpl.
  - intros _. rewrite Nat.eqb_refl. reflexivity.
  - intros Hnot. destruct (Nat.eqb_spec k requestId) as [->|Hne]; [tauto|].
    apply IH. tauto.
Qed.

Lemma map_delete_absent requestId m :
  ~ In requestId (map fst m) -> map_delete requestId m = m.
Proof.
  unfold map_delete. induction m as [|[k c] m IH]; simpl; [reflexivity|]. intros Hnot.
  destruct (Nat.eqb_spec k requestId) as [->|Hne]; [tauto|].
  simpl. rewrite IH; [reflexivity|tauto].
Qed.

Lemma map_delete_gone requestId m : map_get requestId (map_delete requestId m) = None.
Proof.
  apply map_get_None. unfold map_delete. rewrite in_map_iff.
  intros ([k c] & Hk & Hin). apply filter_In in Hin as [_ Hne]. simpl in *. subst k.
  rewrite Nat.eqb_refl in Hne. discriminate.
Qed.

Lemma map_delete_keys requestId m k :
  In k (map fst (map_delete requestId m)) -> In k (map fst m).
Proof.
  unfold map_delete. rewrite !in_map_iff. intros (e & He & Hin).
  apply filter_In in Hin as [Hin _]. eauto.
Qed.

Lemma map_delete_NoDup requestId m :
  List.NoDup (map fst m) -> List.NoDup (map fst (map_delete requestId m)).
Proof.
  induction m as [|[k c] m IH]; simpl; [auto|]. intros Hnd.
  apply List.NoDup_cons_iff in Hnd as [Hk Hm].
  unfold map_delete. simpl. destruct (negb (k =? requestId)); [|apply IH, Hm].
  simpl. constructor; [|apply IH, Hm].
  intros Hin. apply Hk. eapply map_delete_keys, Hin.
Qed.

Lemma pending_below_counter r :
  well_formed r -> ~ In (S (requestIdRef r)) (map fst (pendingRequestsRef r)).
Proof.
  intros [_ Hle] Hin. apply in_map_iff in Hin as (e & He & Hin).
  rewrite Forall_forall in Hle. apply list_elem_of_In, Hle in Hin. lia.
Qed.

Lemma handle_well_formed r (e : event callback) :
  well_formed r -> well_formed (handle r e).
Proof.
  intros Hwf. pose proof Hwf as [Hnd Hle].
  destruct e as [|request resolve|reply|message|]; cbn [handle].
  - exact Hwf.
  - unfold sortData. destruct (negb (workerRef r)); [exact Hwf|]. cbn [fst].
    unfold well_formed. cbn [pendingRequestsRef requestIdRef].
    rewrite (map_set_fresh _ _ _ (pending_below_counter r Hwf)).
    split.
    + rewrite map_app. simpl. apply NoDup_ListNoDup, NoDup_app.
      split; [apply NoDup_ListNoDup, Hnd|]. split; [|apply NoDup_singleton].
      intros k Hk Hk'. apply list_elem_of_singleton in Hk'. subst k.
      apply (pending_below_counter r Hwf), list_elem_of_In, Hk.
    + apply Forall_app. split; [|repeat constructor].
      eapply Forall_impl; [exact Hle|]. simpl. intros entry H. lia.
  - unfold onmessage.
    destruct (map_get (reply_requestId reply) (pendingRequestsRef r)); [|exact Hwf].
    cbn [fst]. split; cbn [pendingRequestsRef requestIdRef].
    + apply map_delete_NoDup, Hnd.
    + unfold map_delete. apply Forall_forall. intros entry Hin.
      apply list_elem_of_In, filter_In in Hin as [Hin _].
      rewrite Forall_forall in Hle. apply Hle, list_elem_of_In, Hin.
  - split; cbn; constructor.
  - split; cbn; constructor.
Qed.

Lemma run_well_formed (events : list (event callback)) : well_formed (run events).
Proof.
  unfold run.
  assert (H : well_formed (initial (callback := callback))) by (split; constructor).
  revert H. generalize (initial (callback := callback)).
  induction events as [|e events IH]; intros r Hr; simpl; [exact Hr|].
  apply IH, handle_well_formed, Hr.
Qed.

Lemma map_delete_length requestId (c : callback) m :
  map_get requestId m = Some c -> List.NoDup (map fst m) ->
  S (length (map_delete requestId m)) = length m.
Proof.
  unfold map_get, map_delete. induction m as [|[k c'] m IH]; simpl; [discriminate|].
  intros Hget Hnd. apply List.NoDup_cons_iff in Hnd as [Hk Hm].
  destruct (Nat.eqb_spec k requestId) as [->|Hne]; simpl.
  - f_equal. f_equal. apply map_delete_absent, Hk.
  - f_equal. apply IH; assumption.
Qed.

Lemma handle_react r (e : event callback) : handle r e = fst (react r e).
Proof. destruct e; reflexivity. Qed.

(** One event: what it answers and what it leaves pending, against what it
    asks and what was pending. *)
Lemma react_accounting r (e : event callback) :
  well_formed r ->
  length (List.filter is_call (snd (react r e)))
  + length (pendingRequestsRef (fst (react r e)))
  <= (if is_request e then 1 else 0) + length (pendingRequestsRef r)
  /\ (keeps_requests e = true ->
      length (List.filter is_call (snd (react r e)))
      + length (pendingRequestsRef (fst (react r e)))
      = (if is_request e then 1 else 0) + length (pendingRequestsRef r)).
Proof.
  intros Hwf. pose proof Hwf as [Hnd _].
  destruct e as [|request resolve|reply|message|]; cbn [react is_request keeps_requests].
  - cbn. lia.
  - unfold sortData. destruct (negb (workerRef r)).
    + cbn. lia.
    + cbn [fst snd pendingRequestsRef List.filter is_call length].
      rewrite (map_set_fresh _ _ _ (pending_below_counter r Hwf)), length_app.
      cbn [length]. lia.
  - unfold onmessage.
    destruct (map_get (reply_requestId reply) (pendingRequestsRef r)) as [c|] eqn:Hget.
    + pose proof (map_delete_length _ _ _ Hget Hnd) as Hlen.
      cbn [fst snd pendingRequestsRef].
      destruct reply; cbn [List.filter is_call length]; split; try lia; discriminate.
    + cbn. lia.
  - unfold onerror. cbn [fst snd pendingRequestsRef length].
    assert (Hcalls : forall l : list (nat * callback),
              length (List.filter is_call
                        (map (fun entry =>
                                called (snd entry)
                                  (mkResult [] (Some ("Worker error: " ++ message)%string)))
                           l))
              = length l).
    { intros l. induction l as [|x l IH]; [reflexivity|]. cbn. rewrite IH. reflexivity. }
    rewrite Hcalls. lia.
  - cbn. split; [lia|discriminate].
Qed.

Lemma trace_accounting (events : list (event callback)) : forall r,
  well_formed r ->
  length (List.filter is_call (trace_from r events))
  + length (pendingRequestsRef (fold_left handle events r))
  <= length (List.filter is_request events) + length (pendingRequestsRef r)
  /\ (forallb keeps_requests events = true ->
      length (List.filter is_call (trace_from r events))
      + length (pendingRequestsRef (fold_left handle events r))
      = length (List.filter is_request events) + length (pendingRequestsRef r)).
Proof.
  induction events as [|e events IH]; intros r Hwf.
  - cbn. lia.
  - cbn [trace_from fold_left forallb]. rewrite List.filter_app, length_app.
    destruct (react_accounting r e Hwf) as [Hle Heq].
    destruct (IH (handle r e) (handle_well_formed r e Hwf)) as [IHle IHeq].
    rewrite handle_react in *.
    assert (Hreq : length (List.filter is_request (e :: events))
                   = (if is_request e then 1 else 0)
                     + length (List.filter is_request events)).
    { cbn [List.filter]. destruct (is_request e); reflexivity. }
    rewrite Hreq. split; [lia|].
    intros Hkeeps. apply andb_true_iff in Hkeeps as [He Hrest].
    specialize (Heq He). specialize (IHeq Hrest). lia.
Qed.

End SortHook.


(** X20. A request made through a mounted hook comes back sorted: [sortData]
    posts one [SORT] message, the worker answers it with one [SORT_COMPLETE]
    carrying the same id and the data sorted as [sortVulnerabilities] of the
    main thread sorts it, and on that reply the hook calls the [resolve] of
    this request, and of no other, with the sorted data and no error, and
    forgets the request. *)
Theorem sort_request_round_trip {callback : Type}
    (events : list (useSortWorker.event callback))
    (request : useSortWorker.SortRequest) (resolve : callback) :
  let r := useSortWorker.run events in
  let requestId := S (useSortWorker.requestIdRef r) in
  let message := SORT (useSortWorker.data request) (useSortWorker.field request)
                   (useSortWorker.direction request) requestId in
  let reply := SORT_COMPLETE
                 (DataProcessor.sortVulnerabilities (useSortWorker.data request)
                    (useSortWorker.field request) (useSortWorker.direction request))
                 requestId in
  useSortWorker.workerRef r = true ->
  snd (useSortWorker.sortData r request resolve) = [useSortWorker.posted message]
  /\ worker_onmessage message = [reply]
  /\ useSortWorker.onmessage (fst (useSortWorker.sortData r request resolve)) reply
     = (useSortWorker.mkRefs true requestId (useSortWorker.pendingRequestsRef r),
        [useSortWorker.called resolve
           (useSortWorker.mkResult
              (DataProcessor.sortVulnerabilities (useSortWorker.data request)
                 (useSortWorker.field request) (useSortWorker.direction request))
              None)]).
Proof.
  cbn zeta. intros Hworker.
  pose proof (pending_below_counter _ (run_well_formed events)) as Hfresh.
  unfold useSortWorker.sortData. rewrite Hworker. cbn [negb fst snd].
  split; [reflexivity|].
  split; [cbn [worker_onmessage]; rewrite worker_sorts_as_main; reflexivity|].
  unfold useSortWorker.onmessage.
  cbn [reply_requestId useSortWorker.pendingRequestsRef useSortWorker.workerRef
         useSortWorker.requestIdRef].
  rewrite (map_set_fresh _ resolve _ Hfresh).
  assert (Hget : useSortWorker.map_get (S (useSortWorker.requestIdRef (useSortWorker.run events)))
                   (useSortWorker.pendingRequestsRef (useSortWorker.run events)
                    ++ [(S (useSortWorker.requestIdRef (useSortWorker.run events)), resolve)])
                 = Some resolve).
  { apply map_get_last, Hfresh. }
  rewrite Hget. f_equal. f_equal.
  unfold useSortWorker.map_delete. rewrite List.filter_app. simpl.
  rewrite Nat.eqb_refl. simpl. rewrite app_nil_r.
  apply (map_delete_absent _ _ Hfresh).
Qed.

Lemma sort_request_round_trip_witness :
  useSortWorker.workerRef
    (useSortWorker.run [useSortWorker.mounted (callback := nat)]) = true
  /\ snd (useSortWorker.sortData (useSortWorker.run [useSortWorker.mounted])
            (useSortWorker.mkRequest DataProcessor.unscored_first "cvss" desc) 7)
     = [useSortWorker.posted (SORT DataProcessor.unscored_first "cvss" desc 1)].
Proof.
  assert (H : useSortWorker.workerRef
                (useSortWorker.run [useSortWorker.mounted (callback := nat)]) = true)
    by reflexivity.
  split; [exact H|].
  exact (proj1 (sort_request_round_trip [useSortWorker.mounted]
                  (useSortWorker.mkRequest DataProcessor.unscored_first "cvss" desc)
                  7 H)).
Defined.


(** X21. The hook answers each request at most once. A reply whose id is not
    pending changes nothing and calls nothing; after a reply of any type for
    an id, that id is no longer pending, so a second reply for it is ignored;
    and a reply that is neither [SORT_COMPLETE] nor [SORT_ERROR] for a pending
    id removes the request without calling its [resolve]. *)
Theorem reply_at_most_once {callback : Type} (r : useSortWorker.refs callback)
    (reply again : worker_reply) :
  (useSortWorker.map_get (reply_requestId reply) (useSortWorker.pendingRequestsRef r)
   = None -> useSortWorker.onmessage r reply = (r, []))
  /\ (reply_requestId again = reply_requestId reply ->
      useSortWorker.onmessage (fst (useSortWorker.onmessage r reply)) again
      = (fst (useSortWorker.onmessage r reply), []))
  /\ (forall type requestId,
        reply = other_reply type requestId ->
        snd (useSortWorker.onmessage r reply) = []
        /\ useSortWorker.map_get requestId
             (useSortWorker.pendingRequestsRef (fst (useSortWorker.onmessage r reply)))
           = None).
Proof.
  split; [|split].
  - intros Hnone. unfold useSortWorker.onmessage. rewrite Hnone. reflexivity.
  - intros Hsame.
    assert (Hgone : useSortWorker.map_get (reply_requestId reply)
                      (useSortWorker.pendingRequestsRef
                         (fst (useSortWorker.onmessage r reply))) = None).
    { unfold useSortWorker.onmessage.
      destruct (useSortWorker.map_get (reply_requestId reply)
                  (useSortWorker.pendingRequestsRef r)) as [c|] eqn:Hget;
        cbn [fst useSortWorker.pendingRequestsRef].
      - apply map_delete_gone.
      - exact Hget. }
    generalize dependent (fst (useSortWorker.onmessage r reply)). intros r' Hgone.
    unfold useSortWorker.onmessage. rewrite Hsame, Hgone. reflexivity.
  - intros type requestId ->. unfold useSortWorker.onmessage. cbn [reply_requestId].
    destruct (useSortWorker.map_get requestId (useSortWorker.pendingRequestsRef r))
      as [c|] eqn:Hget; cbn [fst snd useSortWorker.pendingRequestsRef].
    + split; [reflexivity|apply map_delete_gone].
    + split; [reflexivity|exact Hget].
Qed.

Lemma reply_at_most_once_witness :
  useSortWorker.map_get 3
    (useSortWorker.pendingRequestsRef (useSortWorker.initial (callback := nat))) = None
  /\ useSortWorker.onmessage useSortWorker.initial
       (SORT_COMPLETE DataProcessor.unscored_first 3)
     = (useSortWorker.initial (callback := nat), []).
Proof.
  assert (H : useSortWorker.map_get 3
                (useSortWorker.pendingRequestsRef (useSortWorker.initial (callback := nat)))
              = None) by reflexivity.
  split; [exact H|].
  exact (proj1 (reply_at_most_once useSortWorker.initial
                  (SORT_COMPLETE DataProcessor.unscored_first 3)
                  (SORT_COMPLETE DataProcessor.unscored_first 3)) H).
Defined.

(** X22. Over any history of the hook no answer comes without a request
    and no request is counted twice: the calls made so far and the requests
    still pending are together no more than the requests made. They are
    exactly as many as long as the hook was never unmounted and the worker
    sent no reply of a type the hook does not know: every request is then
    pending or answered, a failure of the worker answering every pending
    one. *)
Theorem requests_accounted {callback : Type}
    (events : list (useSortWorker.event callback)) :
  let calls := length (List.filter useSortWorker.is_call (useSortWorker.trace events)) in
  let pending := length (useSortWorker.pendingRequestsRef (useSortWorker.run events)) in
  let requests := length (List.filter useSortWorker.is_request events) in
  calls + pending <= requests
  /\ (forallb useSortWorker.keeps_requests events = true -> calls + pending = requests).
Proof.
  cbn zeta. unfold useSortWorker.trace, useSortWorker.run.
  assert (Hwf : useSortWorker.well_formed (useSortWorker.initial (callback := callback)))
    by (split; constructor).
  destruct (trace_accounting events _ Hwf) as [Hle Heq].
  cbn [useSortWorker.initial useSortWorker.pendingRequestsRef length] in Hle, Heq.
  split; [lia|]. intros Hkeeps. specialize (Heq Hkeeps). lia.
Qed.

Lemma requests_accounted_witness :
  forallb useSortWorker.keeps_requests
    [useSortWorker.mounted;
     useSortWorker.requested
       (useSortWorker.mkRequest DataProcessor.unscored_first "cvss" desc) 7;
     useSortWorker.requested
       (useSortWorker.mkRequest DataProcessor.unscored_first "id" asc) 8;
     useSortWorker.replied (SORT_COMPLETE [] 1);
     useSortWorker.failed "boom"] = true
  /\ length (List.filter useSortWorker.is_call
               (useSortWorker.trace
                  [useSortWorker.mounted;
                   useSortWorker.requested
                     (useSortWorker.mkRequest DataProcessor.unscored_first "cvss" desc) 7;
                   useSortWorker.requested
                     (useSortWorker.mkRequest DataProcessor.unscored_first "id" asc) 8;
                   useSortWorker.replied (SORT_COMPLETE [] 1);
                   useSortWorker.failed "boom"]))
     + 0 = 2.
Proof.
  assert (H : forallb useSortWorker.keeps_requests
                [useSortWorker.mounted (callback := nat);
                 useSortWorker.requested
                   (useSortWorker.mkRequest DataProcessor.unscored_first "cvss" desc) 7;
                 useSortWorker.requested
                   (useSortWorker.mkRequest DataProcessor.unscored_first "id" asc) 8;
                 useSortWorker.replied (SORT_COMPLETE [] 1);
                 useSortWorker.failed "boom"] = true) by reflexivity.
  split; [exact H|].
  exact (proj2 (requests_accounted _) H).
Defined.

(** X23. An unmounted hook stays inert. After the cleanup, and as long as
    the hook is not mounted again, whatever requests, replies and failures
    follow leave the refs as the cleanup left them: no request is pending
    and the counter does not move. A request is then answered at once,
    without a message to the worker, with the data as it was given,
    unsorted, and the error ['Worker not initialized']; a reply or a failure
    of the worker calls nothing. The same holds before the first mount. *)
Theorem unmounted_hook_does_not_sort {callback : Type} (r0 : useSortWorker.refs callback)
    (events : list (useSortWorker.event callback))
    (request : useSortWorker.SortRequest) (resolve : callback)
    (reply : worker_reply) (message : string) :
  Forall (fun e => e <> useSortWorker.mounted) events ->
  let r := fold_left useSortWorker.handle events (useSortWorker.cleanup r0) in
  r = useSortWorker.cleanup r0
  /\ useSortWorker.sortData r request resolve
     = (r, [useSortWorker.called resolve
              (useSortWorker.mkResult (useSortWorker.data request)
                 (Some "Worker not initialized"))])
  /\ useSortWorker.onmessage r reply = (r, [])
  /\ useSortWorker.onerror r message = (r, [])
  /\ useSortWorker.cleanup useSortWorker.initial
     = useSortWorker.initial (callback := callback).
Proof.
  intros Hevents. cbn zeta.
  assert (Hr : fold_left useSortWorker.handle events (useSortWorker.cleanup r0)
               = useSortWorker.cleanup r0).
  { induction Hevents as [|e events He _ IH]; [reflexivity|].
    cbn [fold_left]. rewrite <- IH at 2. f_equal.
    destruct e; [contradiction|reflexivity..]. }
  rewrite Hr. repeat split.
Qed.

Lemma unmounted_hook_does_not_sort_witness :
  Forall (fun e => e <> useSortWorker.mounted)
    [useSortWorker.requested
       (useSortWorker.mkRequest DataProcessor.unscored_first "cvss" desc) 7;
     useSortWorker.replied (SORT_COMPLETE [] 1);
     useSortWorker.failed "boom"]
  /\ fold_left useSortWorker.handle
       [useSortWorker.requested
          (useSortWorker.mkRequest DataProcessor.unscored_first "cvss" desc) 7;
        useSortWorker.replied (SORT_COMPLETE [] 1);
        useSortWorker.failed "boom"]
       (useSortWorker.cleanup (useSortWorker.run [useSortWorker.mounted]))
     = useSortWorker.cleanup (useSortWorker.run [useSortWorker.mounted]).
Proof.
  assert (H : Forall (fun e => e <> useSortWorker.mounted (callback := nat))
                [useSortWorker.requested
                   (useSortWorker.mkRequest DataProcessor.unscored_first "cvss" desc) 7;
                 useSortWorker.replied (SORT_COMPLETE [] 1);
                 useSortWorker.failed "boom"])
    by (repeat constructor; discriminate).
  split; [exact H|].
  exact (proj1 (unmounted_hook_does_not_sort
                  (useSortWorker.run [useSortWorker.mounted]) _
                  (useSortWorker.mkRequest DataProcessor.unscored_first "cvss" desc) 7
                  (SORT_COMPLETE [] 1) "boom" H)).
Defined.

Lemma compare_icon_follows_list_witness :
  id (DataProcessor.scenario_record "b" "low" 2 "curl" "open") <> id (DataProcessor.scenario_record "a" "high" 7.5 "zlib" "open")
  /\ VirtualizedTable.isInComparison
       (Some (MainDashboard.handleAddToComparison []
                (DataProcessor.scenario_record "a" "high" 7.5 "zlib" "open")))
       (DataProcessor.scenario_record "b" "low" 2 "curl" "open")
     = VirtualizedTable.isInComparison (Some []) (DataProcessor.scenario_record "b" "low" 2 "curl" "open").
Proof.
  assert (H : id (DataProcessor.scenario_record "b" "low" 2 "curl" "open")
              <> id (DataProcessor.scenario_record "a" "high" 7.5 "zlib" "open")) by discriminate.
  split; [exact H|].
  exact (proj1 (proj2 (proj2 (compare_icon_follows_list []
                                (DataProcessor.scenario_record "a" "high" 7.5 "zlib" "open")
                                (DataProcessor.scenario_record "b" "low" 2 "curl" "open"))) H)).
Defined.

Lemma comparison_add_then_remove_witness :
  ~ In (id (DataProcessor.scenario_record "a" "high" 7.5 "zlib" "open"))
       (map id [DataProcessor.scenario_record "b" "low" 2 "curl" "open"])
  /\ MainDashboard.handleRemoveFromComparison
       (MainDashboard.handleAddToComparison [DataProcessor.scenario_record "b" "low" 2 "curl" "open"]
          (DataProcessor.scenario_record "a" "high" 7.5 "zlib" "open"))
       (id (DataProcessor.scenario_record "a" "high" 7.5 "zlib" "open"))
     = [DataProcessor.scenario_record "b" "low" 2 "curl" "open"].
Proof.
  assert (H : ~ In (id (DataProcessor.scenario_record "a" "high" 7.5 "zlib" "open"))
                   (map id [DataProcessor.scenario_record "b" "low" 2 "curl" "open"])).
  { simpl. intros [H|[]]. discriminate H. }
  split; [exact H|].
  exact (proj2 (proj2 (comparison_add_then_remove [DataProcessor.scenario_record "b" "low" 2 "curl" "open"]
                         (DataProcessor.scenario_record "a" "high" 7.5 "zlib" "open"))) H).
Defined.


(** ** Colours and levels *)

Section Colours.
Import DataProcessor SeverityUtils CvssUtils.

Lemma severity_rank_lower (s : string) (n : Q) :
  SEVERITY_ORDER !! toLowerCase s = Some n -> Qeq_bool n 0 = false ->
  severity_rank (Some s) = Some n.
Proof.
  intros Hn Hnz. unfold severity_rank, optional_toLowerCase. cbn [option_map].
  cbn zeta. rewrite or_empty_Some, Hn. unfold or_zero. rewrite Hnz. reflexivity.
Qed.

(** The colour name, the hex colour and the rank of a severity text, by the
    level it spells. *)
Lemma severity_classified (s : string) :
  (toLowerCase s = "critical" /\ getSeverityColorName s = "error"
   /\ getSeverityColorHex s = "#d32f2f" /\ severity_rank (Some s) = Some 4%Q)
  \/ (toLowerCase s = "high" /\ getSeverityColorName s = "warning"
      /\ getSeverityColorHex s = "#f57c00" /\ severity_rank (Some s) = Some 3%Q)
  \/ (toLowerCase s = "medium" /\ getSeverityColorName s = "info"
      /\ getSeverityColorHex s = "#0288d1" /\ severity_rank (Some s) = Some 2%Q)
  \/ (toLowerCase s = "low" /\ getSeverityColorName s = "success"
      /\ getSeverityColorHex s = "#388e3c" /\ severity_rank (Some s) = Some 1%Q)
  \/ (~ (exists level, In level SEVERITIES /\ same_ignoring_case s level)
      /\ getSeverityColorName s = "default"
      /\ getSeverityColorHex s = "#757575"
      /\ severity_rank (Some s)
         = if inherited (toLowerCase s) then None else Some 0%Q).
Proof.
  unfold getSeverityColorName, getSeverityColorHex. cbn zeta.
  destruct (String.eqb_spec (toLowerCase s) "critical") as [E|N1].
  { left. repeat split; [exact E|].
    apply severity_rank_lower; [rewrite E|]; reflexivity. }
  destruct (String.eqb_spec (toLowerCase s) "high") as [E|N2].
  { right; left. repeat split; [exact E|].
    apply severity_rank_lower; [rewrite E|]; reflexivity. }
  destruct (String.eqb_spec (toLowerCase s) "medium") as [E|N3].
  { do 2 right; left. repeat split; [exact E|].
    apply severity_rank_lower; [rewrite E|]; reflexivity. }
  destruct (String.eqb_spec (toLowerCase s) "low") as [E|N4].
  { do 3 right; left. repeat split; [exact E|].
    apply severity_rank_lower; [rewrite E|]; reflexivity. }
  do 4 right.
  assert (Hunknown : ~ (exists level, In level SEVERITIES /\ same_ignoring_case s level)).
  { intros (level & Hin & Hsame). unfold same_ignoring_case in Hsame.
    simpl in Hin. destruct Hin as [<-|[<-|[<-|[<-|[]]]]]; simpl in Hsame; contradiction. }
  repeat split; [exact Hunknown|].
  destruct (inherited (toLowerCase s)) eqn:Hinh.
  - apply severity_rank_inherited, Hinh.
  - apply severity_rank_unknown; assumption.
Qed.

Lemma known_level (s level : string) :
  In level SEVERITIES -> toLowerCase s = toLowerCase level ->
  exists level, In level SEVERITIES /\ same_ignoring_case s level.
Proof. intros Hin Hsame. exists level. split; assumption. Qed.

Lemma Qle_bool_false (x y : Q) : Qle_bool x y = false <-> (y < x)%Q.
Proof.
  rewrite <- not_true_iff_false, Qle_bool_iff. split; [apply Qnot_le_lt|apply Qlt_not_le].
Qed.

(** The level of a score, by the band the score is in. *)
Lemma cvss_classified (c : Q) :
  ((9 <= c)%Q /\ getCvssSeverityLevel (Some c) = "Critical"
   /\ getCvssColor (Some c) = "#d32f2f")
  \/ ((7 <= c < 9)%Q /\ getCvssSeverityLevel (Some c) = "High"
      /\ getCvssColor (Some c) = "#f57c00")
  \/ ((4 <= c < 7)%Q /\ getCvssSeverityLevel (Some c) = "Medium"
      /\ getCvssColor (Some c) = "#fbc02d")
  \/ ((0 < c < 4)%Q /\ getCvssSeverityLevel (Some c) = "Low"
      /\ getCvssColor (Some c) = "#388e3c")
  \/ ((c <= 0)%Q /\ getCvssSeverityLevel (Some c) = "None"
      /\ getCvssColor (Some c) = "#388e3c").
Proof.
  unfold getCvssSeverityLevel, getCvssColor.
  destruct (Qle_bool 9 c) eqn:H9.
  { left. apply Qle_bool_iff in H9. auto. }
  apply Qle_bool_false in H9.
  destruct (Qle_bool 7 c) eqn:H7.
  { right; left. apply Qle_bool_iff in H7. auto. }
  apply Qle_bool_false in H7.
  destruct (Qle_bool 4 c) eqn:H4.
  { do 2 right; left. apply Qle_bool_iff in H4. auto. }
  apply Qle_bool_false in H4.
  destruct (Qle_bool c 0) eqn:H0; cbn [negb].
  - do 4 right. apply Qle_bool_iff in H0. auto.
  - do 3 right; left. apply Qle_bool_false in H0. auto.
Qed.

Lemma lower_upper_char (c : ascii) : lower_char (upper_char c) = lower_char c.
Proof. destruct c as [[] [] [] [] [] [] [] []]; reflexivity. Qed.

Lemma toLowerCase_titleCase (c : ascii) (rest : string) :
  Ascii.eqb c sharp_s = false ->
  toLowerCase (DataLoader.titleCase (String c rest)) = toLowerCase (String c rest).
Proof.
  intros Hc. rewrite (titleCase_cons c rest Hc). cbn [toLowerCase].
  rewrite lower_upper_char, toLowerCase_idempotent. reflexivity.
Qed.











End Colours.

(** X24. The colour of a severity follows the level it spells, whatever the
    case: a text gets a colour other than the default one exactly when it
    spells one of the four levels, which is exactly when the sort ranks it
    above zero; a text with the default colour has the rank 0 or, when it
    spells a property name every object inherits, no rank. The hex colour is
    the grey one exactly when the colour name is the default one; and two
    texts get the same colour exactly when they spell the same level or
    neither spells a level. *)
Theorem severity_colours_follow_levels (s t : string) :
  (SeverityUtils.getSeverityColorName s <> "default"
   <-> exists level, In level SEVERITIES /\ same_ignoring_case s level)
  /\ (SeverityUtils.getSeverityColorName s <> "default"
      <-> exists n, DataProcessor.severity_rank (Some s) = Some n /\ (0 < n)%Q)
  /\ (SeverityUtils.getSeverityColorName s = "default"
      <-> DataProcessor.severity_rank (Some s)
          = if inherited (toLowerCase s) then None else Some 0%Q)
  /\ (SeverityUtils.getSeverityColorName s = "default"
      <-> SeverityUtils.getSeverityColorHex s = "#757575")
  /\ (SeverityUtils.getSeverityColorName s = SeverityUtils.getSeverityColorName t
      <-> same_ignoring_case s t
          \/ (SeverityUtils.getSeverityColorName s = "default"
              /\ SeverityUtils.getSeverityColorName t = "default"))
  /\ (SeverityUtils.getSeverityColorHex s = SeverityUtils.getSeverityColorHex t
      <-> SeverityUtils.getSeverityColorName s = SeverityUtils.getSeverityColorName t).
Proof.
  assert (Hsame : forall u v, same_ignoring_case u v ->
                    SeverityUtils.getSeverityColorName u
                    = SeverityUtils.getSeverityColorName v).
  { intros u v Huv. unfold SeverityUtils.getSeverityColorName. cbn zeta.
    rewrite Huv. reflexivity. }
  destruct (severity_classified s)
    as [(Ls & Ns & Hs & Rs)|[(Ls & Ns & Hs & Rs)|[(Ls & Ns & Hs & Rs)
        |[(Ls & Ns & Hs & Rs)|(Us & Ns & Hs & Rs)]]]].
  5: { split; [split; [congruence|contradiction]|].
       split.
       { split; [congruence|]. intros (n & Hn & Hpos). exfalso.
         rewrite Rs in Hn. destruct (inherited (toLowerCase s)); [discriminate Hn|].
         injection Hn as <-. revert Hpos. apply Qlt_irrefl. }
       split; [tauto|]. split; [tauto|].
       destruct (severity_classified t)
         as [(Lt & Nt & Ht & Rt)|[(Lt & Nt & Ht & Rt)|[(Lt & Nt & Ht & Rt)
             |[(Lt & Nt & Ht & Rt)|(Ut & Nt & Ht & Rt)]]]];
         rewrite Ns, Hs, Nt, Ht;
         (split; [split; [intros K; first [discriminate K|right; split; reflexivity]
                         |intros [K|[K1 K2]];
                          [pose proof (Hsame _ _ K); congruence|first [discriminate|reflexivity]]]
                 |split; intros K; first [discriminate K|reflexivity]]). }
  all: assert (Ks : exists level, In level SEVERITIES /\ same_ignoring_case s level)
         by (first [ apply (known_level s "Critical"); [simpl; tauto|exact Ls]
                   | apply (known_level s "High"); [simpl; tauto|exact Ls]
                   | apply (known_level s "Medium"); [simpl; tauto|exact Ls]
                   | apply (known_level s "Low"); [simpl; tauto|exact Ls] ]).
  all: (split; [split; [intros _; exact Ks|intros _; rewrite Ns; discriminate]|]).
  all: (split; [split; [intros _; eexists; split; [exact Rs|reflexivity]
                       |intros _; rewrite Ns; discriminate]|]).
  all: (split; [rewrite Ns, Rs; split; intros K;
                  [discriminate K|destruct (inherited (toLowerCase s)); discriminate K]|]).
  all: (split; [rewrite Ns, Hs; split; intros K; discriminate K|]).
  all: destruct (severity_classified t)
         as [(Lt & Nt & Ht & Rt)|[(Lt & Nt & Ht & Rt)|[(Lt & Nt & Ht & Rt)
             |[(Lt & Nt & Ht & Rt)|(Ut & Nt & Ht & Rt)]]]];
         rewrite Ns, Hs, Nt, Ht.
  all: (split; [|split; intros K; first [discriminate K|reflexivity]]).
  all: (split; [intros K; first [discriminate K|left; unfold same_ignoring_case; congruence]
               |intros [K|[K1 K2]];
                [pose proof (Hsame _ _ K); congruence|first [discriminate|reflexivity]]]).
Qed.

(** X25. The level of a CVSS score grows with the score: of two scores, the
    higher never gets a level that the severity order ranks lower. *)
Theorem cvss_level_monotone (lower higher : Q) :
  (lower <= higher)%Q ->
  exists low high : Q,
    DataProcessor.severity_rank (Some (CvssUtils.getCvssSeverityLevel (Some lower)))
    = Some low
    /\ DataProcessor.severity_rank (Some (CvssUtils.getCvssSeverityLevel (Some higher)))
       = Some high
    /\ (low <= high)%Q.
Proof.
  intros Hle.
  destruct (cvss_classified lower)
    as [(Bl & -> & _)|[(Bl & -> & _)|[(Bl & -> & _)|[(Bl & -> & _)|(Bl & -> & _)]]]];
    destruct (cvss_classified higher)
      as [(Bh & -> & _)|[(Bh & -> & _)|[(Bh & -> & _)|[(Bh & -> & _)|(Bh & -> & _)]]]];
    first [ exfalso; lra
          | do 2 eexists; split; [reflexivity|split; [reflexivity|discriminate]] ].
Qed.

Lemma cvss_level_monotone_witness :
  (3.9 <= 7)%Q
  /\ DataProcessor.severity_rank (Some (CvssUtils.getCvssSeverityLevel (Some 3.9%Q)))
     = Some 1%Q
  /\ DataProcessor.severity_rank (Some (CvssUtils.getCvssSeverityLevel (Some 7%Q)))
     = Some 3%Q.
Proof.
  assert (H : (3.9 <= 7)%Q) by (vm_compute; discriminate).
  split; [exact H|].
  destruct (cvss_level_monotone 3.9%Q 7%Q H) as (low & high & _ & _ & _).
  split; reflexivity.
Defined.

(** X26. A score gets one of the four severity levels exactly when it is
    above zero, and its colour is the colour of that level exactly when the
    score is at least 7 or between 0 and 4: a medium score is shown in
    yellow where a medium severity is blue, a score of zero or less in the
    green of a low one, and a missing score in a grey of its own. *)
Theorem cvss_colour_and_level (cvss : option Q) :
  (In (CvssUtils.getCvssSeverityLevel cvss) SEVERITIES
   <-> exists c, cvss = Some c /\ (0 < c)%Q)
  /\ (CvssUtils.getCvssColor cvss
      = SeverityUtils.getSeverityColorHex (CvssUtils.getCvssSeverityLevel cvss)
      <-> exists c, cvss = Some c /\ ((7 <= c)%Q \/ (0 < c < 4)%Q)).
Proof.
  destruct cvss as [c|].
  2: { split; split.
       - simpl. intros [H|[H|[H|[H|[]]]]]; discriminate H.
       - intros (c & H & _). discriminate H.
       - discriminate.
       - intros (c & H & _). discriminate H. }
  destruct (cvss_classified c)
    as [(B & -> & ->)|[(B & -> & ->)|[(B & -> & ->)|[(B & -> & ->)|(B & -> & ->)]]]].
  - split; split.
    + intros _. exists c. split; [reflexivity|lra].
    + intros _. simpl. tauto.
    + intros _. exists c. split; [reflexivity|left; lra].
    + intros _. reflexivity.
  - split; split.
    + intros _. exists c. split; [reflexivity|lra].
    + intros _. simpl. tauto.
    + intros _. exists c. split; [reflexivity|left; lra].
    + intros _. reflexivity.
  - split; split.
    + intros _. exists c. split; [reflexivity|lra].
    + intros _. simpl. tauto.
    + discriminate.
    + intros (c' & [= <-] & H). exfalso. lra.
  - split; split.
    + intros _. exists c. split; [reflexivity|lra].
    + intros _. simpl. tauto.
    + intros _. exists c. split; [reflexivity|right; lra].
    + intros _. reflexivity.
  - split; split.
    + simpl. intros [H|[H|[H|[H|[]]]]]; discriminate H.
    + intros (c' & [= <-] & H). exfalso. lra.
    + discriminate.
    + intros (c' & [= <-] & H). exfalso. lra.
Qed.



(** ** Charts *)

Section Charts.
Import DataProcessor.

Lemma no_recognized_iff (data : list VulnerabilityData) :
  Forall (fun d => ~ recognized_severity d) data
  <-> count_severity "Critical" data = 0 /\ count_severity "High" data = 0
      /\ count_severity "Medium" data = 0 /\ count_severity "Low" data = 0.
Proof.
  induction data as [|d data IH].
  - split; [intros _; repeat split|constructor].
  - rewrite Forall_cons, IH, recognized_iff, !count_severity_cons.
    destruct (decide (same_ignoring_case (severity d) "Critical")),
             (decide (same_ignoring_case (severity d) "High")),
             (decide (same_ignoring_case (severity d) "Medium")),
             (decide (same_ignoring_case (severity d) "Low"));
      split; intros K; try tauto; try lia.
Qed.

Lemma filter_map_length {A B : Type} (g : A -> B) (p : B -> bool) (l : list A) :
  length (List.filter p (map g l)) = length (List.filter (fun x => p (g x)) l).
Proof.
  induction l as [|x l IH]; [reflexivity|].
  cbn [map List.filter]. destruct (p (g x)); cbn [length]; rewrite IH; reflexivity.
Qed.

Lemma upper_lower_char (c : ascii) : upper_char (lower_char c) = upper_char c.
Proof. destruct c as [[] [] [] [] [] [] [] []]; reflexivity. Qed.

Lemma lower_char_sharp_s (c : ascii) :
  Ascii.eqb (lower_char c) sharp_s = Ascii.eqb c sharp_s.
Proof. destruct c as [[] [] [] [] [] [] [] []]; reflexivity. Qed.

Lemma titleCase_lower (c : ascii) (rest : string) :
  Ascii.eqb c sharp_s = false ->
  DataLoader.titleCase (toLowerCase (String c rest)) = DataLoader.titleCase (String c rest).
Proof.
  intros Hc. cbn [toLowerCase].
  rewrite !titleCase_cons by (rewrite ?lower_char_sharp_s; exact Hc).
  rewrite upper_lower_char, toLowerCase_idempotent. reflexivity.
Qed.

(** After the loader, a record carries a level exactly when it spelled
    that level, in any case, before. *)
Lemma normalized_severity_level (d : VulnerabilityData) (level : string) :
  In level SEVERITIES ->
  severity (with_normalized_severity d) = level
  <-> same_ignoring_case (severity d) level.
Proof.
  intros Hin. unfold same_ignoring_case, with_normalized_severity. cbn [severity].
  destruct (severity d) as [|c rest] eqn:Hs.
  { cbn [truthy_string]. simpl in Hin.
    destruct Hin as [<-|[<-|[<-|[<-|[]]]]]; split; discriminate. }
  cbn [truthy_string].
  destruct (Ascii.eqb c sharp_s) eqn:Hc.
  { apply Ascii.eqb_eq in Hc. subst c. rewrite titleCase_sharp_s. simpl in Hin.
    destruct Hin as [<-|[<-|[<-|[<-|[]]]]]; split; discriminate. }
  split.
  - intros <-. symmetry. apply toLowerCase_titleCase, Hc.
  - intros Hsame.
    assert (Hlevel : DataLoader.titleCase (toLowerCase level) = level).
    { simpl in Hin. destruct Hin as [<-|[<-|[<-|[<-|[]]]]]; reflexivity. }
    rewrite <- (titleCase_lower c rest Hc), Hsame. exact Hlevel.
Qed.

Lemma count_up_lookup (breakdown : gmap string counter) (sev k : string) :
  count_or_zero (AIManualComparisonChart.count_up breakdown sev) k
  = option_map (fun n => n + (if String.eqb sev k then 1 else 0))
      (count_or_zero breakdown k).
Proof.
  unfold AIManualComparisonChart.count_up, count_or_zero.
  destruct (String.eqb_spec sev k) as [->|Hne].
  - unfold add_one. destruct (breakdown !! k) as [[n| |]|] eqn:Hk;
      rewrite ?lookup_insert_eq; try reflexivity.
    destruct (inherited k) eqn:Hinh.
    + destruct (String.eqb k "__proto__");
        rewrite ?Hk, ?Hinh, ?lookup_insert_eq; reflexivity.
    + rewrite lookup_insert_eq. reflexivity.
  - rewrite add_one_ne by exact Hne.
    destruct (breakdown !! k) as [[n| |]|]; cbn [option_map]; try reflexivity.
    + rewrite Nat.add_0_r. reflexivity.
    + destruct (inherited k); cbn [option_map]; reflexivity.
Qed.

Lemma option_map_add (o : option nat) (n m : nat) :
  option_map (fun x => x + m) (option_map (fun x => x + n) o)
  = option_map (fun x => x + (n + m)) o.
Proof. destruct o; cbn [option_map]; [f_equal; lia|reflexivity]. Qed.

(** What the [forEach] has added to each counter. *)
Lemma analysis_fold (data : list VulnerabilityData) :
  forall stats : AIManualComparisonChart.AnalysisStats,
  let result := fold_left AIManualComparisonChart.step data stats in
  AIManualComparisonChart.aiTotal result
  = AIManualComparisonChart.aiTotal stats
    + length (List.filter AIManualComparisonChart.isAI data)
  /\ AIManualComparisonChart.manualTotal result
     = AIManualComparisonChart.manualTotal stats
       + length (List.filter (fun d => negb (AIManualComparisonChart.isAI d)) data)
  /\ AIManualComparisonChart.aiNoRisk result
     = AIManualComparisonChart.aiNoRisk stats
       + length (List.filter
                   (fun d => AIManualComparisonChart.isAI d
                             && AIManualComparisonChart.noRisk d) data)
  /\ AIManualComparisonChart.manualNoRisk result
     = AIManualComparisonChart.manualNoRisk stats
       + length (List.filter
                   (fun d => negb (AIManualComparisonChart.isAI d)
                             && AIManualComparisonChart.noRisk d) data)
  /\ (forall k,
        count_or_zero (AIManualComparisonChart.aiSeverityBreakdown result) k
        = option_map
            (fun n => n + length (List.filter
                                    (fun d => AIManualComparisonChart.isAI d
                                              && String.eqb (severity d) k) data))
            (count_or_zero (AIManualComparisonChart.aiSeverityBreakdown stats) k))
  /\ (forall k,
        count_or_zero (AIManualComparisonChart.manualSeverityBreakdown result) k
        = option_map
            (fun n => n + length (List.filter
                                    (fun d => negb (AIManualComparisonChart.isAI d)
                                              && String.eqb (severity d) k) data))
            (count_or_zero (AIManualComparisonChart.manualSeverityBreakdown stats) k)).
Proof.
  induction data as [|d data IH]; intros stats; cbn zeta.
  - cbn [fold_left List.filter length].
    repeat split; intros; try lia;
      match goal with |- _ = option_map _ ?o =>
        destruct o; cbn [option_map]; [f_equal; lia|reflexivity] end.
  - cbn [fold_left List.filter].
    destruct (IH (AIManualComparisonChart.step stats d))
      as (H1 & H2 & H3 & H4 & H5 & H6).
    rewrite H1, H2, H3, H4. clear H1 H2 H3 H4.
    unfold AIManualComparisonChart.step in *.
    destruct (AIManualComparisonChart.isAI d), (AIManualComparisonChart.noRisk d);
      cbn [AIManualComparisonChart.aiTotal AIManualComparisonChart.manualTotal
           AIManualComparisonChart.aiNoRisk AIManualComparisonChart.manualNoRisk
           AIManualComparisonChart.aiSeverityBreakdown
           AIManualComparisonChart.manualSeverityBreakdown negb andb length] in *.
    all: repeat split; try lia.
    all: intros k; rewrite ?H5, ?H6, ?count_up_lookup, ?option_map_add;
      destruct (String.eqb (severity d) k); cbn [length];
      match goal with |- option_map _ ?o = option_map _ ?o =>
        destruct o; cbn [option_map]; [f_equal; lia|reflexivity] end.
Qed.

Lemma empty_breakdown_count (k : string) :
  count_or_zero AIManualComparisonChart.empty_breakdown k
  = if inherited k then None else Some 0.
Proof.
  unfold count_or_zero, AIManualComparisonChart.empty_breakdown.
  rewrite !lookup_insert, lookup_empty.
  repeat case_decide; subst; reflexivity.
Qed.

Lemma filter_split_length {A : Type} (p q : A -> bool) (l : list A) :
  length (List.filter (fun x => p x && q x) l)
  + length (List.filter (fun x => negb (p x) && q x) l)
  = length (List.filter q l).
Proof.
  induction l as [|x l IH]; [reflexivity|].
  cbn [List.filter]. destruct (p x), (q x); cbn [negb andb length]; lia.
Qed.
End Charts.

(** X28. The severity pie chart shows the levels that at least one record
    has, whatever the case it is written in, in the order Critical, High,
    Medium, Low and each with the number of its records; it is empty exactly
    when no record has a recognized severity. *)
Theorem severity_chart_slices (data : list VulnerabilityData) :
  let chart :=
    SeverityDistribution.chartData (Some (DataProcessor.processVulnerabilityData data)) in
  map (fun item => (SeverityDistribution.name item, SeverityDistribution.value item)) chart
  = map (fun level => (level, Some (Count (count_severity level data))))
      (List.filter (fun level => 0 <? count_severity level data) SEVERITIES)
  /\ (chart = [] <-> Forall (fun d => ~ recognized_severity d) data).
Proof.
  cbn zeta. rewrite no_recognized_iff.
  unfold SeverityDistribution.chartData, DataProcessor.processVulnerabilityData.
  cbn [severityDistribution]. rewrite groupBySeverity_counts.
  set (c := count_severity "Critical" data). set (h := count_severity "High" data).
  set (m := count_severity "Medium" data). set (l := count_severity "Low" data).
  destruct (distribution_lookup (DataProcessor.spells_constructor data) c h m l)
    as (Hc & Hh & Hm & Hl).
  rewrite Hc, Hh, Hm, Hl. unfold SEVERITIES.
  cbn [List.filter SeverityDistribution.shown SeverityDistribution.value].
  fold c h m l.
  destruct (Nat.ltb_spec 0 c), (Nat.ltb_spec 0 h), (Nat.ltb_spec 0 m), (Nat.ltb_spec 0 l);
    (split; [reflexivity|]); split; intros K; try discriminate K; try lia; try reflexivity.
Qed.

(** X29. The AI against manual chart counts every record once, as AI
    analysis or as manual analysis; the records without risk are some of
    their side; and it agrees with the KAI breakdown of the metrics: every
    record counted under ['ai-invalid-norisk'] is an AI record without risk,
    and every record counted under ['invalid - norisk'] a manual one. *)
Theorem analysis_chart_totals (data : list VulnerabilityData) :
  let stats := AIManualComparisonChart.analysisStats data in
  let metrics := DataProcessor.processVulnerabilityData data in
  AIManualComparisonChart.aiTotal stats + AIManualComparisonChart.manualTotal stats
  = total metrics
  /\ AIManualComparisonChart.aiNoRisk stats <= AIManualComparisonChart.aiTotal stats
  /\ AIManualComparisonChart.manualNoRisk stats
     <= AIManualComparisonChart.manualTotal stats
  /\ ai_invalid_norisk (kaiStatusBreakdown metrics)
     <= AIManualComparisonChart.aiNoRisk stats
  /\ invalid_norisk (kaiStatusBreakdown metrics)
     <= AIManualComparisonChart.manualNoRisk stats.
Proof.
  cbn zeta. unfold AIManualComparisonChart.analysisStats.
  destruct (analysis_fold data AIManualComparisonChart.initial) as (H1 & H2 & H3 & H4 & _).
  rewrite H1, H2, H3, H4.
  unfold DataProcessor.processVulnerabilityData.
  cbn [total kaiStatusBreakdown ai_invalid_norisk invalid_norisk
       AIManualComparisonChart.initial AIManualComparisonChart.aiTotal
       AIManualComparisonChart.manualTotal AIManualComparisonChart.aiNoRisk
       AIManualComparisonChart.manualNoRisk Nat.add].
  split; [apply filter_complement_length|].
  split; [apply filter_length_mono; intros x Hx; apply andb_true_iff in Hx; tauto|].
  split; [apply filter_length_mono; intros x Hx; apply andb_true_iff in Hx; tauto|].
  split; apply filter_length_mono; intros x Hx; apply String.eqb_eq in Hx;
    unfold AIManualComparisonChart.isAI, AIManualComparisonChart.noRisk;
    rewrite Hx; reflexivity.
Qed.

(** X30. The rows of the AI against manual severity comparison count the
    records by the exact text of their severity: for a text that is no
    property name of [Object.prototype], the AI count is the number of AI
    records with that very text and the manual count the number of manual
    ones, which add up to the number of records with that text; for a text
    that is such a name neither breakdown gives a count. On records as the
    loader leaves them, with the severity in Title case, the two counts of
    each level add up to the count of that level in the severity
    distribution; the severities begin with a character other than the
    micro sign and y with diaeresis. *)
Theorem analysis_chart_severity_rows (data : list VulnerabilityData) :
  (forall k,
     inherited k = false ->
     count_or_zero (AIManualComparisonChart.aiSeverityBreakdown
                      (AIManualComparisonChart.analysisStats data)) k
     = Some (length (List.filter
                       (fun d => AIManualComparisonChart.isAI d
                                 && String.eqb (severity d) k) data))
     /\ count_or_zero (AIManualComparisonChart.manualSeverityBreakdown
                         (AIManualComparisonChart.analysisStats data)) k
        = Some (length (List.filter
                          (fun d => negb (AIManualComparisonChart.isAI d)
                                    && String.eqb (severity d) k) data))
     /\ length (List.filter
                  (fun d => AIManualComparisonChart.isAI d
                            && String.eqb (severity d) k) data)
        + length (List.filter
                    (fun d => negb (AIManualComparisonChart.isAI d)
                              && String.eqb (severity d) k) data)
        = length (List.filter (fun d => String.eqb (severity d) k) data))
  /\ (forall k,
        inherited k = true ->
        count_or_zero (AIManualComparisonChart.aiSeverityBreakdown
                         (AIManualComparisonChart.analysisStats data)) k = None
        /\ count_or_zero (AIManualComparisonChart.manualSeverityBreakdown
                            (AIManualComparisonChart.analysisStats data)) k = None)
  /\ (Forall (fun a => upper_within (charAt0 (severity a)) = true) data ->
      map (fun row => (fst (fst row), add_counts (snd (fst row)) (snd row)))
        (AIManualComparisonChart.severityComparisonData
           (AIManualComparisonChart.analysisStats (map with_normalized_severity data)))
      = map (fun level =>
               (level,
                count_or_zero (DataProcessor.groupBySeverity data) (toLowerCase level)))
          SEVERITIES).
Proof.
  assert (Hrows : forall data' k,
            count_or_zero (AIManualComparisonChart.aiSeverityBreakdown
                             (AIManualComparisonChart.analysisStats data')) k
            = (if inherited k then None
               else Some (length (List.filter
                                    (fun d => AIManualComparisonChart.isAI d
                                              && String.eqb (severity d) k) data')))
            /\ count_or_zero (AIManualComparisonChart.manualSeverityBreakdown
                                (AIManualComparisonChart.analysisStats data')) k
               = (if inherited k then None
                  else Some (length (List.filter
                                       (fun d => negb (AIManualComparisonChart.isAI d)
                                                 && String.eqb (severity d) k) data')))).
  { intros data' k. unfold AIManualComparisonChart.analysisStats.
    destruct (analysis_fold data' AIManualComparisonChart.initial)
      as (_ & _ & _ & _ & H5 & H6).
    rewrite H5, H6.
    cbn [AIManualComparisonChart.initial AIManualComparisonChart.aiSeverityBreakdown
         AIManualComparisonChart.manualSeverityBreakdown].
    rewrite empty_breakdown_count. destruct (inherited k); split; reflexivity. }
  split.
  { intros k Hk. destruct (Hrows data k) as [Hai Hmanual]. rewrite Hk in Hai, Hmanual.
    split; [exact Hai|]. split; [exact Hmanual|].
    apply (filter_split_length AIManualComparisonChart.isAI
             (fun d => String.eqb (severity d) k)). }
  split.
  { intros k Hk. destruct (Hrows data k) as [Hai Hmanual]. rewrite Hk in Hai, Hmanual.
    split; assumption. }
  intros _.
  assert (Hlevel : forall level, In level SEVERITIES ->
            length (List.filter (fun d => String.eqb (severity d) level)
                      (map with_normalized_severity data))
            = count_severity level data).
  { intros level Hin. rewrite filter_map_length. unfold count_severity.
    apply list_filter_length_Forall. intros d.
    rewrite String.eqb_eq. apply normalized_severity_level, Hin. }
  assert (Hrow : forall level, In level SEVERITIES -> inherited level = false ->
            add_counts
              (count_or_zero (AIManualComparisonChart.aiSeverityBreakdown
                                (AIManualComparisonChart.analysisStats
                                   (map with_normalized_severity data))) level)
              (count_or_zero (AIManualComparisonChart.manualSeverityBreakdown
                                (AIManualComparisonChart.analysisStats
                                   (map with_normalized_severity data))) level)
            = Some (count_severity level data)).
  { intros level Hin Hplain.
    destruct (Hrows (map with_normalized_severity data) level) as [Hai Hmanual].
    rewrite Hai, Hmanual, Hplain. cbn [add_counts]. f_equal.
    rewrite <- (Hlevel level Hin).
    apply (filter_split_length AIManualComparisonChart.isAI
             (fun d => String.eqb (severity d) level)). }
  rewrite groupBySeverity_counts.
  unfold AIManualComparisonChart.severityComparisonData, SEVERITIES.
  cbn [map fst snd].
  rewrite !Hrow by (first [reflexivity|simpl; tauto]).
  unfold count_or_zero.
  destruct (distribution_lookup (DataProcessor.spells_constructor data)
              (count_severity "Critical" data) (count_severity "High" data)
              (count_severity "Medium" data) (count_severity "Low" data))
    as (Hc & Hh & Hm & Hl).
  change (toLowerCase "Critical") with "critical".
  change (toLowerCase "High") with "high".
  change (toLowerCase "Medium") with "medium".
  change (toLowerCase "Low") with "low".
  rewrite Hc, Hh, Hm, Hl. reflexivity.
Qed.

Lemma analysis_chart_severity_rows_witness :
  inherited "High" = false
  /\ Forall (fun a => upper_within (charAt0 (severity a)) = true)
       DataProcessor.unscored_first
  /\ count_or_zero (AIManualComparisonChart.manualSeverityBreakdown
                      (AIManualComparisonChart.analysisStats
                         DataProcessor.unscored_first)) "High"
     = Some 1
  /\ map (fun row => (fst (fst row), add_counts (snd (fst row)) (snd row)))
       (AIManualComparisonChart.severityComparisonData
          (AIManualComparisonChart.analysisStats
             (map with_normalized_severity DataProcessor.unscored_first)))
     = [("Critical", Some 0); ("High", Some 1); ("Medium", Some 1); ("Low", Some 1)].
Proof.
  assert (H : inherited "High" = false) by reflexivity.
  assert (W : Forall (fun a => upper_within (charAt0 (severity a)) = true)
                DataProcessor.unscored_first) by (repeat constructor).
  split; [exact H|]. split; [exact W|].
  destruct (analysis_chart_severity_rows DataProcessor.unscored_first)
    as (Hcounts & _ & Hrows).
  split; [exact (proj1 (proj2 (Hcounts "High" H)))|].
  rewrite (Hrows W). reflexivity.
Defined.
